(** * libloc: address primitives and the version-0 database reader

    A shallow embedding of [src/libloc/private.h] (the inline helpers on
    [struct in6_addr]) and of [src/database.c] (opening a database file and
    the binary search over its AS section).

    Machine integers are values of [Z] with the conversions of the C types
    written out; byte buffers are lists of [Z] in the range [0, 255]. *)

From Stdlib Require String.
From Stdlib Require Import ZArith Zbitwise List Bool Lia Sorted.
Import ListNotations.
Local Open Scope Z_scope.

(* ================================================================= *)
(** ** Machine integers *)

Definition byte_ok (b : Z) : bool := (0 <=? b) && (b <? 256).

(** Conversion to [uint8_t], [uint32_t] and [size_t] (64 bit). *)
Definition to_uint8 (x : Z) : Z := x mod 2 ^ 8.
Definition to_uint32 (x : Z) : Z := x mod 2 ^ 32.
Definition to_size_t (x : Z) : Z := x mod 2 ^ 64.

(** Conversion to [off_t], a signed 64-bit integer, and to [int]. *)
Definition to_off_t (x : Z) : Z := (x + 2 ^ 63) mod 2 ^ 64 - 2 ^ 63.
Definition to_int (x : Z) : Z := (x + 2 ^ 31) mod 2 ^ 32 - 2 ^ 31.

(** The unsigned integer a list of bytes spells, most significant byte
    first. *)
Definition be_decode (bs : list Z) : Z :=
  fold_left (fun acc b => acc * 256 + b) bs 0.

(** [~x] on a [uint32_t]. *)
Definition uint32_not (x : Z) : Z := Z.lxor x 0xffffffff.

(* ================================================================= *)
(** ** [struct in6_addr] *)

(** The sixteen bytes [s6_addr\[0..15\]], most significant first. *)
Definition in6_addr := list Z.

Definition in6_addr_wf (a : in6_addr) : bool :=
  (length a =? 16)%nat && forallb byte_ok a.

(** [a->s6_addr\[i\]] *)
Definition s6_addr (a : in6_addr) (i : Z) : Z :=
  if i <? 0 then 0 else nth (Z.to_nat i) a 0.

Fixpoint list_set (l : list Z) (n : nat) (v : Z) : list Z :=
  match l, n with
  | [], _ => []
  | _ :: l', O => v :: l'
  | x :: l', S n' => x :: list_set l' n' v
  end.

(** [a->s6_addr\[i\] = v].  A store outside the sixteen bytes is undefined
    in C; here it leaves the address unchanged. *)
Definition set_s6_addr (a : in6_addr) (i : Z) (v : Z) : in6_addr :=
  if i <? 0 then a else list_set a (Z.to_nat i) v.

(** The union member [s6_addr32] views the same sixteen bytes as four
    32-bit words in the byte order of the host. *)
Inductive byte_order := LittleEndian | BigEndian.

Definition word_of_bytes (e : byte_order) (b0 b1 b2 b3 : Z) : Z :=
  match e with
  | LittleEndian => b0 + 2 ^ 8 * b1 + 2 ^ 16 * b2 + 2 ^ 24 * b3
  | BigEndian => b3 + 2 ^ 8 * b2 + 2 ^ 16 * b1 + 2 ^ 24 * b0
  end.

(** Byte [k] (in memory order) of the 32-bit word [w]. *)
Definition byte_of_word (e : byte_order) (w : Z) (k : Z) : Z :=
  match e with
  | LittleEndian => Z.land (Z.shiftr w (8 * k)) 0xff
  | BigEndian => Z.land (Z.shiftr w (8 * (3 - k))) 0xff
  end.

(** [a->s6_addr32\[i\]] *)
Definition s6_addr32 (e : byte_order) (a : in6_addr) (i : Z) : Z :=
  word_of_bytes e (s6_addr a (4 * i)) (s6_addr a (4 * i + 1))
                  (s6_addr a (4 * i + 2)) (s6_addr a (4 * i + 3)).

(** [a->s6_addr32\[i\] = w] *)
Definition set_s6_addr32 (e : byte_order) (a : in6_addr) (i : Z) (w : Z)
  : in6_addr :=
  let a0 := set_s6_addr a (4 * i) (byte_of_word e w 0) in
  let a1 := set_s6_addr a0 (4 * i + 1) (byte_of_word e w 1) in
  let a2 := set_s6_addr a1 (4 * i + 2) (byte_of_word e w 2) in
  set_s6_addr a2 (4 * i + 3) (byte_of_word e w 3).

(** The content of a [struct in6_addr] local before it is written is
    indeterminate: whatever the stack held.  Where a definition needs a
    value for it this one stands in, with no byte of it zero, so that a
    byte returned without having been written shows.  Every function below
    overwrites all sixteen bytes before returning the local, and gives the
    same result from any other content. *)
Definition in6_addr_uninit : in6_addr := repeat 0xaa 16.

(* ----------------------------------------------------------------- *)
(** *** [in6_addr_cmp] *)

(** The loop [for (unsigned int i = 0; i < 16; i++)], with [n] iterations
    left to run from index [i]. *)
Fixpoint in6_addr_cmp_loop (n : nat) (i : Z) (a1 a2 : in6_addr) : Z :=
  match n with
  | O => 0
  | S n' =>
      if s6_addr a1 i >? s6_addr a2 i then 1
      else if s6_addr a1 i <? s6_addr a2 i then -1
      else in6_addr_cmp_loop n' (i + 1) a1 a2
  end.

Definition in6_addr_cmp (a1 a2 : in6_addr) : Z :=
  in6_addr_cmp_loop 16 0 a1 a2.

(* ----------------------------------------------------------------- *)
(** *** [in6_addr_get_bit] *)

Definition in6_addr_get_bit (address : in6_addr) (i : Z) : Z :=
  Z.land (Z.shiftr (s6_addr address (i / 8)) (7 - (i mod 8))) 1.

(* ----------------------------------------------------------------- *)
(** *** [in6_addr_set_bit] *)

(** [address->s6_addr\[i / 8\] ^= (-val ^ address->s6_addr\[i / 8\])
      & (1 << (7 - (i % 8)))], with [val] an [unsigned int]: [-val] is
    taken modulo [2 ^ 32] and the result is stored back into a byte. *)
Definition in6_addr_set_bit (address : in6_addr) (i val : Z) : in6_addr :=
  let byte := s6_addr address (i / 8) in
  set_s6_addr address (i / 8)
    (to_uint8
       (Z.lxor byte
          (Z.land (Z.lxor (to_uint32 (- val)) byte)
                  (Z.shiftl 1 (7 - i mod 8))))).

(* ----------------------------------------------------------------- *)
(** *** [loc_prefix_to_bitmask] *)

(** [for (unsigned int i = 0; i < 16; i++) bitmask.s6_addr\[i\] = 0;] *)
Fixpoint bitmask_zero_loop (n : nat) (i : Z) (bitmask : in6_addr) : in6_addr :=
  match n with
  | O => bitmask
  | S n' => bitmask_zero_loop n' (i + 1) (set_s6_addr bitmask i 0)
  end.

(** [for (int i = prefix, j = 0; i > 0; i -= 8, j++)].  [i] drops by eight
    in every round, so [fuel] rounds are enough whenever [i <= fuel]. *)
Fixpoint bitmask_fill_loop (fuel : nat) (i j : Z) (bitmask : in6_addr)
  : in6_addr :=
  match fuel with
  | O => bitmask
  | S fuel' =>
      if i >? 0 then
        let bitmask' :=
          if i >=? 8 then set_s6_addr bitmask j 0xff
          else set_s6_addr bitmask j (to_uint8 (Z.shiftl 0xff (8 - i))) in
        bitmask_fill_loop fuel' (to_int (i - 8)) (j + 1) bitmask'
      else bitmask
  end.

(** The body of the function, with [stack] the content of the local
    [bitmask] when the function is entered. *)
Definition loc_prefix_to_bitmask_from (stack : in6_addr) (prefix : Z)
  : in6_addr :=
  let bitmask := bitmask_zero_loop 16 0 stack in
  bitmask_fill_loop (Z.to_nat (to_int prefix)) (to_int prefix) 0 bitmask.

Definition loc_prefix_to_bitmask (prefix : Z) : in6_addr :=
  loc_prefix_to_bitmask_from in6_addr_uninit prefix.

(* ----------------------------------------------------------------- *)
(** *** [loc_address_and], [loc_address_or] *)

(** [for (unsigned int i = 0; i < 4; i++)
      a.s6_addr32\[i\] = address->s6_addr32\[i\] & bitmask->s6_addr32\[i\];] *)
Fixpoint address_and_loop (n : nat) (i : Z) (e : byte_order)
    (address bitmask a : in6_addr) : in6_addr :=
  match n with
  | O => a
  | S n' =>
      address_and_loop n' (i + 1) e address bitmask
        (set_s6_addr32 e a i
           (Z.land (s6_addr32 e address i) (s6_addr32 e bitmask i)))
  end.

Definition loc_address_and (e : byte_order) (address bitmask : in6_addr)
  : in6_addr :=
  address_and_loop 4 0 e address bitmask in6_addr_uninit.

(** [for (unsigned int i = 0; i < 4; i++)
      a.s6_addr32\[i\] = address->s6_addr32\[i\] | ~bitmask->s6_addr32\[i\];] *)
Fixpoint address_or_loop (n : nat) (i : Z) (e : byte_order)
    (address bitmask a : in6_addr) : in6_addr :=
  match n with
  | O => a
  | S n' =>
      address_or_loop n' (i + 1) e address bitmask
        (set_s6_addr32 e a i
           (Z.lor (s6_addr32 e address i)
                  (uint32_not (s6_addr32 e bitmask i))))
  end.

Definition loc_address_or (e : byte_order) (address bitmask : in6_addr)
  : in6_addr :=
  address_or_loop 4 0 e address bitmask in6_addr_uninit.

(* ================================================================= *)
(** ** The C library and the operating system *)

(** [errno.h] (Linux). *)
Definition EINVAL : Z := 22.
Definition ENOMSG : Z := 42.

(** A [FILE*] opened for reading: the bytes of the file and the read
    position of the stream. *)
Record FILE := mkFILE { file_data : list Z; file_pos : nat }.

(** [fopen(path, "r")] on a file holding [data]. *)
Definition fopen (data : list Z) : FILE := mkFILE data 0.

(** [fread(buf, 1, n, f)]: the bytes transferred, at most [n], and the
    stream after the call.  The return value of [fread] is the length of
    the transferred list. *)
Definition fread (n : Z) (f : FILE) : list Z * FILE :=
  let buf := firstn (Z.to_nat n) (skipn (file_pos f) (file_data f)) in
  (buf, mkFILE (file_data f) (file_pos f + length buf)).

(** Reads of mapped memory either deliver a value or raise a signal
    ([SIGBUS] past the end of the file, [SIGSEGV] outside a mapping). *)
Inductive mem (A : Type) : Type :=
| Val (a : A)
| Fault.
Arguments Val {A} a.
Arguments Fault {A}.

Definition mem_bind {A B : Type} (m : mem A) (k : A -> mem B) : mem B :=
  match m with
  | Val a => k a
  | Fault => Fault
  end.

Notation "x <- m ;; k" := (mem_bind m (fun x => k))
  (at level 61, m at next level, right associativity).

(** A successful [mmap(NULL, length, PROT_READ, MAP_SHARED, fd, offset)]. *)
Record mapping := mkMapping {
  map_data : list Z;
  map_offset : Z;
  map_length : Z
}.

Definition page_size : Z := 4096.

Definition page_round_up (n : Z) : Z :=
  (n + page_size - 1) / page_size * page_size.

(** The byte at index [i] of a mapping.  Bytes of the file are read as they
    are, the rest of the last page of the file reads as zero, and pages
    wholly past the end of the file raise [SIGBUS]. *)
Definition mapping_read (m : mapping) (i : Z) : mem Z :=
  if (i <? 0) || (page_round_up (map_length m) <=? i) then Fault
  else
    let pos := map_offset m + i in
    let size := Z.of_nat (length (map_data m)) in
    if pos <? 0 then Fault
    else if pos <? size then Val (nth (Z.to_nat pos) (map_data m) 0)
    else if pos <? page_round_up size then Val 0
    else Fault.

Fixpoint mapping_read_bytes (m : mapping) (i : Z) (n : nat) : mem (list Z) :=
  match n with
  | O => Val []
  | S n' =>
      b <- mapping_read m i ;;
      bs <- mapping_read_bytes m (i + 1) n' ;;
      Val (b :: bs)
  end.

(** What a pointer that receives the result of [mmap] holds: [NULL] before
    the call, then [MAP_FAILED] or the address of a mapping. *)
Inductive map_ptr :=
| NULL
| MAP_FAILED
| Mapped (m : mapping).

(** Whether [mmap] fails, and with which [errno], is decided by the
    operating system: [mmap_errno length f offset] is [Some e] when the call
    fails with [errno = e] and [None] when it succeeds. *)
Definition mmap_oracle := Z -> FILE -> Z -> option positive.

(** [mmap(NULL, length, PROT_READ, MAP_SHARED, fileno(f), offset)]: the
    pointer returned and, when it is [MAP_FAILED], the [errno] set. *)
Definition mmap (mmap_errno : mmap_oracle) (length : Z) (f : FILE)
    (offset : Z) : map_ptr * option positive :=
  match mmap_errno length f offset with
  | Some e => (MAP_FAILED, Some e)
  | None => (Mapped (mkMapping (file_data f) offset length), None)
  end.

(** The failures Linux decides from the arguments alone: a zero length and
    an offset that is not a multiple of the page size give [EINVAL]. *)
Definition linux_mmap_errno : mmap_oracle :=
  fun length _ offset =>
    if (length =? 0) || negb (offset mod page_size =? 0) then Some 22%positive
    else None.

(** The [len] bytes of a structure that start at offset [off]. *)
Definition slice (bs : list Z) (off len : nat) : list Z :=
  firstn len (skipn off bs).

(** [ntohs], [ntohl] and [be64toh] applied to a field of a structure read
    from the file: the bytes of the field, decoded big-endian, as a
    [uint16_t], [uint32_t] and [uint64_t]. *)
Definition ntohs (bs : list Z) : Z := be_decode bs mod 2 ^ 16.
Definition ntohl (bs : list Z) : Z := to_uint32 (be_decode bs).
Definition be64toh (bs : list Z) : Z := be_decode bs mod 2 ^ 64.

(** [memcmp(s1, s2, n) == 0] *)
Definition memcmp_eq (s1 s2 : list Z) (n : nat) : bool :=
  if list_eq_dec Z.eq_dec (firstn n s1) (firstn n s2) then true else false.

(* ================================================================= *)
(** ** [loc/format.h] *)

Module Format.

(** Modelled from the spec: [loc/format.h] is not part of the sources at
    hand.  The magic is the seven ASCII bytes [LOCDBXX]. *)
Definition LOC_DATABASE_MAGIC : list Z := [76; 79; 67; 68; 66; 88; 88].

(** Modelled from the spec: [struct loc_database_magic] is the nine bytes
    that open the file, [char magic\[7\]] followed by [uint16_t version]. *)
Definition sizeof_magic : Z := 9.
Definition magic_magic (raw : list Z) : list Z := slice raw 0 7.
Definition magic_version (raw : list Z) : list Z := slice raw 7 2.

(** Modelled from the spec: [struct loc_database_header_v0] holds the fields
    [loc_database_read_header_v0] reads, laid out in the order the spec
    gives for the header: two 32-bit pool offsets of strings, the 64-bit
    creation time, then offset and length of the pool and of the AS
    section, 32 bytes in all. *)
Definition sizeof_header_v0 : Z := 32.
Definition header_vendor (raw : list Z) : list Z := slice raw 0 4.
Definition header_description (raw : list Z) : list Z := slice raw 4 4.
Definition header_created_at (raw : list Z) : list Z := slice raw 8 8.
Definition header_pool_offset (raw : list Z) : list Z := slice raw 16 4.
Definition header_pool_length (raw : list Z) : list Z := slice raw 20 4.
Definition header_as_offset (raw : list Z) : list Z := slice raw 24 4.
Definition header_as_length (raw : list Z) : list Z := slice raw 28 4.

(** Modelled from the spec: [struct loc_database_as_v0] is an AS record of
    eight bytes, [uint32_t number] followed by [uint32_t name]. *)
Definition sizeof_as_v0 : Z := 8.
Definition as_v0_number (raw : list Z) : list Z := slice raw 0 4.
Definition as_v0_name (raw : list Z) : list Z := slice raw 4 4.

End Format.

(* ================================================================= *)
(** ** [stringpool.h] *)

Module Stringpool.

(** Modelled from the spec: [stringpool.c] is not part of the sources at
    hand.  A reader-side pool is backed by a mapping of the pool section,
    or by a heap buffer holding the section where it could not be mapped;
    [data] is [NULL] until the section is read. *)
Record loc_stringpool := mk {
  data : map_ptr;
  max_length : Z
}.

(** Modelled from the spec: [loc_stringpool_new(ctx, &pool, max_length)]
    hands out an empty pool. *)
Definition loc_stringpool_new (max_length : Z) : Z * loc_stringpool :=
  (0, mk NULL max_length).

(** Modelled from the spec: when [mmap] fails, a section is read into a
    heap buffer instead, with identical semantics: the buffer holds the
    bytes of the section and is read as the mapping of the section would
    be. *)
Definition heap_buffered (f : FILE) (offset length : Z) : map_ptr :=
  Mapped (mkMapping (file_data f) offset length).

(** Modelled from the spec: [loc_stringpool_read(pool, f, offset, length)]
    backs the pool by a mapping of the pool section and, if [mmap] fails,
    falls back to a heap-buffered read of the section; either way the pool
    is read.  An empty section leaves nothing to map or to buffer. *)
Definition loc_stringpool_read (mmap_errno : mmap_oracle)
    (pool : loc_stringpool) (f : FILE) (offset length : Z)
  : Z * loc_stringpool :=
  if length >? 0 then
    match mmap mmap_errno length f offset with
    | (p, None) => (0, mk p length)
    | (_, Some _) => (0, mk (heap_buffered f offset length) length)
    end
  else (0, mk (data pool) length).

(** The bytes from [i] up to the next NUL, which has to come before
    [limit]. *)
Fixpoint scan_string (n : nat) (m : mapping) (i limit : Z)
  : mem (option (list Z)) :=
  match n with
  | O => Val None
  | S n' =>
      if limit <=? i then Val None
      else
        b <- mapping_read m i ;;
        if b =? 0 then Val (Some [])
        else
          r <- scan_string n' m (i + 1) limit ;;
          Val (option_map (cons b) r)
  end.

(** Modelled from the spec: [loc_stringpool_get(pool, offset)] is the
    NUL-terminated string at [offset]; offset 0 is the empty string, and
    there is no string ([NULL]) when the offset is out of range or no NUL
    follows before the end of the pool. *)
Definition loc_stringpool_get (pool : loc_stringpool) (offset : Z)
  : mem (option (list Z)) :=
  if offset =? 0 then Val (Some [])
  else if (offset <? 0) || (max_length pool <=? offset) then Val None
  else
    match data pool with
    | Mapped m =>
        scan_string (Z.to_nat (max_length pool - offset)) m offset
                    (max_length pool)
    | _ => Fault
    end.

End Stringpool.

(* ================================================================= *)
(** ** [as.h] *)

Module As.

(** Modelled from the spec: [as.c] is not part of the sources at hand.  An
    AS object carries its number and the pool offset of its name, together
    with the pool the name is resolved through. *)
Record loc_as := mk {
  pool : option Stringpool.loc_stringpool;
  number : Z;
  name : Z
}.

(** What a [struct loc_as*] variable holds: [NULL], an object the holder
    has a reference to, or the stale address of an object whose reference
    was given back with [loc_as_unref]. *)
Inductive loc_as_ptr :=
| Null
| Live (a : loc_as)
| Released (a : loc_as).

(** The record [dbobj = as_v0 + pos] of a mapped AS section, decoded:
    [(ntohl(dbobj->number), ntohl(dbobj->name))]. *)
Definition read_as_v0 (as_v0 : map_ptr) (pos : Z) : mem (Z * Z) :=
  match as_v0 with
  | Mapped m =>
      raw <- mapping_read_bytes m (Format.sizeof_as_v0 * pos)
               (Z.to_nat Format.sizeof_as_v0) ;;
      Val (ntohl (Format.as_v0_number raw), ntohl (Format.as_v0_name raw))
  | _ => Fault
  end.

(** Modelled from the spec: [loc_as_new_from_database_v0(ctx, pool, as,
    dbobj)] stores in [*as] a new AS object with the number and the name
    offset of the record. *)
Definition loc_as_new_from_database_v0
    (pool : option Stringpool.loc_stringpool) (as_ : loc_as_ptr)
    (as_v0 : map_ptr) (pos : Z) : mem (Z * loc_as_ptr) :=
  rec <- read_as_v0 as_v0 pos ;;
  Val (0, Live (mk pool (fst rec) (snd rec))).

(** [loc_as_get_number(as)] *)
Definition loc_as_get_number (as_ : loc_as_ptr) : mem Z :=
  match as_ with
  | Live a => Val (number a)
  | _ => Fault
  end.

(** Modelled from the spec: [loc_as_get_name(as)] resolves the name
    through the pool. *)
Definition loc_as_get_name (a : loc_as) : mem (option (list Z)) :=
  match pool a with
  | None => Fault
  | Some p => Stringpool.loc_stringpool_get p (name a)
  end.

(** [loc_as_unref(as)] *)
Definition loc_as_unref (as_ : loc_as_ptr) : loc_as_ptr :=
  match as_ with
  | Live a => Released a
  | p => p
  end.

End As.

(* ================================================================= *)
(** ** [database.c] *)

Module Database.

(** [struct loc_database], without the logging context. *)
Record loc_database := mk {
  refcount : Z;
  file : FILE;
  version : Z;
  created_at : Z;
  vendor : Z;
  description : Z;
  as_v0 : map_ptr;
  as_count : Z;
  pool : option Stringpool.loc_stringpool
}.

Definition set_file (db : loc_database) (f : FILE) : loc_database :=
  mk (refcount db) f (version db) (created_at db) (vendor db)
     (description db) (as_v0 db) (as_count db) (pool db).

Definition set_version (db : loc_database) (v : Z) : loc_database :=
  mk (refcount db) (file db) v (created_at db) (vendor db)
     (description db) (as_v0 db) (as_count db) (pool db).

Definition set_meta (db : loc_database) (c v d : Z) : loc_database :=
  mk (refcount db) (file db) (version db) c v d
     (as_v0 db) (as_count db) (pool db).

Definition set_as_v0 (db : loc_database) (m : map_ptr) : loc_database :=
  mk (refcount db) (file db) (version db) (created_at db) (vendor db)
     (description db) m (as_count db) (pool db).

Definition set_as_count (db : loc_database) (n : Z) : loc_database :=
  mk (refcount db) (file db) (version db) (created_at db) (vendor db)
     (description db) (as_v0 db) n (pool db).

Definition set_pool (db : loc_database)
    (p : option Stringpool.loc_stringpool) : loc_database :=
  mk (refcount db) (file db) (version db) (created_at db) (vendor db)
     (description db) (as_v0 db) (as_count db) p.

(** [calloc] of a zeroed [struct loc_database], then [db->refcount = 1] and
    [db->file = copy_file_pointer(f)].  The stream opened on the duplicated
    descriptor starts at the file offset of the descriptor; for an [f] fresh
    from [fopen], the only kind the statements below open, this is the
    position of [f], the start of the file.  For a stream the caller has
    read from already the two can differ, which is not modelled.  Memory
    and descriptors are taken not to run out. *)
Definition loc_database_alloc (f : FILE) : loc_database :=
  mk 1 f 0 0 0 0 NULL 0 None.

Definition loc_database_read_magic (db : loc_database) : Z * loc_database :=
  let '(magic, f) := fread Format.sizeof_magic (file db) in
  let db := set_file db f in
  let bytes_read := Z.of_nat (length magic) in
  if bytes_read <? Format.sizeof_magic then (- ENOMSG, db)
  else if memcmp_eq Format.LOC_DATABASE_MAGIC (Format.magic_magic magic)
            (length Format.LOC_DATABASE_MAGIC)
  then (0, set_version db (ntohs (Format.magic_version magic)))
  else (1, db).

Section WithMmap.

Variable mmap_errno : mmap_oracle.

Definition loc_database_read_as_section_v0 (db : loc_database)
    (as_offset as_length : Z) : Z * loc_database :=
  let mapped :=
    if as_length >? 0 then
      match mmap mmap_errno as_length (file db) as_offset with
      | (p, Some e) => inl (- Z.pos e, set_as_v0 db p)
      | (p, None) => inr (set_as_v0 db p)
      end
    else inr db in
  match mapped with
  | inl failed => failed
  | inr db => (0, set_as_count db (as_length / Format.sizeof_as_v0))
  end.

Definition loc_database_read_header_v0 (db : loc_database)
  : Z * loc_database :=
  let '(header, f) := fread Format.sizeof_header_v0 (file db) in
  let db := set_file db f in
  let size := Z.of_nat (length header) in
  if size <? Format.sizeof_header_v0 then (- ENOMSG, db)
  else
    let db := set_meta db
                (to_off_t (be64toh (Format.header_created_at header)))
                (ntohl (Format.header_vendor header))
                (ntohl (Format.header_description header)) in
    let pool_offset := ntohl (Format.header_pool_offset header) in
    let pool_length := ntohl (Format.header_pool_length header) in
    let '(r, p) := Stringpool.loc_stringpool_new 0 in
    let db := set_pool db (Some p) in
    if negb (r =? 0) then (r, db)
    else
      let '(r, p) :=
        Stringpool.loc_stringpool_read mmap_errno p (file db)
          pool_offset pool_length in
      let db := set_pool db (Some p) in
      if negb (r =? 0) then (r, db)
      else
        let as_offset := ntohl (Format.header_as_offset header) in
        let as_length := ntohl (Format.header_as_length header) in
        let '(r, db) :=
          loc_database_read_as_section_v0 db as_offset as_length in
        if negb (r =? 0) then (r, db)
        else (0, db).

Definition loc_database_read_header (db : loc_database) : Z * loc_database :=
  match version db with
  | 0 => loc_database_read_header_v0 db
  | _ => (1, db)
  end.

(** [loc_database_new(ctx, database, f)]: the return value and what
    [*database] holds afterwards, [database] being what it held before. *)
Definition loc_database_new (database : option loc_database) (f : FILE)
  : Z * option loc_database :=
  let db := loc_database_alloc f in
  let '(r, db) := loc_database_read_magic db in
  if negb (r =? 0) then (r, database)
  else
    let '(r, db) := loc_database_read_header db in
    if negb (r =? 0) then (r, database)
    else (0, Some db).

End WithMmap.

Definition loc_database_count_as (db : loc_database) : Z := as_count db.

(** Returns the AS at position [pos]: the return value and what [*as]
    holds afterwards. *)
Definition loc_database_fetch_as (db : loc_database) (as_ : As.loc_as_ptr)
    (pos : Z) : mem (Z * As.loc_as_ptr) :=
  if to_size_t pos >=? as_count db then Val (- EINVAL, as_)
  else
    match version db with
    | 0 => As.loc_as_new_from_database_v0 (pool db) as_ (as_v0 db) pos
    | _ => Val (-1, as_)
    end.

(** One round of the [while (lo <= hi)] loop ends the function or goes on
    with new bounds. *)
Inductive round :=
| Return (r : Z) (as_ : As.loc_as_ptr)
| Continue (lo hi : Z) (as_ : As.loc_as_ptr).

Definition get_as_round (db : loc_database) (number : Z) (lo hi : Z)
    (as_ : As.loc_as_ptr) : mem round :=
  let i := Z.quot (to_off_t (lo + hi)) 2 in
  fetched <- loc_database_fetch_as db as_ i ;;
  let '(r, as_) := fetched in
  if negb (r =? 0) then Val (Return r as_)
  else
    as_number <- As.loc_as_get_number as_ ;;
    if as_number =? number then Val (Return 0 as_)
    else
      let as_ := As.loc_as_unref as_ in
      if as_number <? number then Val (Continue (to_off_t (i + 1)) hi as_)
      else Val (Continue lo (to_off_t (i - 1)) as_).

(** The loop, with [fuel] bounding the number of rounds: [None] when the
    rounds allowed are used up before the loop ends. *)
Fixpoint get_as_loop (fuel : nat) (db : loc_database) (number : Z)
    (lo hi : Z) (as_ : As.loc_as_ptr) : option (mem (Z * As.loc_as_ptr)) :=
  if lo <=? hi then
    match fuel with
    | O => None
    | S fuel' =>
        match get_as_round db number lo hi as_ with
        | Fault => Some Fault
        | Val (Return r as_) => Some (Val (r, as_))
        | Val (Continue lo hi as_) => get_as_loop fuel' db number lo hi as_
        end
    end
  else Some (Val (0, As.Null)).

(** Performs a binary search to find the AS in the list. *)
Definition loc_database_get_as (fuel : nat) (db : loc_database)
    (as_ : As.loc_as_ptr) (number : Z) : option (mem (Z * As.loc_as_ptr)) :=
  let lo := 0 in
  let hi := to_off_t (to_size_t (as_count db - 1)) in
  get_as_loop fuel db number lo hi as_.

End Database.

(* ================================================================= *)
(** ** [database.c]: reference counting and release *)

Definition set_refcount (db : Database.loc_database) (n : Z)
  : Database.loc_database :=
  Database.mk n (Database.file db) (Database.version db)
    (Database.created_at db) (Database.vendor db) (Database.description db)
    (Database.as_v0 db) (Database.as_count db) (Database.pool db).

(** [db->refcount++; return db;] *)
Definition loc_database_ref (db : Database.loc_database)
  : Database.loc_database :=
  set_refcount db (to_int (Database.refcount db + 1)).

(** The calls through which [loc_database_free] gives back what a database
    holds, in the order it makes them. *)
Inductive release :=
| Munmap (p : map_ptr) (length : Z)
| Stringpool_unref (pool : option Stringpool.loc_stringpool)
| Fclose (f : FILE)
| Unref_ctx
| Free.

(** [loc_database_free(db)]: the AS section is unmapped when [db->as_v0]
    is not [NULL], with [db->as_count * sizeof( *db->as_v0)] as length. *)
Definition loc_database_free (db : Database.loc_database) : list release :=
  (match Database.as_v0 db with
   | NULL => []
   | p => [Munmap p (to_size_t (Database.as_count db * Format.sizeof_as_v0))]
   end)
  ++ [Stringpool_unref (Database.pool db); Fclose (Database.file db);
      Unref_ctx; Free].

(** [loc_database_unref(db)]: the object afterwards, [None] once it is
    freed, and the calls made to release it.  The function itself always
    returns [NULL]. *)
Definition loc_database_unref (db : Database.loc_database)
  : option Database.loc_database * list release :=
  let db := set_refcount db (to_int (Database.refcount db - 1)) in
  if Database.refcount db >? 0 then (Some db, [])
  else (None, loc_database_free db).

(* ================================================================= *)
(** ** Callers of the database reader *)

(** What [fopen(path, "r")] finds: the content of the file, if the path can
    be opened. *)
Definition filesystem := String.string -> option (list Z).

(** *** [test-database.c] *)

(** [attempt_to_open(ctx, path)]: the return value and the calls made to
    release the database, should opening succeed.  [db] is what the local
    variable of that name holds before it is assigned; releasing through a
    [NULL] pointer faults. *)
Definition attempt_to_open (mmap_errno : mmap_oracle) (fs : filesystem)
    (db : option Database.loc_database) (path : String.string)
  : mem (Z * list release) :=
  match fs path with
  | None => Val (-1, [])
  | Some data =>
      let '(r, db) := Database.loc_database_new mmap_errno db (fopen data) in
      if r =? 0 then
        match db with
        | Some d => Val (1, snd (loc_database_unref d))
        | None => Fault
        end
      else Val (r, [])
  end.

(** *** The Python binding *)

Module Python.

(** [DatabaseObject]: the field [db]. *)
Record DatabaseObject := mk { db : option Database.loc_database }.

(** [Database_new]: [tp_alloc] hands out zeroed memory. *)
Definition Database_new : DatabaseObject := mk None.

(** [Database_init(self, args, kwargs)].  [args] is the path when the
    arguments are one string, and [None] when [PyArg_ParseTuple] turns them
    down. *)
Definition Database_init (mmap_errno : mmap_oracle) (fs : filesystem)
    (self : DatabaseObject) (args : option String.string)
  : Z * DatabaseObject :=
  match args with
  | None => (-1, self)
  | Some path =>
      match fs path with
      | None => (-1, self)
      | Some data =>
          let '(r, d) :=
            Database.loc_database_new mmap_errno (db self) (fopen data) in
          if negb (r =? 0) then (-1, mk d) else (0, mk d)
      end
  end.

(** [Database_dealloc(self)]: the calls made to release the database. *)
Definition Database_dealloc (self : DatabaseObject) : list release :=
  match db self with
  | Some d => snd (loc_database_unref d)
  | None => []
  end.

(** What a [PyObject*] returned by a method of the binding is: [NULL],
    which has the interpreter raise, [None], or the object made by the call
    [new_as(&ASType, as)]. *)
Inductive PyObject_ptr :=
| PyNULL
| Py_None
| new_as (as_ : As.loc_as).

(** [Database_get_as(self, args)].  [args] is the Python integer when the
    arguments are one integer, and [None] otherwise.  The format [i] of
    [PyArg_ParseTuple] takes the integers a C [int] holds and turns down
    the others; what it stores is read back as the [uint32_t number].
    [fuel] bounds the rounds of the search. *)
Definition Database_get_as (fuel : nat) (self : DatabaseObject)
    (args : option Z) : option (mem PyObject_ptr) :=
  match args with
  | None => Some (Val PyNULL)
  | Some n =>
      if negb ((- 2 ^ 31 <=? n) && (n <? 2 ^ 31)) then Some (Val PyNULL)
      else
        let number := to_uint32 n in
        match db self with
        | None => Some Fault
        | Some d =>
            match Database.loc_database_get_as fuel d As.Null number with
            | None => None
            | Some Fault => Some Fault
            | Some (Val (r, as_)) =>
                if negb (r =? 0) then Some (Val PyNULL)
                else
                  match as_ with
                  | As.Null => Some (Val Py_None)
                  | As.Live a => Some (Val (new_as a))
                  | As.Released _ => Some Fault
                  end
            end
        end
  end.

End Python.

(** *** The Lua binding *)

Module Lua.

(** [struct database]: the field [db]. *)
Record Database := mk { db : option Database.loc_database }.

(** A C function called from Lua raises an error or returns a number of
    results. *)
Inductive outcome :=
| Raise
| Return (nresults : Z).

(** [Database_open(L)]: the outcome and the userdata, if it was created.
    [arg] is the path when the first argument is a string, and [None] when
    [luaL_checkstring] raises.  [uninit] is what the block handed out by
    [lua_newuserdata] holds, which the function does not initialise. *)
Definition Database_open (mmap_errno : mmap_oracle) (fs : filesystem)
    (uninit : Database) (arg : option String.string)
  : outcome * option Database :=
  match arg with
  | None => (Raise, None)
  | Some path =>
      let self := uninit in
      match fs path with
      | None => (Raise, Some self)
      | Some data =>
          let '(r, d) :=
            Database.loc_database_new mmap_errno (db self) (fopen data) in
          if negb (r =? 0) then (Raise, Some (mk d))
          else (Return 1, Some (mk d))
      end
  end.

(** [Database_gc(L)]: the userdata afterwards and the calls made to release
    the database. *)
Definition Database_gc (self : Database) : Database * list release :=
  match db self with
  | Some d => (mk None, snd (loc_database_unref d))
  | None => (self, [])
  end.

End Lua.

(* ================================================================= *)
(** * Vocabulary of the statements *)

(** ** Addresses *)

Definition bytes (l : list Z) : Prop := Forall (fun b => 0 <= b < 256) l.

(** The address read as one unsigned integer, [s6_addr\[0\]] being the most
    significant byte. *)
Definition in6_addr_value (a : in6_addr) : Z := be_decode a.

(** Byte-wise lexicographic comparison, and the byte-wise combination of
    two addresses. *)
Fixpoint bytes_cmp (l1 l2 : list Z) : Z :=
  match l1, l2 with
  | a :: l1', b :: l2' =>
      if a >? b then 1 else if a <? b then -1 else bytes_cmp l1' l2'
  | _, _ => 0
  end.

Fixpoint bytewise (f : Z -> Z -> Z) (l1 l2 : list Z) : list Z :=
  match l1, l2 with
  | a :: l1', b :: l2' => f a b :: bytewise f l1' l2'
  | _, _ => []
  end.

Definition cmp_sign (c : comparison) : Z :=
  match c with
  | Eq => 0
  | Lt => -1
  | Gt => 1
  end.

(** The integers [0 .. n-1]. *)
Definition z_range (n : nat) : list Z := map Z.of_nat (seq 0 n).

(** Every bit of [mask] is what the mask of prefix length [p] should have
    there. *)
Definition bitmask_bits_ok (p : Z) (mask : in6_addr) : bool :=
  forallb (fun i => in6_addr_get_bit mask i =? (if i <? p then 1 else 0))
          (z_range 128).

(** ** Database files *)

(** A file starts with the magic string. *)
Definition has_magic (data : list Z) : Prop :=
  firstn (length Format.LOC_DATABASE_MAGIC) data = Format.LOC_DATABASE_MAGIC.

(** The size of the magic structure, and the offset at which the version-0
    header ends. *)
Definition magic_size : nat := Z.to_nat Format.sizeof_magic.
Definition header_end : nat :=
  Z.to_nat (Format.sizeof_magic + Format.sizeof_header_v0).

(** The magic structure and the header at the start of a file, and the
    fields [loc_database_new] decodes from them. *)
Definition magic_of (data : list Z) : list Z := firstn 9 data.
Definition version_of (data : list Z) : Z :=
  ntohs (Format.magic_version (magic_of data)).
Definition header_of (data : list Z) : list Z := firstn 32 (skipn 9 data).

Definition pool_offset_of (data : list Z) : Z :=
  ntohl (Format.header_pool_offset (header_of data)).
Definition pool_length_of (data : list Z) : Z :=
  ntohl (Format.header_pool_length (header_of data)).
Definition as_offset_of (data : list Z) : Z :=
  ntohl (Format.header_as_offset (header_of data)).
Definition as_length_of (data : list Z) : Z :=
  ntohl (Format.header_as_length (header_of data)).

(** The stream once magic and header have been read. *)
Definition after_header (data : list Z) : FILE := mkFILE data 41.

(** The [errno] of the [mmap] call for a section, if the call is made and
    fails. *)
Definition section_errno (mmap_errno : mmap_oracle) (f : FILE)
    (offset length : Z) : option positive :=
  if length >? 0 then mmap_errno length f offset else None.

(** The pointer a section of the file is mapped at; [NULL] for an empty
    section, which is not mapped. *)
Definition section_ptr (data : list Z) (offset length : Z) : map_ptr :=
  if length >? 0 then Mapped (mkMapping data offset length) else NULL.

(** The database a version-0 file opens as, when both sections map. *)
Definition opened_db (data : list Z) : Database.loc_database :=
  let header := header_of data in
  Database.mk 1 (after_header data) 0
    (to_off_t (be64toh (Format.header_created_at header)))
    (ntohl (Format.header_vendor header))
    (ntohl (Format.header_description header))
    (section_ptr data (as_offset_of data) (as_length_of data))
    (as_length_of data / Format.sizeof_as_v0)
    (Some (Stringpool.mk
             (section_ptr data (pool_offset_of data) (pool_length_of data))
             (pool_length_of data))).



(** The records of the AS section, in table order, each as read from the
    mapping. *)
Definition as_table (db : Database.loc_database) : list (mem (Z * Z)) :=
  map (fun i => As.read_as_v0 (Database.as_v0 db) (Z.of_nat i))
      (seq 0 (Z.to_nat (Database.as_count db))).

(** Record [i] of a decoded table. *)
Definition as_record (recs : list (Z * Z)) (i : Z) : Z * Z :=
  nth (Z.to_nat i) recs (0, 0).

(* ================================================================= *)
(** * Sample data *)

Definition addr_lo : in6_addr :=
  [0x20; 0x01; 0x0d; 0xb8; 0; 0; 0; 0; 0; 0; 0; 0; 0; 0; 0; 1].
Definition addr_hi : in6_addr :=
  [0x20; 0x01; 0x0d; 0xb8; 0; 0; 0; 0; 0; 0; 0; 0; 0; 0; 1; 0].
Definition addr_doc : in6_addr :=
  [0x20; 0x01; 0x0d; 0xb8; 0x12; 0x34; 0; 0; 0; 0; 0; 0; 0; 0; 0; 1].

Definition be32 (x : Z) : list Z :=
  [x / 2 ^ 24 mod 256; x / 2 ^ 16 mod 256; x / 2 ^ 8 mod 256; x mod 256].

(** Magic, version and a version-0 header declaring the two sections. *)
Definition sample_head (version pool_off pool_len as_off as_len : Z)
  : list Z :=
  Format.LOC_DATABASE_MAGIC ++ [0; version]
  ++ be32 1 ++ be32 6 ++ [0; 0; 0; 0; 0x5a; 0x2b; 0x3c; 0x4d]
  ++ be32 pool_off ++ be32 pool_len ++ be32 as_off ++ be32 as_len.

(** A pool of sixteen bytes: the empty string at offset 0, then the
    strings Test, L, AS1 and AS2 at offsets 1, 6, 8 and 12. *)
Definition sample_pool : list Z :=
  [0; 84; 101; 115; 116; 0; 76; 0; 65; 83; 49; 0; 65; 83; 50; 0].

(** AS65001 and AS65002, followed by half a record. *)
Definition sample_as : list Z :=
  be32 65001 ++ be32 8 ++ be32 65002 ++ be32 12 ++ [0; 0; 0; 1].

Definition sample_records : list (Z * Z) := [(65001, 8); (65002, 12)].

(** A database with the pool in the second page and the AS section in the
    third. *)
Definition sample_db (version : Z) : list Z :=
  sample_head version 4096 16 8192 20
  ++ repeat 0 4055 ++ sample_pool ++ repeat 0 4080 ++ sample_as.


(** The AS section is declared past the end of the file. *)
Definition out_of_bounds_db : list Z :=
  sample_head 0 4096 16 8192 4096 ++ repeat 0 4055 ++ sample_pool.

(** A database whose AS section holds the records given, behind the sample
    pool. *)
Definition sample_db_with (records : list Z) : list Z :=
  sample_head 0 4096 16 8192 (Z.of_nat (length records))
  ++ repeat 0 4055 ++ sample_pool ++ repeat 0 4080 ++ records.

(** AS65002 before AS65001: the table is not in ascending order. *)
Definition unsorted_as : list Z :=
  be32 65002 ++ be32 12 ++ be32 65001 ++ be32 8 ++ be32 65003 ++ be32 1.

Definition unsorted_records : list (Z * Z) :=
  [(65002, 12); (65001, 8); (65003, 1)].

(** AS65001 twice, under two names. *)
Definition repeated_as : list Z :=
  be32 65001 ++ be32 8 ++ be32 65001 ++ be32 12 ++ be32 65002 ++ be32 1.

Definition repeated_records : list (Z * Z) :=
  [(65001, 8); (65001, 12); (65002, 1)].

(** AS4200000001, a number past [2 ^ 31], after AS65001. *)
Definition wide_as : list Z :=
  be32 65001 ++ be32 8 ++ be32 4200000001 ++ be32 12.

Definition wide_records : list (Z * Z) := [(65001, 8); (4200000001, 12)].

(* ================================================================= *)
(** * Tactics *)

(** The sizes of the file format, as numbers. *)
Ltac format_sizes :=
  unfold has_magic in *;
  change (length Format.LOC_DATABASE_MAGIC) with 7%nat in *;
  change magic_size with 9%nat in *;
  change header_end with 41%nat in *.

(** A list of sixteen elements, spelled out. *)
Ltac sixteen a H :=
  do 16 (destruct a as [|? a]; [discriminate H|]);
  destruct a; [clear H | discriminate H].

(** The range of every byte of a list spelled out. *)
Ltac bytes_inv :=
  unfold bytes in *;
  repeat match goal with
         | H : Forall _ (_ :: _) |- _ =>
             apply Forall_cons_iff in H;
             let Hb := fresh "Hb" in destruct H as [Hb H]
         | H : Forall _ [] |- _ => clear H
         end.

(* ================================================================= *)
(** * Properties of the address primitives *)

(** ** Comparison *)

Lemma byte_ok_iff b : byte_ok b = true <-> 0 <= b < 256.
Proof. unfold byte_ok. rewrite andb_true_iff. lia. Qed.

Lemma in6_addr_wf_length a : in6_addr_wf a = true -> length a = 16%nat.
Proof.
  unfold in6_addr_wf. rewrite andb_true_iff, Nat.eqb_eq. tauto.
Qed.

Lemma in6_addr_wf_bytes a : in6_addr_wf a = true -> bytes a.
Proof.
  unfold in6_addr_wf, bytes. rewrite andb_true_iff, forallb_forall, Forall_forall.
  intros [_ H] b Hb. apply byte_ok_iff, H, Hb.
Qed.

Lemma in6_addr_wf_intro a :
  length a = 16%nat -> bytes a -> in6_addr_wf a = true.
Proof.
  intros Hl Hb. unfold in6_addr_wf. rewrite andb_true_iff, Nat.eqb_eq.
  split; [exact Hl|]. rewrite forallb_forall. intros b Hin.
  apply byte_ok_iff. unfold bytes in Hb. rewrite Forall_forall in Hb. auto.
Qed.

Lemma in6_addr_cmp_bytes_cmp a1 a2 :
  length a1 = 16%nat -> length a2 = 16%nat ->
  in6_addr_cmp a1 a2 = bytes_cmp a1 a2.
Proof.
  intros H1 H2. sixteen a1 H1. sixteen a2 H2. reflexivity.
Qed.

Lemma be_decode_acc l : forall acc,
  fold_left (fun acc b => acc * 256 + b) l acc
  = acc * 256 ^ Z.of_nat (length l) + be_decode l.
Proof.
  unfold be_decode. induction l as [|b l IH]; intros acc.
  - simpl. lia.
  - cbn [fold_left length]. rewrite IH, (IH (0 * 256 + b)).
    rewrite Nat2Z.inj_succ, Z.pow_succ_r by lia. ring.
Qed.

Lemma be_decode_cons b l :
  be_decode (b :: l) = b * 256 ^ Z.of_nat (length l) + be_decode l.
Proof.
  unfold be_decode at 1. cbn [fold_left]. rewrite be_decode_acc. ring.
Qed.

Lemma be_decode_range l :
  bytes l -> 0 <= be_decode l < 256 ^ Z.of_nat (length l).
Proof.
  induction 1 as [|b l Hb Hl IH].
  - unfold be_decode. simpl. lia.
  - rewrite be_decode_cons. cbn [length].
    rewrite Nat2Z.inj_succ, Z.pow_succ_r by lia.
    set (P := 256 ^ Z.of_nat (length l)) in *. nia.
Qed.

Lemma bytes_cmp_compare l1 : forall l2,
  length l1 = length l2 -> bytes l1 -> bytes l2 ->
  bytes_cmp l1 l2 = cmp_sign (be_decode l1 ?= be_decode l2).
Proof.
  induction l1 as [|a l1 IH]; intros [|b l2] Hlen H1 H2;
    try discriminate Hlen.
  - reflexivity.
  - inversion H1 as [|? ? Ha Hl1]; inversion H2 as [|? ? Hb Hl2]; subst.
    injection Hlen as Hlen.
    cbn [bytes_cmp]. rewrite !be_decode_cons, <- Hlen.
    pose proof (be_decode_range l1 Hl1) as R1.
    pose proof (be_decode_range l2 Hl2) as R2. rewrite <- Hlen in R2.
    set (P := 256 ^ Z.of_nat (length l1)) in *.
    destruct (Z.gtb_spec a b) as [Hgt|Hle].
    + assert (0 <= (a - b - 1) * P) by (apply Z.mul_nonneg_nonneg; lia).
      rewrite (proj2 (Z.compare_gt_iff _ _)) by lia. reflexivity.
    + destruct (Z.ltb_spec a b) as [Hlt|Hge].
      * assert (0 <= (b - a - 1) * P) by (apply Z.mul_nonneg_nonneg; lia).
        rewrite (proj2 (Z.compare_lt_iff _ _)) by lia. reflexivity.
      * assert (a = b) by lia. subst b. rewrite (IH l2 Hlen Hl1 Hl2).
        f_equal. symmetry. apply Z.add_compare_mono_l.
Qed.

Lemma be_decode_inj l1 : forall l2,
  length l1 = length l2 -> bytes l1 -> bytes l2 ->
  be_decode l1 = be_decode l2 -> l1 = l2.
Proof.
  induction l1 as [|a l1 IH]; intros [|b l2] Hlen H1 H2 Heq;
    try discriminate Hlen.
  - reflexivity.
  - inversion H1 as [|? ? Ha Hl1]; inversion H2 as [|? ? Hb Hl2]; subst.
    injection Hlen as Hlen. rewrite !be_decode_cons, <- Hlen in Heq.
    pose proof (be_decode_range l1 Hl1) as R1.
    pose proof (be_decode_range l2 Hl2) as R2. rewrite <- Hlen in R2.
    set (P := 256 ^ Z.of_nat (length l1)) in *.
    assert (a = b) by nia. subst b.
    f_equal. apply IH; auto. lia.
Qed.

(** C5: for all 128-bit addresses A and B, [in6_addr_cmp A B] is -1, 0 or
    1; it is 0 exactly when A and B are equal byte for byte, 1 exactly when
    A is greater than B as a big-endian unsigned integer, and -1 exactly
    when A is less than B; hence [cmp A B = - cmp B A]. *)
Theorem in6_addr_cmp_total_order (A B : in6_addr)
    (HA : in6_addr_wf A = true) (HB : in6_addr_wf B = true) :
  (in6_addr_cmp A B = -1 \/ in6_addr_cmp A B = 0 \/ in6_addr_cmp A B = 1)
  /\ (in6_addr_cmp A B = 0 <-> A = B)
  /\ (in6_addr_cmp A B = 1 <-> in6_addr_value A > in6_addr_value B)
  /\ (in6_addr_cmp A B = -1 <-> in6_addr_value A < in6_addr_value B)
  /\ in6_addr_cmp A B = - in6_addr_cmp B A.
Proof.
  pose proof (in6_addr_wf_length A HA) as LA.
  pose proof (in6_addr_wf_length B HB) as LB.
  pose proof (in6_addr_wf_bytes A HA) as BA.
  pose proof (in6_addr_wf_bytes B HB) as BB.
  assert (Hlen : length A = length B) by congruence.
  rewrite (in6_addr_cmp_bytes_cmp A B LA LB), (in6_addr_cmp_bytes_cmp B A LB LA).
  rewrite (bytes_cmp_compare A B Hlen BA BB).
  rewrite (bytes_cmp_compare B A (eq_sym Hlen) BB BA).
  unfold in6_addr_value.
  rewrite (Z.compare_antisym (be_decode A) (be_decode B)).
  pose proof (be_decode_inj A B Hlen BA BB) as Hinj.
  destruct (Z.compare_spec (be_decode A) (be_decode B)) as [He|Hl|Hg];
    cbn [cmp_sign CompOpp]; repeat split; intros; subst;
    try lia; try discriminate; auto.
Qed.

Lemma in6_addr_cmp_total_order_witness :
  in6_addr_cmp addr_lo addr_hi = -1
  /\ in6_addr_value addr_lo < in6_addr_value addr_hi.
Proof.
  pose proof (in6_addr_cmp_total_order addr_lo addr_hi eq_refl eq_refl)
    as (_ & _ & _ & H & _).
  split; [reflexivity|]. apply H. reflexivity.
Defined.

(* ----------------------------------------------------------------- *)
(** ** The prefix mask *)

Lemma z_range_In (n : nat) (x : Z) :
  0 <= x < Z.of_nat n -> In x (z_range n).
Proof.
  intros H. unfold z_range. apply in_map_iff. exists (Z.to_nat x).
  split; [lia|]. apply in_seq. lia.
Qed.

Lemma z_range_forallb (n : nat) (P : Z -> bool) :
  forallb P (z_range n) = true ->
  forall x, 0 <= x < Z.of_nat n -> P x = true.
Proof.
  intros H x Hx. rewrite forallb_forall in H. apply H, z_range_In, Hx.
Qed.

(** By running the function on every prefix length up to 128. *)
Lemma bitmask_bits_checked :
  forallb (fun p => bitmask_bits_ok p (loc_prefix_to_bitmask p)) (z_range 129)
  = true.
Proof. vm_compute. reflexivity. Qed.

Lemma bitmask_wf_checked :
  forallb (fun p => in6_addr_wf (loc_prefix_to_bitmask p)) (z_range 129)
  = true.
Proof. vm_compute. reflexivity. Qed.

Lemma loc_prefix_to_bitmask_wf p :
  0 <= p <= 128 -> in6_addr_wf (loc_prefix_to_bitmask p) = true.
Proof.
  intros Hp.
  apply (z_range_forallb 129 (fun p => in6_addr_wf (loc_prefix_to_bitmask p))
           bitmask_wf_checked).
  lia.
Qed.

Lemma loc_prefix_to_bitmask_bit p i :
  0 <= p <= 128 -> 0 <= i < 128 ->
  in6_addr_get_bit (loc_prefix_to_bitmask p) i = if i <? p then 1 else 0.
Proof.
  intros Hp Hi.
  pose proof (z_range_forallb 129 _ bitmask_bits_checked p ltac:(lia)) as H.
  cbv beta in H. unfold bitmask_bits_ok in H.
  pose proof (z_range_forallb 128 _ H i ltac:(lia)) as H'.
  cbv beta in H'. apply Z.eqb_eq in H'. exact H'.
Qed.

(** The first loop leaves sixteen zero bytes, whatever the sixteen bytes
    of the local were. *)
Lemma bitmask_zero_loop_any_stack (stack : in6_addr) :
  length stack = 16%nat -> bitmask_zero_loop 16 0 stack = repeat 0 16.
Proof. intros H. sixteen stack H. reflexivity. Qed.

(** So the mask does not depend on what the local held. *)
Lemma loc_prefix_to_bitmask_any_stack (stack : in6_addr) (p : Z) :
  length stack = 16%nat ->
  loc_prefix_to_bitmask_from stack p = loc_prefix_to_bitmask p.
Proof.
  intros H. unfold loc_prefix_to_bitmask, loc_prefix_to_bitmask_from.
  rewrite (bitmask_zero_loop_any_stack stack H).
  rewrite (bitmask_zero_loop_any_stack in6_addr_uninit eq_refl).
  reflexivity.
Qed.

(** C6: for every prefix length [p] with [0 <= p <= 128], and whatever the
    sixteen bytes of the uninitialised local [bitmask] are when the function
    is entered, bit [i] of the mask [loc_prefix_to_bitmask] returns, counted
    from the most significant bit, is 1 for every [i < p] and 0 for every
    [i >= p]; [p = 0] gives the all-zero mask and [p = 128] the all-ones
    mask.  The mask is the same from any content of the local. *)
Theorem loc_prefix_to_bitmask_spec (stack : in6_addr) (p : Z)
    (Hstack : length stack = 16%nat) (Hp : 0 <= p <= 128) :
  let mask := loc_prefix_to_bitmask_from stack p in
  in6_addr_wf mask = true
  /\ (forall i, 0 <= i < p -> in6_addr_get_bit mask i = 1)
  /\ (forall i, p <= i < 128 -> in6_addr_get_bit mask i = 0)
  /\ loc_prefix_to_bitmask_from stack 0 = repeat 0 16
  /\ loc_prefix_to_bitmask_from stack 128 = repeat 0xff 16
  /\ mask = loc_prefix_to_bitmask p.
Proof.
  cbv zeta. rewrite !(loc_prefix_to_bitmask_any_stack stack) by exact Hstack.
  split; [apply loc_prefix_to_bitmask_wf, Hp|].
  split; [|split; [|repeat split; reflexivity]].
  - intros i Hi. rewrite loc_prefix_to_bitmask_bit by lia.
    destruct (Z.ltb_spec i p); [reflexivity|lia].
  - intros i Hi. rewrite loc_prefix_to_bitmask_bit by lia.
    destruct (Z.ltb_spec i p); [lia|reflexivity].
Qed.

Lemma loc_prefix_to_bitmask_spec_witness :
  in6_addr_get_bit (loc_prefix_to_bitmask_from (repeat 0xff 16) 13) 12 = 1
  /\ in6_addr_get_bit (loc_prefix_to_bitmask_from (repeat 0xff 16) 13) 13 = 0.
Proof.
  pose proof (loc_prefix_to_bitmask_spec (repeat 0xff 16) 13 eq_refl
                ltac:(lia)) as (_ & H1 & H0 & _).
  split; [apply H1; lia | apply H0; lia].
Defined.

(* ----------------------------------------------------------------- *)
(** ** Masking an address *)

(** The four stores of either loop overwrite all sixteen bytes of the
    local [a]: the result is the same whatever it held. *)
Lemma loc_address_and_any_stack e (address bitmask stack : in6_addr) :
  length stack = 16%nat ->
  address_and_loop 4 0 e address bitmask stack
  = loc_address_and e address bitmask.
Proof. intros H. sixteen stack H. reflexivity. Qed.

Lemma loc_address_or_any_stack e (address bitmask stack : in6_addr) :
  length stack = 16%nat ->
  address_or_loop 4 0 e address bitmask stack
  = loc_address_or e address bitmask.
Proof. intros H. sixteen stack H. reflexivity. Qed.

Lemma byte_of_word_of_bytes e b0 b1 b2 b3 :
  0 <= b0 < 256 -> 0 <= b1 < 256 -> 0 <= b2 < 256 -> 0 <= b3 < 256 ->
  byte_of_word e (word_of_bytes e b0 b1 b2 b3) 0 = b0
  /\ byte_of_word e (word_of_bytes e b0 b1 b2 b3) 1 = b1
  /\ byte_of_word e (word_of_bytes e b0 b1 b2 b3) 2 = b2
  /\ byte_of_word e (word_of_bytes e b0 b1 b2 b3) 3 = b3.
Proof.
  intros H0 H1 H2 H3. unfold byte_of_word, word_of_bytes.
  change 0xff with (Z.ones 8).
  destruct e; rewrite !Z.land_ones, !Z.shiftr_div_pow2 by lia;
    repeat match goal with
           | |- context [2 ^ ?n] =>
               let v := eval cbv in (2 ^ n) in change (2 ^ n) with v
           end;
    repeat split; Z.to_euclidean_division_equations; lia.
Qed.

Lemma land_low_byte x y :
  Z.land (Z.land x y) 0xff = Z.land (Z.land x 0xff) (Z.land y 0xff).
Proof.
  apply Z.bits_inj'. intros n Hn. rewrite !Z.land_spec.
  destruct (Z.testbit x n), (Z.testbit y n), (Z.testbit 0xff n); reflexivity.
Qed.

Lemma lor_low_byte x y :
  Z.land (Z.lor x y) 0xff = Z.lor (Z.land x 0xff) (Z.land y 0xff).
Proof. apply Z.land_lor_distr_l. Qed.

Lemma lxor_low_byte x y :
  Z.land (Z.lxor x y) 0xff = Z.lxor (Z.land x 0xff) (Z.land y 0xff).
Proof.
  apply Z.bits_inj'. intros n Hn. rewrite !Z.lxor_spec, !Z.land_spec, !Z.lxor_spec.
  destruct (Z.testbit x n), (Z.testbit y n), (Z.testbit 0xff n); reflexivity.
Qed.

Lemma byte_of_word_land e w1 w2 k :
  byte_of_word e (Z.land w1 w2) k
  = Z.land (byte_of_word e w1 k) (byte_of_word e w2 k).
Proof.
  unfold byte_of_word. destruct e; rewrite Z.shiftr_land; apply land_low_byte.
Qed.

Lemma byte_of_word_lor e w1 w2 k :
  byte_of_word e (Z.lor w1 w2) k
  = Z.lor (byte_of_word e w1 k) (byte_of_word e w2 k).
Proof.
  unfold byte_of_word. destruct e; rewrite Z.shiftr_lor; apply lor_low_byte.
Qed.

Lemma byte_of_word_not e w k :
  0 <= k <= 3 ->
  byte_of_word e (uint32_not w) k = Z.lxor (byte_of_word e w k) 0xff.
Proof.
  intros Hk. unfold byte_of_word, uint32_not.
  assert (K : k = 0 \/ k = 1 \/ k = 2 \/ k = 3) by lia.
  destruct e; rewrite Z.shiftr_lxor, lxor_low_byte;
    destruct K as [-> | [-> | [-> | ->]]]; reflexivity.
Qed.

Lemma loc_address_and_bytewise e A M :
  in6_addr_wf A = true -> in6_addr_wf M = true ->
  loc_address_and e A M = bytewise Z.land A M.
Proof.
  intros HA HM.
  pose proof (in6_addr_wf_length A HA) as LA.
  pose proof (in6_addr_wf_length M HM) as LM.
  pose proof (in6_addr_wf_bytes A HA) as BA.
  pose proof (in6_addr_wf_bytes M HM) as BM.
  clear HA HM. sixteen A LA. sixteen M LM. bytes_inv.
  cbv - [byte_of_word word_of_bytes Z.land].
  rewrite !byte_of_word_land.
  repeat match goal with
  | |- context [byte_of_word e (word_of_bytes e ?b0 ?b1 ?b2 ?b3) _] =>
      let H0 := fresh in
      let H1 := fresh in
      let H2 := fresh in
      let H3 := fresh in
      destruct (byte_of_word_of_bytes e b0 b1 b2 b3) as (H0 & H1 & H2 & H3);
      [assumption .. |];
      rewrite ?H0, ?H1, ?H2, ?H3; clear H0 H1 H2 H3
  end.
  reflexivity.
Qed.

Lemma loc_address_or_bytewise e A M :
  in6_addr_wf A = true -> in6_addr_wf M = true ->
  loc_address_or e A M = bytewise (fun a m => Z.lor a (Z.lxor m 0xff)) A M.
Proof.
  intros HA HM.
  pose proof (in6_addr_wf_length A HA) as LA.
  pose proof (in6_addr_wf_length M HM) as LM.
  pose proof (in6_addr_wf_bytes A HA) as BA.
  pose proof (in6_addr_wf_bytes M HM) as BM.
  clear HA HM. sixteen A LA. sixteen M LM. bytes_inv.
  cbv - [byte_of_word word_of_bytes Z.lor Z.lxor uint32_not].
  rewrite !byte_of_word_lor, !byte_of_word_not by lia.
  repeat match goal with
  | |- context [byte_of_word e (word_of_bytes e ?b0 ?b1 ?b2 ?b3) _] =>
      let H0 := fresh in
      let H1 := fresh in
      let H2 := fresh in
      let H3 := fresh in
      destruct (byte_of_word_of_bytes e b0 b1 b2 b3) as (H0 & H1 & H2 & H3);
      [assumption .. |];
      rewrite ?H0, ?H1, ?H2, ?H3; clear H0 H1 H2 H3
  end.
  reflexivity.
Qed.

Lemma bytewise_length f l1 : forall l2,
  length l1 = length l2 -> length (bytewise f l1 l2) = length l1.
Proof.
  induction l1 as [|a l1 IH]; intros [|b l2] H; try discriminate H.
  - reflexivity.
  - cbn [bytewise length]. f_equal. apply IH. injection H as H. exact H.
Qed.

Lemma nth_bytewise f l1 : forall l2 n,
  length l1 = length l2 -> (n < length l1)%nat ->
  nth n (bytewise f l1 l2) 0 = f (nth n l1 0) (nth n l2 0).
Proof.
  induction l1 as [|a l1 IH]; intros [|b l2] n H Hn; try discriminate H.
  - cbn [length] in Hn. lia.
  - destruct n as [|n]; [reflexivity|].
    cbn [bytewise nth]. apply IH; [now injection H | cbn [length] in Hn; lia].
Qed.

Lemma s6_addr_bytewise f A M j :
  length A = 16%nat -> length M = 16%nat -> 0 <= j < 16 ->
  s6_addr (bytewise f A M) j = f (s6_addr A j) (s6_addr M j).
Proof.
  intros LA LM Hj. unfold s6_addr.
  destruct (Z.ltb_spec j 0); [lia|].
  apply nth_bytewise; [congruence | lia].
Qed.

Lemma s6_addr_range A j :
  bytes A -> 0 <= s6_addr A j < 256.
Proof.
  intros HA. unfold s6_addr. destruct (Z.ltb_spec j 0); [lia|].
  destruct (Nat.lt_ge_cases (Z.to_nat j) (length A)) as [Hlt|Hge].
  - unfold bytes in HA. rewrite Forall_forall in HA. apply HA, nth_In, Hlt.
  - rewrite nth_overflow by exact Hge. lia.
Qed.

Lemma in6_addr_get_bit_testbit a i :
  0 <= i ->
  in6_addr_get_bit a i
  = Z.b2z (Z.testbit (s6_addr a (i / 8)) (7 - i mod 8)).
Proof.
  intros Hi. unfold in6_addr_get_bit.
  assert (0 <= 7 - i mod 8) by (pose proof (Z.mod_pos_bound i 8); lia).
  change (Z.land (Z.shiftr (s6_addr a (i / 8)) (7 - i mod 8)) 1)
    with (Z.land (Z.shiftr (s6_addr a (i / 8)) (7 - i mod 8)) (Z.ones 1)).
  rewrite Z.land_ones by lia. change (2 ^ 1) with 2.
  rewrite <- Z.bit0_mod, Z.shiftr_spec by lia. reflexivity.
Qed.

Lemma testbit_low_byte s : 0 <= s < 8 -> Z.testbit 0xff s = true.
Proof.
  intros Hs. change 0xff with (Z.ones 8). apply Z.ones_spec_low. lia.
Qed.

Lemma land_le_l a m : 0 <= a -> Z.land a m <= a.
Proof.
  intros Ha. pose proof (Z.sub_land_same_l a m) as H.
  assert (0 <= Z.land a (Z.lnot m)) by (apply Z.land_nonneg; left; exact Ha).
  lia.
Qed.

Lemma lor_ge_l a x : 0 <= x -> a <= Z.lor a x.
Proof.
  intros Hx. pose proof (Z.add_lor_land a x) as H.
  pose proof (land_le_l x a Hx) as H'. rewrite Z.land_comm in H'. lia.
Qed.

Lemma bytes_cmp_pointwise_le l1 l2 :
  Forall2 Z.le l1 l2 -> bytes_cmp l1 l2 <= 0.
Proof.
  induction 1 as [|a b l1 l2 Hab Hl IH]; cbn [bytes_cmp]; [lia|].
  destruct (Z.gtb_spec a b); [lia|].
  destruct (Z.ltb_spec a b); [lia | exact IH].
Qed.

Lemma bytewise_land_le A : forall M,
  bytes A -> length A = length M -> Forall2 Z.le (bytewise Z.land A M) A.
Proof.
  induction A as [|a A IH]; intros [|m M] HA Hlen; try discriminate Hlen.
  - constructor.
  - apply Forall_cons_iff in HA. destruct HA as [Ha HA].
    cbn [bytewise]. constructor; [apply land_le_l; lia|].
    apply IH; [exact HA | now injection Hlen].
Qed.

Lemma bytewise_lor_ge A : forall M,
  bytes M -> length A = length M ->
  Forall2 Z.le A (bytewise (fun a m => Z.lor a (Z.lxor m 0xff)) A M).
Proof.
  induction A as [|a A IH]; intros [|m M] HM Hlen; try discriminate Hlen.
  - constructor.
  - apply Forall_cons_iff in HM. destruct HM as [Hm HM].
    cbn [bytewise]. constructor.
    + apply lor_ge_l. apply Z.lxor_nonneg. lia.
    + apply IH; [exact HM | now injection Hlen].
Qed.

Lemma lor_byte a b : 0 <= a < 256 -> 0 <= b < 256 -> 0 <= Z.lor a b < 256.
Proof.
  intros Ha Hb.
  assert (H0 : 0 <= Z.lor a b) by (apply Z.lor_nonneg; lia).
  split; [exact H0|].
  destruct (Z.eq_dec (Z.lor a b) 0) as [->|Hz]; [lia|].
  change 256 with (2 ^ 8). apply Z.log2_lt_pow2; [lia|].
  rewrite Z.log2_lor by lia.
  destruct (Z.eq_dec a 0) as [->|Ha0], (Z.eq_dec b 0) as [->|Hb0];
    cbn [Z.log2]; try lia.
  - apply Z.max_lub_lt; [lia|]. apply Z.log2_lt_pow2; lia.
  - apply Z.max_lub_lt; [|lia]. apply Z.log2_lt_pow2; lia.
  - apply Z.max_lub_lt; apply Z.log2_lt_pow2; lia.
Qed.

Lemma lxor_byte a : 0 <= a < 256 -> 0 <= Z.lxor a 0xff < 256.
Proof.
  intros Ha.
  assert (H0 : 0 <= Z.lxor a 0xff) by (apply Z.lxor_nonneg; lia).
  split; [exact H0|].
  destruct (Z.eq_dec (Z.lxor a 0xff) 0) as [->|Hz]; [lia|].
  change 256 with (2 ^ 8). apply Z.log2_lt_pow2; [lia|].
  eapply Z.le_lt_trans; [apply Z.log2_lxor; lia|].
  destruct (Z.eq_dec a 0) as [->|Ha0]; [reflexivity|].
  apply Z.max_lub_lt; [apply Z.log2_lt_pow2; lia | reflexivity].
Qed.

Lemma bytewise_bytes f A : forall M,
  (forall a m, 0 <= a < 256 -> 0 <= m < 256 -> 0 <= f a m < 256) ->
  bytes A -> bytes M -> bytes (bytewise f A M).
Proof.
  unfold bytes. induction A as [|a A IH]; intros [|m M] Hf HA HM;
    cbn [bytewise]; try constructor.
  - apply Forall_cons_iff in HA. apply Forall_cons_iff in HM.
    apply Hf; tauto.
  - apply Forall_cons_iff in HA. apply Forall_cons_iff in HM.
    apply IH; tauto.
Qed.

(** C7: for every address [A] and prefix length [p <= 128], with
    [M = loc_prefix_to_bitmask p], the addresses
    [first = loc_address_and A M] and [last = loc_address_or A M] agree
    with [A] on the first [p] bits, every later bit of [first] is 0 and
    every later bit of [last] is 1, and [first <= A <= last] in the order
    of [in6_addr_cmp].  [e] is the byte order of the host, which the
    32-bit view [s6_addr32] depends on. *)
Theorem first_last_address (e : byte_order) (A : in6_addr) (p : Z)
    (HA : in6_addr_wf A = true) (Hp : 0 <= p <= 128) :
  let M := loc_prefix_to_bitmask p in
  let first := loc_address_and e A M in
  let last := loc_address_or e A M in
  in6_addr_wf first = true /\ in6_addr_wf last = true
  /\ (forall i, 0 <= i < p ->
     in6_addr_get_bit first i = in6_addr_get_bit A i
     /\ in6_addr_get_bit last i = in6_addr_get_bit A i)
  /\ (forall i, p <= i < 128 ->
        in6_addr_get_bit first i = 0 /\ in6_addr_get_bit last i = 1)
  /\ in6_addr_cmp first A <= 0
  /\ in6_addr_cmp A last <= 0.
Proof.
  intros M first last.
  pose proof (loc_prefix_to_bitmask_wf p Hp) as HM. fold M in HM.
  pose proof (in6_addr_wf_length A HA) as LA.
  pose proof (in6_addr_wf_length M HM) as LM.
  pose proof (in6_addr_wf_bytes A HA) as BA.
  pose proof (in6_addr_wf_bytes M HM) as BM.
  assert (Efirst : first = bytewise Z.land A M)
    by (apply loc_address_and_bytewise; assumption).
  assert (Elast : last = bytewise (fun a m => Z.lor a (Z.lxor m 0xff)) A M)
    by (apply loc_address_or_bytewise; assumption).
  assert (Hbits : forall i, 0 <= i < 128 ->
    in6_addr_get_bit first i
    = Z.b2z (Z.testbit (s6_addr A (i / 8)) (7 - i mod 8)
             && Z.testbit (s6_addr M (i / 8)) (7 - i mod 8))
    /\ in6_addr_get_bit last i
       = Z.b2z (Z.testbit (s6_addr A (i / 8)) (7 - i mod 8)
                || negb (Z.testbit (s6_addr M (i / 8)) (7 - i mod 8)))).
  { intros i Hi.
    assert (0 <= i / 8 < 16) by (Z.to_euclidean_division_equations; lia).
    assert (0 <= 7 - i mod 8 < 8) by (pose proof (Z.mod_pos_bound i 8); lia).
    rewrite !in6_addr_get_bit_testbit by lia.
    rewrite Efirst, Elast, !s6_addr_bytewise by assumption.
    rewrite Z.land_spec, Z.lor_spec, Z.lxor_spec, testbit_low_byte by lia.
    rewrite xorb_true_r. split; reflexivity. }
  assert (Hmask : forall i, 0 <= i < 128 ->
    Z.testbit (s6_addr M (i / 8)) (7 - i mod 8) = (i <? p)).
  { intros i Hi.
    pose proof (loc_prefix_to_bitmask_bit p i Hp Hi) as H. fold M in H.
    rewrite in6_addr_get_bit_testbit in H by lia.
    destruct (Z.testbit (s6_addr M (i / 8)) (7 - i mod 8)), (i <? p);
      cbn [Z.b2z] in H; congruence. }
  split; [|split; [|split; [|split; [|split]]]].
  - rewrite Efirst. apply in6_addr_wf_intro.
    + rewrite bytewise_length; congruence.
    + apply bytewise_bytes; [|exact BA | exact BM].
      intros a m Ha Hm. pose proof (land_le_l a m ltac:(lia)).
      assert (0 <= Z.land a m) by (apply Z.land_nonneg; lia). lia.
  - rewrite Elast. apply in6_addr_wf_intro.
    + rewrite bytewise_length; congruence.
    + apply bytewise_bytes; [|exact BA | exact BM].
      intros a m Ha Hm. apply lor_byte; [exact Ha | apply lxor_byte, Hm].
  - intros i Hi. destruct (Hbits i ltac:(lia)) as [H1 H2].
    rewrite H1, H2, Hmask, in6_addr_get_bit_testbit by lia.
    destruct (Z.ltb_spec i p); [|lia].
    rewrite andb_true_r, orb_false_r. split; reflexivity.
  - intros i Hi. destruct (Hbits i ltac:(lia)) as [H1 H2].
    rewrite H1, H2, Hmask by lia.
    destruct (Z.ltb_spec i p); [lia|].
    rewrite andb_false_r, orb_true_r. split; reflexivity.
  - rewrite in6_addr_cmp_bytes_cmp;
      [| rewrite Efirst, bytewise_length; congruence | exact LA].
    apply bytes_cmp_pointwise_le. rewrite Efirst.
    apply bytewise_land_le; [exact BA | congruence].
  - rewrite in6_addr_cmp_bytes_cmp;
      [| exact LA | rewrite Elast, bytewise_length; congruence].
    apply bytes_cmp_pointwise_le. rewrite Elast.
    apply bytewise_lor_ge; [exact BM | congruence].
Qed.

Lemma first_last_address_witness :
  in6_addr_cmp (loc_address_and LittleEndian addr_doc (loc_prefix_to_bitmask 32))
               addr_doc <= 0
  /\ in6_addr_cmp addr_doc
       (loc_address_or LittleEndian addr_doc (loc_prefix_to_bitmask 32)) <= 0.
Proof.
  pose proof (first_last_address LittleEndian addr_doc 32 eq_refl ltac:(lia))
    as (_ & _ & _ & _ & H1 & H2).
  split; [exact H1 | exact H2].
Defined.

(* ================================================================= *)
(** * Properties of the database reader *)

(** ** Integer conversions *)

Lemma to_off_t_small x : - 2 ^ 63 <= x < 2 ^ 63 -> to_off_t x = x.
Proof. intros H. unfold to_off_t. rewrite Z.mod_small; lia. Qed.

Lemma to_size_t_small x : 0 <= x < 2 ^ 64 -> to_size_t x = x.
Proof. intros H. unfold to_size_t. apply Z.mod_small. lia. Qed.

Lemma ntohl_range bs : 0 <= ntohl bs < 2 ^ 32.
Proof. unfold ntohl, to_uint32. apply Z.mod_pos_bound. lia. Qed.

(* ----------------------------------------------------------------- *)
(** ** Opening a file *)

Lemma fread_fopen n data :
  fread n (fopen data)
  = (firstn (Z.to_nat n) data, mkFILE data (length (firstn (Z.to_nat n) data))).
Proof. reflexivity. Qed.

Lemma memcmp_eq_true s1 s2 n :
  memcmp_eq s1 s2 n = true <-> firstn n s1 = firstn n s2.
Proof.
  unfold memcmp_eq. destruct (list_eq_dec Z.eq_dec _ _); split; congruence.
Qed.

Lemma magic_matches_iff data :
  memcmp_eq Format.LOC_DATABASE_MAGIC (Format.magic_magic (magic_of data))
    (length Format.LOC_DATABASE_MAGIC) = true
  <-> firstn 7 data = Format.LOC_DATABASE_MAGIC.
Proof.
  rewrite memcmp_eq_true. unfold Format.magic_magic, slice, magic_of.
  cbn [skipn]. change (length Format.LOC_DATABASE_MAGIC) with 7%nat.
  rewrite !firstn_firstn. cbn [Nat.min].
  change (firstn 7 Format.LOC_DATABASE_MAGIC) with Format.LOC_DATABASE_MAGIC.
  split; congruence.
Qed.

(** What [loc_database_read_magic] does on a freshly opened file. *)
Lemma read_magic_fopen data :
  Database.loc_database_read_magic (Database.loc_database_alloc (fopen data))
  = let db := Database.set_file (Database.loc_database_alloc (fopen data))
                (mkFILE data (length (magic_of data))) in
    if (length data <? 9)%nat then (- ENOMSG, db)
    else if list_eq_dec Z.eq_dec (firstn 7 data) Format.LOC_DATABASE_MAGIC
         then (0, Database.set_version db (version_of data))
         else (1, db).
Proof.
  unfold Database.loc_database_read_magic.
  cbn [Database.file Database.loc_database_alloc].
  rewrite fread_fopen. change (Z.to_nat Format.sizeof_magic) with 9%nat.
  fold (magic_of data). cbv zeta.
  assert (Hlen : length (magic_of data) = Nat.min 9 (length data))
    by apply length_firstn.
  destruct (Nat.ltb_spec (length data) 9) as [Hs|Hs].
  - destruct (Z.ltb_spec (Z.of_nat (length (magic_of data))) Format.sizeof_magic)
      as [_|H]; [reflexivity|].
    unfold Format.sizeof_magic in H. lia.
  - destruct (Z.ltb_spec (Z.of_nat (length (magic_of data))) Format.sizeof_magic)
      as [H|_]; [unfold Format.sizeof_magic in H; lia|].
    pose proof (magic_matches_iff data) as M.
    destruct (list_eq_dec Z.eq_dec (firstn 7 data) Format.LOC_DATABASE_MAGIC)
      as [E|E].
    + rewrite (proj2 M E). reflexivity.
    + destruct (memcmp_eq _ _ _) eqn:C; [|reflexivity].
      exfalso. apply E, M. reflexivity.
Qed.

Lemma neg_errno_nonzero e : (- Z.pos e =? 0) = false.
Proof. apply Z.eqb_neq. lia. Qed.

Lemma read_header_v0_complete oracle db data :
  Database.file db = mkFILE data 9 ->
  (41 <= length data)%nat ->
  Database.loc_database_read_header_v0 oracle db
  = let f := after_header data in
    let header := header_of data in
    let db1 := Database.set_meta (Database.set_file db f)
                 (to_off_t (be64toh (Format.header_created_at header)))
                 (ntohl (Format.header_vendor header))
                 (ntohl (Format.header_description header)) in
    let p := Stringpool.mk
               (section_ptr data (pool_offset_of data) (pool_length_of data))
               (pool_length_of data) in
    let db2 := Database.set_pool db1 (Some p) in
    match section_errno oracle f (as_offset_of data) (as_length_of data) with
    | Some e => (- Z.pos e, Database.set_as_v0 db2 MAP_FAILED)
    | None =>
        (0, Database.set_as_count
              (if as_length_of data >? 0
               then Database.set_as_v0 db2
                      (Mapped (mkMapping data (as_offset_of data)
                                 (as_length_of data)))
               else db2)
              (as_length_of data / Format.sizeof_as_v0))
    end.
Proof.
  intros Hf Hlen. unfold Database.loc_database_read_header_v0.
  rewrite Hf. unfold fread. cbn [file_pos file_data].
  change (Z.to_nat Format.sizeof_header_v0) with 32%nat.
  fold (header_of data).
  assert (Hh : length (header_of data) = 32%nat).
  { unfold header_of. rewrite length_firstn, length_skipn. lia. }
  rewrite Hh. change (9 + 32)%nat with 41%nat. fold (after_header data).
  change (Z.of_nat 32 <? Format.sizeof_header_v0) with false.
  cbv iota zeta.
  unfold Stringpool.loc_stringpool_new.
  change (negb (0 =? 0)) with false. cbv iota.
  fold (pool_offset_of data) (pool_length_of data)
       (as_offset_of data) (as_length_of data).
  assert (Hpool : Stringpool.loc_stringpool_read oracle
                    (Stringpool.mk NULL 0) (after_header data)
                    (pool_offset_of data) (pool_length_of data)
                  = (0, Stringpool.mk
                          (section_ptr data (pool_offset_of data)
                             (pool_length_of data))
                          (pool_length_of data))).
  { unfold Stringpool.loc_stringpool_read, Stringpool.heap_buffered,
      section_ptr, mmap.
    cbn [Database.file Stringpool.data file_data after_header].
    destruct (pool_length_of data >? 0); [|reflexivity].
    destruct (oracle (pool_length_of data) (after_header data)
                (pool_offset_of data)); reflexivity. }
  cbn [Database.file Database.set_pool Database.set_meta Database.set_file].
  rewrite Hpool.
  change (negb (0 =? 0)) with false. cbv iota.
  unfold Database.loc_database_read_as_section_v0, section_errno, mmap.
  cbn [Database.file Database.set_pool Database.set_meta Database.set_file].
  destruct (as_length_of data >? 0); [|reflexivity].
  destruct (oracle (as_length_of data) (after_header data)
              (as_offset_of data)) as [e|].
  - rewrite neg_errno_nonzero. reflexivity.
  - reflexivity.
Qed.

Lemma loc_database_new_bad_magic oracle database data :
  ((length data < 9)%nat \/ firstn 7 data <> Format.LOC_DATABASE_MAGIC) ->
  Database.loc_database_new oracle database (fopen data)
  = (if (length data <? 9)%nat then - ENOMSG else 1, database).
Proof.
  intros H. unfold Database.loc_database_new.
  rewrite read_magic_fopen. cbv zeta.
  destruct (Nat.ltb_spec (length data) 9) as [Hs|Hs]; [reflexivity|].
  destruct (list_eq_dec Z.eq_dec (firstn 7 data) Format.LOC_DATABASE_MAGIC)
    as [E|E]; [|reflexivity].
  destruct H as [H|H]; [lia | contradiction].
Qed.

Lemma loc_database_new_good_magic oracle database data :
  (9 <= length data)%nat -> firstn 7 data = Format.LOC_DATABASE_MAGIC ->
  Database.loc_database_new oracle database (fopen data)
  = let db := Database.set_version
                (Database.set_file (Database.loc_database_alloc (fopen data))
                   (mkFILE data 9))
                (version_of data) in
    let '(r, db) := Database.loc_database_read_header oracle db in
    if negb (r =? 0) then (r, database) else (0, Some db).
Proof.
  intros Hlen Hm. unfold Database.loc_database_new.
  rewrite read_magic_fopen. cbv zeta.
  destruct (Nat.ltb_spec (length data) 9) as [Hs|Hs]; [lia|].
  destruct (list_eq_dec Z.eq_dec (firstn 7 data) Format.LOC_DATABASE_MAGIC)
    as [E|E]; [|contradiction].
  change (negb (0 =? 0)) with false. cbv iota.
  assert (L : length (magic_of data) = 9%nat)
    by (unfold magic_of; rewrite length_firstn; lia).
  rewrite L. reflexivity.
Qed.

Lemma loc_database_new_other_version oracle database data :
  (9 <= length data)%nat -> firstn 7 data = Format.LOC_DATABASE_MAGIC ->
  version_of data <> 0 ->
  Database.loc_database_new oracle database (fopen data) = (1, database).
Proof.
  intros Hlen Hm Hv. rewrite loc_database_new_good_magic by assumption.
  cbv zeta. unfold Database.loc_database_read_header.
  cbn [Database.version Database.set_version].
  destruct (version_of data); [congruence | reflexivity | reflexivity].
Qed.

Lemma loc_database_new_v0 oracle database data :
  (41 <= length data)%nat -> firstn 7 data = Format.LOC_DATABASE_MAGIC ->
  version_of data = 0 ->
  Database.loc_database_new oracle database (fopen data)
  = match section_errno oracle (after_header data)
            (as_offset_of data) (as_length_of data) with
    | Some e => (- Z.pos e, database)
    | None => (0, Some (opened_db data))
    end.
Proof.
  intros Hlen Hm Hv. rewrite loc_database_new_good_magic by (assumption || lia).
  cbv zeta. unfold Database.loc_database_read_header.
  cbn [Database.version Database.set_version]. rewrite Hv.
  rewrite (read_header_v0_complete oracle _ data) by (reflexivity || assumption).
  cbv zeta.
  destruct (section_errno oracle (after_header data) (as_offset_of data)
              (as_length_of data)) as [e|].
  - rewrite neg_errno_nonzero. reflexivity.
  - change (negb (0 =? 0)) with false. cbv iota.
    unfold opened_db, section_ptr, section_errno in *.
    destruct (as_length_of data >? 0); reflexivity.
Qed.

Lemma loc_database_new_v0_short_header oracle database data :
  (9 <= length data < 41)%nat -> firstn 7 data = Format.LOC_DATABASE_MAGIC ->
  version_of data = 0 ->
  Database.loc_database_new oracle database (fopen data)
  = (- ENOMSG, database).
Proof.
  intros Hlen Hm Hv. rewrite loc_database_new_good_magic by (assumption || lia).
  cbv zeta. unfold Database.loc_database_read_header.
  cbn [Database.version Database.set_version]. rewrite Hv.
  unfold Database.loc_database_read_header_v0, fread.
  cbn [Database.file Database.set_version Database.set_file file_pos file_data].
  change (Z.to_nat Format.sizeof_header_v0) with 32%nat.
  assert (Hh : (length (firstn 32 (skipn 9 data)) < 32)%nat)
    by (rewrite length_firstn, length_skipn; lia).
  destruct (Z.ltb_spec (Z.of_nat (length (firstn 32 (skipn 9 data))))
              Format.sizeof_header_v0) as [_|H];
    [reflexivity | unfold Format.sizeof_header_v0 in H; lia].
Qed.

(** Every way [loc_database_new] can hand out a database. *)
Lemma loc_database_new_success oracle database data db :
  Database.loc_database_new oracle database (fopen data) = (0, Some db) ->
  (41 <= length data)%nat
  /\ firstn 7 data = Format.LOC_DATABASE_MAGIC
  /\ version_of data = 0
  /\ section_errno oracle (after_header data)
       (as_offset_of data) (as_length_of data) = None
  /\ db = opened_db data.
Proof.
  intros H.
  destruct (Nat.lt_ge_cases (length data) 9) as [Hs|Hs].
  { rewrite loc_database_new_bad_magic in H by (left; exact Hs).
    destruct (length data <? 9)%nat; discriminate H. }
  destruct (list_eq_dec Z.eq_dec (firstn 7 data) Format.LOC_DATABASE_MAGIC)
    as [E|E].
  2:{ rewrite loc_database_new_bad_magic in H by (right; exact E).
      destruct (length data <? 9)%nat; discriminate H. }
  destruct (Z.eq_dec (version_of data) 0) as [Hv|Hv].
  2:{ rewrite loc_database_new_other_version in H by assumption.
      discriminate H. }
  destruct (Nat.lt_ge_cases (length data) 41) as [Hh|Hh].
  { rewrite loc_database_new_v0_short_header in H by (assumption || lia).
    discriminate H. }
  rewrite loc_database_new_v0 in H by assumption.
  destruct (section_errno oracle (after_header data) (as_offset_of data)
              (as_length_of data)) as [e|]; [injection H; lia|].
  injection H as H. repeat split; auto.
Qed.

(** C3: a file shorter than the magic structure, or whose leading bytes
    are not the magic string, does not open: [loc_database_new] returns the
    error of the magic check ([-ENOMSG] for a short file, 1 for a mismatch)
    and leaves [*database] as it was.  A zero-byte file fails this way. *)
Theorem open_rejects_bad_magic (mmap_errno : mmap_oracle)
    (database : option Database.loc_database) (data : list Z)
    (H : (length data < magic_size)%nat \/ ~ has_magic data) :
  exists r,
    Database.loc_database_new mmap_errno database (fopen data) = (r, database)
    /\ r <> 0
    /\ r = fst (Database.loc_database_read_magic
                  (Database.loc_database_alloc (fopen data)))
    /\ ((length data < magic_size)%nat -> r = - ENOMSG)
    /\ ((magic_size <= length data)%nat -> r = 1)
    /\ Database.loc_database_new mmap_errno database (fopen [])
       = (- ENOMSG, database).
Proof.
  format_sizes.
  exists (if (length data <? 9)%nat then - ENOMSG else 1).
  split; [apply loc_database_new_bad_magic, H|].
  split; [destruct (length data <? 9)%nat; unfold ENOMSG; lia|].
  split.
  { rewrite read_magic_fopen. cbv zeta.
    destruct (Nat.ltb_spec (length data) 9) as [Hs|Hs]; [reflexivity|].
    destruct (list_eq_dec Z.eq_dec (firstn 7 data) Format.LOC_DATABASE_MAGIC)
      as [E|E]; [|reflexivity].
    destruct H as [H|H]; [lia | contradiction]. }
  split; [|split].
  - intros Hs. destruct (Nat.ltb_spec (length data) 9); [reflexivity | lia].
  - intros Hs. destruct (Nat.ltb_spec (length data) 9); [lia | reflexivity].
  - reflexivity.
Qed.

Lemma open_rejects_bad_magic_witness :
  exists r,
    Database.loc_database_new linux_mmap_errno None (fopen []) = (r, None)
    /\ r <> 0.
Proof.
  destruct (open_rejects_bad_magic linux_mmap_errno None []
              (or_introl (Nat.lt_0_succ 8))) as (r & H1 & H2 & _).
  exists r. split; [exact H1 | exact H2].
Defined.

(** C2, as the code has it: when the magic bytes match, opening succeeds
    only for version 0; every other version number, 1 included, is
    rejected with return value 1 and [*database] is left as it was. *)
Theorem open_accepts_only_version_0 (mmap_errno : mmap_oracle)
    (database : option Database.loc_database) (data : list Z)
    (Hlen : (magic_size <= length data)%nat)
    (Hmagic : has_magic data) :
  (version_of data <> 0 ->
   Database.loc_database_new mmap_errno database (fopen data) = (1, database))
  /\ (fst (Database.loc_database_new mmap_errno database (fopen data)) = 0 ->
      version_of data = 0)
  /\ (forall db,
        Database.loc_database_new mmap_errno database (fopen data)
        = (0, Some db) -> Database.version db = 0).
Proof.
  format_sizes.
  split; [|split].
  - intros Hv. apply loc_database_new_other_version; assumption.
  - intros H. destruct (Z.eq_dec (version_of data) 0) as [Hv|Hv]; [exact Hv|].
    rewrite loc_database_new_other_version in H by assumption.
    discriminate H.
  - intros db H. apply loc_database_new_success in H.
    destruct H as (_ & _ & _ & _ & ->). reflexivity.
Qed.

Lemma open_accepts_only_version_0_witness :
  Database.loc_database_new linux_mmap_errno None (fopen (sample_db 1))
  = (1, None).
Proof.
  assert (Hlen : (magic_size <= length (sample_db 1))%nat)
    by (apply Nat.leb_le; vm_compute; reflexivity).
  assert (Hmagic : has_magic (sample_db 1))
    by (vm_compute; reflexivity).
  destruct (open_accepts_only_version_0 linux_mmap_errno None (sample_db 1)
              Hlen Hmagic) as (H & _).
  apply H. vm_compute. discriminate.
Defined.

(** C2 as stated fails: a well-formed version-0 file opens, and the same
    file marked version 1 is turned down. *)
Lemma open_version_counterexample :
  has_magic (sample_db 0)
  /\ version_of (sample_db 0) = 0
  /\ fst (Database.loc_database_new linux_mmap_errno None
            (fopen (sample_db 0))) = 0
  /\ version_of (sample_db 1) = 1
  /\ fst (Database.loc_database_new linux_mmap_errno None
            (fopen (sample_db 1))) = 1.
Proof. vm_compute. repeat split. Qed.

Lemma section_errno_none oracle f offset length :
  0 <= length ->
  section_errno oracle f offset length = None
  <-> length = 0 \/ oracle length f offset = None.
Proof.
  intros Hl. unfold section_errno.
  destruct (Z.gtb_spec length 0) as [Hgt|Hle]; split; intros H;
    try tauto; try (left; lia).
  destruct H as [H|H]; [lia | exact H].
Qed.

Lemma as_length_of_range data : 0 <= as_length_of data < 2 ^ 32.
Proof. apply ntohl_range. Qed.

Lemma pool_length_of_range data : 0 <= pool_length_of data < 2 ^ 32.
Proof. apply ntohl_range. Qed.




Lemma fetch_as_past_end db as_ pos :
  Database.as_count db <= pos -> - 2 ^ 63 <= pos < 2 ^ 63 ->
  Database.loc_database_fetch_as db as_ pos = Val (- EINVAL, as_).
Proof.
  intros Hpos Hr. unfold Database.loc_database_fetch_as.
  assert (Database.as_count db <= to_size_t pos).
  { unfold to_size_t. destruct (Z.le_gt_cases 0 pos).
    - rewrite Z.mod_small; lia.
    - replace pos with (pos + 2 ^ 64 + (-1) * 2 ^ 64) by ring.
      rewrite Z.mod_add by lia. rewrite Z.mod_small; lia. }
  destruct (Z.geb_spec (to_size_t pos) (Database.as_count db));
    [reflexivity | lia].
Qed.

Lemma read_as_section_v0_eq oracle db as_offset as_length :
  Database.loc_database_read_as_section_v0 oracle db as_offset as_length
  = match section_errno oracle (Database.file db) as_offset as_length with
    | Some e => (- Z.pos e, Database.set_as_v0 db MAP_FAILED)
    | None =>
        (0, Database.set_as_count
              (if as_length >? 0
               then Database.set_as_v0 db
                      (Mapped (mkMapping (file_data (Database.file db))
                                 as_offset as_length))
               else db)
              (as_length / Format.sizeof_as_v0))
    end.
Proof.
  unfold Database.loc_database_read_as_section_v0, section_errno, mmap.
  destruct (as_length >? 0); [|reflexivity].
  destruct (oracle as_length (Database.file db) as_offset); reflexivity.
Qed.

(** C10: the number of AS records is the floor of the declared section
    length divided by the record size.  Nothing asks for the length to be
    a multiple of the record size: reading the section, and with it
    opening the file, succeeds whenever [mmap] does, and the bytes of a
    trailing partial record lie past the last position that
    [loc_database_fetch_as] serves. *)
Theorem as_count_is_floor (mmap_errno : mmap_oracle)
    (db : Database.loc_database) (as_offset as_length : Z)
    (Hlength : 0 <= as_length) :
  let read :=
    Database.loc_database_read_as_section_v0 mmap_errno db as_offset
      as_length in
  let count := as_length / Format.sizeof_as_v0 in
  (fst read = 0
   <-> as_length = 0
       \/ mmap_errno as_length (Database.file db) as_offset = None)
  /\ (fst read = 0 ->
      Database.loc_database_count_as (snd read) = count
      /\ Format.sizeof_as_v0 * count <= as_length
         < Format.sizeof_as_v0 * (count + 1)
      /\ forall as_ pos, count <= pos < 2 ^ 63 ->
           Database.loc_database_fetch_as (snd read) as_ pos
           = Val (- EINVAL, as_))
  /\ (forall database data,
        (header_end <= length data)%nat ->
        has_magic data ->
        version_of data = 0 ->
        section_errno mmap_errno (after_header data)
          (pool_offset_of data) (pool_length_of data) = None ->
        section_errno mmap_errno (after_header data)
          (as_offset_of data) (as_length_of data) = None ->
        exists db',
          Database.loc_database_new mmap_errno database (fopen data)
          = (0, Some db')
          /\ Database.loc_database_count_as db'
             = as_length_of data / Format.sizeof_as_v0).
Proof.
  intros read count. subst read. format_sizes.
  rewrite <- section_errno_none by exact Hlength.
  assert (Hcount : Format.sizeof_as_v0 * count <= as_length
                   < Format.sizeof_as_v0 * (count + 1)).
  { subst count. unfold Format.sizeof_as_v0.
    Z.to_euclidean_division_equations. lia. }
  rewrite read_as_section_v0_eq.
  destruct (section_errno mmap_errno (Database.file db) as_offset as_length)
    as [e|]; cbn [fst snd].
  - split; [split; [lia | discriminate]|]. split; [lia|].
    intros database data Hlen Hmagic Hversion Hpool Has.
    exists (opened_db data).
    rewrite loc_database_new_v0 by assumption. rewrite Has.
    split; reflexivity.
  - split; [tauto|]. split.
    + intros _. split; [reflexivity|]. split; [exact Hcount|].
      intros as_ pos Hpos. unfold Format.sizeof_as_v0 in Hcount.
      apply fetch_as_past_end; [|lia].
      unfold Database.set_as_count. cbn [Database.as_count]. fold count. lia.
    + intros database data Hlen Hmagic Hversion Hpool Has.
      exists (opened_db data).
      rewrite loc_database_new_v0 by assumption. rewrite Has.
      split; reflexivity.
Qed.

Lemma as_count_is_floor_witness :
  Database.loc_database_count_as
    (snd (Database.loc_database_read_as_section_v0 linux_mmap_errno
            (Database.loc_database_alloc (fopen (sample_db 0))) 8192 20))
  = 2.
Proof.
  destruct (as_count_is_floor linux_mmap_errno
              (Database.loc_database_alloc (fopen (sample_db 0))) 8192 20
              ltac:(lia)) as (_ & H & _).
  apply H. vm_compute. reflexivity.
Defined.

(* ----------------------------------------------------------------- *)
(** ** The binary search *)

Lemma fetch_as_rejects db as_ pos :
  Database.as_count db <= to_size_t pos ->
  Database.loc_database_fetch_as db as_ pos = Val (- EINVAL, as_).
Proof.
  intros H. unfold Database.loc_database_fetch_as.
  destruct (Z.geb_spec (to_size_t pos) (Database.as_count db));
    [reflexivity | lia].
Qed.

Lemma to_size_t_negative x : - 2 ^ 63 <= x < 0 -> 2 ^ 63 <= to_size_t x.
Proof.
  intros H. unfold to_size_t.
  replace x with (x + 2 ^ 64 + (-1) * 2 ^ 64) by ring.
  rewrite Z.mod_add by lia. rewrite Z.mod_small; lia.
Qed.

Lemma to_off_t_wrap x : 2 ^ 63 <= x < 2 ^ 64 -> to_off_t x = x - 2 ^ 64.
Proof.
  intros H. unfold to_off_t.
  replace (x + 2 ^ 63) with (x - 2 ^ 63 + 1 * 2 ^ 64) by ring.
  rewrite Z.mod_add by lia. rewrite Z.mod_small; lia.
Qed.

(** The first upper bound of the search. *)
Lemma get_as_initial_hi n :
  0 <= n < 2 ^ 64 ->
  (n <= 2 ^ 63 -> to_off_t (to_size_t (n - 1)) = n - 1)
  /\ (2 ^ 63 < n -> to_off_t (to_size_t (n - 1)) < 0).
Proof.
  intros Hn. split; intros H.
  - destruct (Z.eq_dec n 0) as [->|Hz]; [reflexivity|].
    rewrite to_size_t_small by lia. apply to_off_t_small. lia.
  - rewrite to_size_t_small by lia. rewrite to_off_t_wrap by lia. lia.
Qed.

(** The index probed in a round, when [lo + hi] does not overflow. *)
Lemma get_as_midpoint lo hi :
  0 <= lo <= hi -> lo + hi < 2 ^ 63 ->
  Z.quot (to_off_t (lo + hi)) 2 = (lo + hi) / 2
  /\ lo <= (lo + hi) / 2 <= hi.
Proof.
  intros H Hs. rewrite to_off_t_small by lia.
  rewrite Z.quot_div_nonneg by lia.
  split; [reflexivity|]. Z.to_euclidean_division_equations. lia.
Qed.

(** A round that goes on does so with an interval inside the old one and
    at most half as long. *)
Lemma get_as_round_shrinks db number lo hi as_ lo' hi' as' :
  Database.as_count db <= 2 ^ 63 ->
  0 <= lo <= hi -> hi < Database.as_count db ->
  Database.get_as_round db number lo hi as_ = Val (Database.Continue lo' hi' as') ->
  lo <= lo' /\ hi' <= hi /\ lo' <= hi' + 1
  /\ 2 * (hi' - lo' + 1) <= hi - lo + 1.
Proof.
  intros HN Hlo Hhi. unfold Database.get_as_round.
  destruct (Z.lt_ge_cases (lo + hi) (2 ^ 63)) as [Hs|Hs].
  - destruct (get_as_midpoint lo hi Hlo Hs) as [-> Hmid].
    set (i := (lo + hi) / 2) in *.
    destruct (Database.loc_database_fetch_as db as_ i) as [[r a]|];
      cbn [mem_bind]; [|discriminate].
    destruct (negb (r =? 0)); [discriminate|].
    destruct (As.loc_as_get_number a) as [k|]; cbn [mem_bind]; [|discriminate].
    destruct (k =? number); [discriminate|].
    assert (Hi : i = (lo + hi) / 2) by reflexivity.
    clearbody i.
    destruct (k <? number); intros H; injection H as <- <- _;
      rewrite to_off_t_small
        by (Z.to_euclidean_division_equations; lia);
      Z.to_euclidean_division_equations; lia.
  - rewrite to_off_t_wrap by lia.
    set (i := Z.quot (lo + hi - 2 ^ 64) 2).
    assert (Hi : - 2 ^ 63 <= i < 0).
    { subst i. rewrite <- (Z.opp_involutive (lo + hi - 2 ^ 64)).
      rewrite Z.quot_opp_l by lia.
      rewrite Z.quot_div_nonneg by lia.
      Z.to_euclidean_division_equations. lia. }
    rewrite fetch_as_rejects
      by (pose proof (to_size_t_negative i Hi); lia).
    cbn [mem_bind]. discriminate.
Qed.

Lemma get_as_loop_terminates db number : forall fuel lo hi as_,
  Database.as_count db <= 2 ^ 63 ->
  0 <= lo -> hi < Database.as_count db ->
  hi - lo + 1 < 2 ^ Z.of_nat fuel ->
  exists r, Database.get_as_loop fuel db number lo hi as_ = Some r.
Proof.
  induction fuel as [|fuel IH]; intros lo hi as_ HN Hlo Hhi Hw.
  - cbn [Database.get_as_loop]. change (2 ^ Z.of_nat 0) with 1 in Hw.
    destruct (Z.leb_spec lo hi); [lia | eexists; reflexivity].
  - cbn [Database.get_as_loop].
    destruct (Z.leb_spec lo hi) as [Hle|Hgt]; [|eexists; reflexivity].
    destruct (Database.get_as_round db number lo hi as_) as [[r a|lo' hi' a]|] eqn:R;
      [eexists; reflexivity | | eexists; reflexivity].
    destruct (get_as_round_shrinks db number lo hi as_ lo' hi' a HN
                ltac:(lia) Hhi R) as (H1 & H2 & H3 & H4).
    apply IH; try lia.
    rewrite Nat2Z.inj_succ, Z.pow_succ_r in Hw by lia. lia.
Qed.

(** C8: the binary search of [loc_database_get_as] terminates for every
    database and every queried number.  A round that does not return
    narrows the interval [lo, hi] to at most half its length, so a table
    of [N] records is searched in at most [log2 N + 1] rounds: any round
    budget [fuel] with [N < 2 ^ fuel] is enough. *)
Theorem get_as_terminates (db : Database.loc_database) (number : Z)
    (as_ : As.loc_as_ptr)
    (Hcount : 0 <= Database.as_count db < 2 ^ 64) :
  (forall lo hi a lo' hi' a',
     0 <= lo <= hi -> hi < Database.as_count db ->
     Database.as_count db <= 2 ^ 63 ->
     Database.get_as_round db number lo hi a
     = Val (Database.Continue lo' hi' a') ->
     lo <= lo' /\ hi' <= hi /\ hi' - lo' < hi - lo
     /\ 2 * (hi' - lo' + 1) <= hi - lo + 1)
  /\ (forall fuel,
        Database.as_count db < 2 ^ Z.of_nat fuel ->
        exists r, Database.loc_database_get_as fuel db as_ number = Some r)
  /\ exists r,
       Database.loc_database_get_as
         (S (Z.to_nat (Z.log2 (Database.as_count db)))) db as_ number
       = Some r.
Proof.
  assert (Hfuel : forall fuel,
            Database.as_count db < 2 ^ Z.of_nat fuel ->
            exists r, Database.loc_database_get_as fuel db as_ number = Some r).
  { intros fuel Hf. unfold Database.loc_database_get_as.
    destruct (get_as_initial_hi (Database.as_count db) Hcount) as [Hsmall Hbig].
    destruct (Z.le_gt_cases (Database.as_count db) (2 ^ 63)) as [HN|HN].
    - rewrite (Hsmall HN). apply get_as_loop_terminates; lia.
    - specialize (Hbig HN).
      destruct fuel; cbn [Database.get_as_loop];
        (destruct (Z.leb_spec 0 (to_off_t (to_size_t (Database.as_count db - 1))));
         [lia | eexists; reflexivity]). }
  split; [|split].
  - intros lo hi a lo' hi' a' Hlo Hhi HN R.
    destruct (get_as_round_shrinks db number lo hi a lo' hi' a' HN Hlo Hhi R)
      as (H1 & H2 & H3 & H4).
    repeat split; lia.
  - exact Hfuel.
  - apply Hfuel.
    destruct (Z.eq_dec (Database.as_count db) 0) as [->|Hz].
    + reflexivity.
    + rewrite Nat2Z.inj_succ, Z2Nat.id by apply Z.log2_nonneg.
      apply Z.log2_spec. lia.
Qed.

Lemma get_as_terminates_witness :
  exists r,
    Database.loc_database_get_as 2 (opened_db (sample_db 0)) As.Null 65002
    = Some r.
Proof.
  assert (Hcount : 0 <= Database.as_count (opened_db (sample_db 0)) < 2 ^ 64)
    by (vm_compute; split; [discriminate | reflexivity]).
  destruct (get_as_terminates (opened_db (sample_db 0)) 65002 As.Null Hcount)
    as (_ & H & _).
  apply (H 2%nat). vm_compute. reflexivity.
Defined.

(** C9: on a database without AS records the search returns 0 with
    [*as = NULL] before its first round, so no record is fetched; and
    [loc_database_fetch_as] answers every position at or past [as_count]
    with [-EINVAL], whatever [as_v0] points to, leaving [*as] alone. *)
Theorem get_as_empty_table (db : Database.loc_database)
    (Hempty : Database.as_count db = 0) :
  (forall fuel as_ number,
     Database.loc_database_get_as fuel db as_ number = Some (Val (0, As.Null)))
  /\ (forall db' as_ pos,
        Database.as_count db' <= pos -> - 2 ^ 63 <= pos < 2 ^ 63 ->
        Database.loc_database_fetch_as db' as_ pos = Val (- EINVAL, as_)).
Proof.
  split.
  - intros fuel as_ number. unfold Database.loc_database_get_as.
    rewrite Hempty. destruct fuel; reflexivity.
  - intros db' as_ pos H1 H2. apply fetch_as_past_end; assumption.
Qed.

Lemma get_as_empty_table_witness :
  Database.loc_database_get_as 0 (Database.loc_database_alloc (fopen []))
    As.Null 65001
  = Some (Val (0, As.Null)).
Proof.
  destruct (get_as_empty_table (Database.loc_database_alloc (fopen []))
              eq_refl) as (H & _).
  apply H.
Defined.

Lemma sorted_nth_lt (l : list Z) :
  StronglySorted Z.lt l ->
  forall i j, (i < j < length l)%nat -> nth i l 0 < nth j l 0.
Proof.
  induction 1 as [|a l Hs IH Ha]; intros i j Hij.
  - cbn [length] in Hij. lia.
  - destruct j as [|j]; [lia|]. cbn [length] in Hij.
    destruct i as [|i]; cbn [nth].
    + rewrite Forall_forall in Ha. apply Ha, nth_In. lia.
    + apply IH. lia.
Qed.

Lemma as_table_length db recs :
  as_table db = map Val recs ->
  length recs = Z.to_nat (Database.as_count db).
Proof.
  intros H. apply (f_equal (@length _)) in H.
  unfold as_table in H. rewrite !length_map, length_seq in H.
  congruence.
Qed.

Lemma as_table_nth db recs i :
  as_table db = map Val recs ->
  0 <= i < Database.as_count db ->
  As.read_as_v0 (Database.as_v0 db) i = Val (nth (Z.to_nat i) recs (0, 0)).
Proof.
  intros H Hi. pose proof (as_table_length db recs H) as Hlen.
  apply (f_equal (fun l => nth (Z.to_nat i) l Fault)) in H.
  unfold as_table in H.
  rewrite (nth_indep _ Fault
             (As.read_as_v0 (Database.as_v0 db) (Z.of_nat 0))) in H
    by (rewrite length_map, length_seq; lia).
  rewrite (map_nth (fun i => As.read_as_v0 (Database.as_v0 db) (Z.of_nat i)))
    in H.
  rewrite seq_nth in H by lia. cbn [Nat.add] in H.
  rewrite Z2Nat.id in H by lia. rewrite H.
  rewrite (nth_indep _ Fault (Val (0, 0))) by (rewrite length_map; lia).
  apply (map_nth (@Val (Z * Z))).
Qed.

Lemma fetch_as_record db recs as_ i :
  Database.version db = 0 ->
  Database.as_count db <= 2 ^ 63 ->
  as_table db = map Val recs ->
  0 <= i < Database.as_count db ->
  Database.loc_database_fetch_as db as_ i
  = Val (0, As.Live (As.mk (Database.pool db)
                       (fst (nth (Z.to_nat i) recs (0, 0)))
                       (snd (nth (Z.to_nat i) recs (0, 0))))).
Proof.
  intros Hv HN Ht Hi. unfold Database.loc_database_fetch_as.
  rewrite to_size_t_small by lia.
  destruct (Z.geb_spec i (Database.as_count db)); [lia|].
  rewrite Hv. unfold As.loc_as_new_from_database_v0.
  rewrite (as_table_nth db recs i Ht Hi). reflexivity.
Qed.

Section Search.

Variable db : Database.loc_database.
Variable recs : list (Z * Z).
Variable number : Z.

Hypothesis Hversion : Database.version db = 0.
Hypothesis Hcount : Database.as_count db <= 2 ^ 62.
Hypothesis Htable : as_table db = map Val recs.
Hypothesis Hsorted : StronglySorted Z.lt (map fst recs).

Lemma record_number_lt i j :
  0 <= i < j -> j < Database.as_count db ->
  fst (as_record recs i) < fst (as_record recs j).
Proof.
  intros Hi Hj. pose proof (as_table_length db recs Htable) as Hlen.
  pose proof (sorted_nth_lt (map fst recs) Hsorted (Z.to_nat i) (Z.to_nat j))
    as H.
  rewrite length_map in H. specialize (H ltac:(lia)).
  change 0 with (fst (0, 0)) in H. rewrite !map_nth in H. exact H.
Qed.

Lemma get_as_loop_search : forall fuel lo hi as_,
  0 <= lo -> hi < Database.as_count db -> lo <= hi + 1 ->
  hi - lo + 1 < 2 ^ Z.of_nat fuel ->
  (forall j, lo <= j <= hi -> fst (as_record recs j) = number ->
     Database.get_as_loop fuel db number lo hi as_
     = Some (Val (0, As.Live (As.mk (Database.pool db) number
                                (snd (as_record recs j))))))
  /\ ((forall j, lo <= j <= hi -> fst (as_record recs j) <> number) ->
      Database.get_as_loop fuel db number lo hi as_
      = Some (Val (0, As.Null))).
Proof.
  induction fuel as [|fuel IH]; intros lo hi as_ Hlo Hhi Hle Hw.
  - change (2 ^ Z.of_nat 0) with 1 in Hw. cbn [Database.get_as_loop].
    destruct (Z.leb_spec lo hi); [lia|].
    split; [intros j Hj; lia | reflexivity].
  - cbn [Database.get_as_loop].
    destruct (Z.leb_spec lo hi) as [Hlh|Hlh];
      [|split; [intros j Hj; lia | reflexivity]].
    destruct (get_as_midpoint lo hi ltac:(lia) ltac:(lia)) as [Emid Hmid].
    unfold Database.get_as_round. rewrite Emid.
    set (i := (lo + hi) / 2) in *.
    rewrite (fetch_as_record db recs as_ i Hversion ltac:(lia) Htable
               ltac:(lia)).
    fold (as_record recs i). cbn [mem_bind negb Z.eqb As.loc_as_get_number As.number].
    rewrite Nat2Z.inj_succ, Z.pow_succ_r in Hw by lia.
    assert (Hi : i = (lo + hi) / 2) by reflexivity. clearbody i.
    destruct (Z.eqb_spec (fst (as_record recs i)) number) as [Heq|Hne].
    + split.
      * intros j Hj Hk.
        assert (j = i).
        { destruct (Z.lt_trichotomy j i) as [H|[H|H]]; [|exact H|].
          - pose proof (record_number_lt j i ltac:(lia) ltac:(lia)). lia.
          - pose proof (record_number_lt i j ltac:(lia) ltac:(lia)). lia. }
        subst j. rewrite <- Heq. destruct (as_record recs i); reflexivity.
      * intros Hnone. exfalso. apply (Hnone i); [lia | exact Heq].
    + cbn [As.loc_as_unref].
      destruct (Z.ltb_spec (fst (as_record recs i)) number) as [Hlt|Hge].
      * rewrite to_off_t_small
          by (Z.to_euclidean_division_equations; lia).
        destruct (IH (i + 1) hi
                    (As.Released
                       (As.mk (Database.pool db) (fst (as_record recs i))
                          (snd (as_record recs i))))
                    ltac:(lia) Hhi ltac:(lia)
                    ltac:(Z.to_euclidean_division_equations; lia))
          as [IH1 IH2].
        split.
        -- intros j Hj Hk. apply IH1; [|exact Hk].
           destruct (Z.le_gt_cases j i) as [H|H]; [|lia].
           destruct (Z.eq_dec j i) as [->|Hji]; [lia|].
           pose proof (record_number_lt j i ltac:(lia) ltac:(lia)). lia.
        -- intros Hnone. apply IH2. intros j Hj. apply Hnone. lia.
      * rewrite to_off_t_small
          by (Z.to_euclidean_division_equations; lia).
        destruct (IH lo (i - 1)
                    (As.Released
                       (As.mk (Database.pool db) (fst (as_record recs i))
                          (snd (as_record recs i))))
                    Hlo ltac:(lia) ltac:(lia)
                    ltac:(Z.to_euclidean_division_equations; lia))
          as [IH1 IH2].
        split.
        -- intros j Hj Hk. apply IH1; [|exact Hk].
           destruct (Z.le_gt_cases i j) as [H|H]; [|lia].
           destruct (Z.eq_dec j i) as [->|Hji]; [lia|].
           pose proof (record_number_lt i j ltac:(lia) ltac:(lia)). lia.
        -- intros Hnone. apply IH2. intros j Hj. apply Hnone. lia.
Qed.

Lemma get_as_search fuel as_ :
  0 <= Database.as_count db < 2 ^ Z.of_nat fuel ->
  (forall name, In (number, name) recs ->
     Database.loc_database_get_as fuel db as_ number
     = Some (Val (0, As.Live (As.mk (Database.pool db) number name))))
  /\ (~ In number (map fst recs) ->
      Database.loc_database_get_as fuel db as_ number
      = Some (Val (0, As.Null))).
Proof.
  intros Hf. unfold Database.loc_database_get_as.
  pose proof (as_table_length db recs Htable) as Hlen.
  destruct (get_as_initial_hi (Database.as_count db) ltac:(lia)) as [Hhi _].
  rewrite Hhi by lia.
  destruct (get_as_loop_search fuel 0 (Database.as_count db - 1) as_
              ltac:(lia) ltac:(lia) ltac:(lia) ltac:(lia)) as [H1 H2].
  split.
  - intros name Hin. apply In_nth with (d := (0, 0)) in Hin.
    destruct Hin as (n & Hn & En).
    specialize (H1 (Z.of_nat n) ltac:(lia)). unfold as_record in H1.
    rewrite Nat2Z.id, En in H1. apply H1. reflexivity.
  - intros Hnot. apply H2. intros j Hj Hk. apply Hnot.
    rewrite <- Hk. apply in_map. unfold as_record. apply nth_In. lia.
Qed.

End Search.

Lemma opened_db_as_count data :
  0 <= Database.as_count (opened_db data) < 2 ^ 29.
Proof.
  cbn [opened_db Database.as_count].
  pose proof (as_length_of_range data). unfold Format.sizeof_as_v0.
  Z.to_euclidean_division_equations. lia.
Qed.

(** C1: on an opened database whose AS table is sorted strictly ascending
    by number, [loc_database_get_as] returns 0 and hands out the AS object
    of the record with the number asked for, its name being the string the
    pool of the database holds at the record's name offset, when the table
    has such a record; when it has none, it returns 0 and sets [*as] to
    [NULL].  [fuel] is any round budget with [as_count < 2 ^ fuel]. *)
Theorem get_as_sorted_table (mmap_errno : mmap_oracle)
    (database : option Database.loc_database) (data : list Z)
    (db : Database.loc_database) (recs : list (Z * Z)) (number : Z)
    (as_ : As.loc_as_ptr) (fuel : nat)
    (Hopen : Database.loc_database_new mmap_errno database (fopen data)
             = (0, Some db))
    (Htable : as_table db = map Val recs)
    (Hsorted : StronglySorted Z.lt (map fst recs))
    (Hfuel : Database.as_count db < 2 ^ Z.of_nat fuel) :
  exists p,
    Database.pool db = Some p
    /\ (forall name, In (number, name) recs ->
          Database.loc_database_get_as fuel db as_ number
          = Some (Val (0, As.Live (As.mk (Some p) number name)))
          /\ As.loc_as_get_name (As.mk (Some p) number name)
             = Stringpool.loc_stringpool_get p name)
    /\ (~ In number (map fst recs) ->
        Database.loc_database_get_as fuel db as_ number
        = Some (Val (0, As.Null))).
Proof.
  apply loc_database_new_success in Hopen.
  destruct Hopen as (_ & _ & _ & _ & ->).
  pose proof (opened_db_as_count data) as HN.
  destruct (get_as_search (opened_db data) recs number eq_refl ltac:(lia)
              Htable Hsorted fuel as_ ltac:(lia)) as [H1 H2].
  eexists. split; [reflexivity|]. split.
  - intros name Hin. split; [apply H1, Hin | reflexivity].
  - exact H2.
Qed.

Lemma get_as_sorted_table_witness :
  exists p,
    Database.loc_database_get_as 2 (opened_db (sample_db 0)) As.Null 65002
    = Some (Val (0, As.Live (As.mk (Some p) 65002 12)))
    /\ As.loc_as_get_name (As.mk (Some p) 65002 12) = Val (Some [65; 83; 50]).
Proof.
  assert (Hopen : Database.loc_database_new linux_mmap_errno None
                    (fopen (sample_db 0))
                  = (0, Some (opened_db (sample_db 0))))
    by (vm_compute; reflexivity).
  assert (Htable : as_table (opened_db (sample_db 0))
                   = map Val sample_records)
    by (vm_compute; reflexivity).
  assert (Hsorted : StronglySorted Z.lt (map fst sample_records))
    by (repeat constructor).
  assert (Hfuel : Database.as_count (opened_db (sample_db 0))
                  < 2 ^ Z.of_nat 2)
    by (vm_compute; reflexivity).
  destruct (get_as_sorted_table linux_mmap_errno None (sample_db 0)
              (opened_db (sample_db 0)) sample_records 65002 As.Null 2
              Hopen Htable Hsorted Hfuel) as (p & Hp & Hfound & _).
  exists p. destruct (Hfound 12) as [H1 H2]; [right; left; reflexivity|].
  split; [exact H1|]. rewrite H2.
  injection Hp as <-. vm_compute. reflexivity.
Defined.

(* ================================================================= *)
(** * Further properties of the address primitives *)

(** ** Bits and the value of an address *)

Lemma testbit_mul_pow2_add b r m k :
  0 <= m -> 0 <= r < 2 ^ m -> 0 <= k ->
  Z.testbit (b * 2 ^ m + r) k
  = if k <? m then Z.testbit r k else Z.testbit b (k - m).
Proof.
  intros Hm Hr Hk. destruct (Z.ltb_spec k m) as [Hlt|Hge].
  - rewrite <- (Z.mod_pow2_bits_low (b * 2 ^ m + r) m k) by lia.
    rewrite Z.add_comm, Z.mod_add by lia.
    rewrite Z.mod_small by lia. reflexivity.
  - replace k with ((k - m) + m) at 1 by ring.
    rewrite <- Z.div_pow2_bits by lia.
    rewrite Z.div_add_l by lia. rewrite Z.div_small by lia.
    rewrite Z.add_0_r. reflexivity.
Qed.

Lemma testbit_byte_high b k : 0 <= b < 256 -> 8 <= k -> Z.testbit b k = false.
Proof.
  intros Hb Hk. destruct (Z.eq_dec b 0) as [->|Hz]; [apply Z.bits_0|].
  apply Z.bits_above_log2; [lia|].
  assert (Z.log2 b < 8) by (apply Z.log2_lt_pow2; lia). lia.
Qed.

(** Bit [k] of the integer a byte list spells is bit [k mod 8] of the byte
    [k / 8] places from the end. *)
Lemma testbit_be_decode l : forall k,
  bytes l -> 0 <= k ->
  Z.testbit (be_decode l) k
  = if k <? 8 * Z.of_nat (length l)
    then Z.testbit (nth (length l - 1 - Z.to_nat (k / 8)) l 0) (k mod 8)
    else false.
Proof.
  induction l as [|b l IH]; intros k Hl Hk.
  - cbn [length]. change (be_decode []) with 0. rewrite Z.bits_0.
    destruct (k <? 8 * Z.of_nat 0); [destruct (_ - _)%nat|]; cbn [nth];
      rewrite ?Z.bits_0; reflexivity.
  - unfold bytes in Hl. apply Forall_cons_iff in Hl. destruct Hl as [Hb Hl].
    rewrite be_decode_cons.
    pose proof (be_decode_range l Hl) as R.
    replace (256 ^ Z.of_nat (length l)) with (2 ^ (8 * Z.of_nat (length l)))
      in * by (rewrite Z.pow_mul_r by lia; reflexivity).
    rewrite testbit_mul_pow2_add by lia.
    cbn [length]. rewrite Nat2Z.inj_succ.
    destruct (Z.ltb_spec k (8 * Z.of_nat (length l))) as [Hlow|Hhigh].
    + rewrite (IH k Hl Hk).
      destruct (Z.ltb_spec k (8 * Z.of_nat (length l))); [|lia].
      destruct (Z.ltb_spec k (8 * Z.succ (Z.of_nat (length l)))); [|lia].
      assert (Hq : 0 <= k / 8 < Z.of_nat (length l))
        by (split; [apply Z.div_pos; lia | apply Z.div_lt_upper_bound; lia]).
      replace (S (length l) - 1 - Z.to_nat (k / 8))%nat
        with (S (length l - 1 - Z.to_nat (k / 8)))%nat by lia.
      reflexivity.
    + destruct (Z.ltb_spec k (8 * Z.succ (Z.of_nat (length l)))) as [Hin|Hout].
      * assert (Hq : k / 8 = Z.of_nat (length l)
                     /\ k mod 8 = k - 8 * Z.of_nat (length l))
          by (Z.to_euclidean_division_equations; lia).
        destruct Hq as [Hq Hr]. rewrite Hq, Hr, Nat2Z.id.
        replace (S (length l) - 1 - length l)%nat with 0%nat by lia.
        reflexivity.
      * apply testbit_byte_high; lia.
Qed.

Lemma be_decode_bits_high l k :
  bytes l -> 8 * Z.of_nat (length l) <= k -> Z.testbit (be_decode l) k = false.
Proof.
  intros Hl Hk. rewrite testbit_be_decode by (assumption || lia).
  destruct (Z.ltb_spec k (8 * Z.of_nat (length l))); [lia | reflexivity].
Qed.

Lemma in6_addr_value_testbit a k :
  in6_addr_wf a = true -> 0 <= k < 128 ->
  Z.testbit (in6_addr_value a) k
  = Z.testbit (s6_addr a (15 - k / 8)) (k mod 8).
Proof.
  intros Ha Hk. unfold in6_addr_value.
  pose proof (in6_addr_wf_length a Ha) as La.
  rewrite testbit_be_decode by (apply in6_addr_wf_bytes, Ha || lia).
  rewrite La. destruct (Z.ltb_spec k (8 * Z.of_nat 16)); [|lia].
  assert (0 <= k / 8 < 16) by (Z.to_euclidean_division_equations; lia).
  unfold s6_addr. destruct (Z.ltb_spec (15 - k / 8) 0); [lia|].
  do 2 f_equal. lia.
Qed.

(** X1: for every address [a] and every [i < 128], [in6_addr_get_bit a i] is
    0 or 1, and it is binary digit [127 - i] of the address read as a
    128-bit big-endian unsigned integer: bit 0 is the most significant bit
    of the address. *)
Theorem in6_addr_get_bit_value (a : in6_addr) (i : Z)
    (Ha : in6_addr_wf a = true) (Hi : 0 <= i < 128) :
  in6_addr_get_bit a i = (in6_addr_value a / 2 ^ (127 - i)) mod 2
  /\ (in6_addr_get_bit a i = 0 \/ in6_addr_get_bit a i = 1).
Proof.
  assert (E : in6_addr_get_bit a i
              = Z.b2z (Z.testbit (in6_addr_value a) (127 - i))).
  { rewrite in6_addr_get_bit_testbit by lia.
    rewrite in6_addr_value_testbit by (assumption || lia).
    assert ((127 - i) / 8 = 15 - i / 8 /\ (127 - i) mod 8 = 7 - i mod 8)
      as [-> ->] by (Z.to_euclidean_division_equations; lia).
    do 3 f_equal. lia. }
  split.
  - rewrite E. apply Z.testbit_spec'. lia.
  - rewrite E. destruct (Z.testbit _ _); cbn [Z.b2z]; auto.
Qed.

(** ** Setting a bit *)

Lemma list_set_length l : forall n v, length (list_set l n v) = length l.
Proof.
  induction l as [|x l IH]; intros [|n] v; cbn [list_set length];
    try reflexivity.
  f_equal. apply IH.
Qed.

Lemma nth_list_set l : forall n v m,
  (n < length l)%nat ->
  nth m (list_set l n v) 0 = if (m =? n)%nat then v else nth m l 0.
Proof.
  induction l as [|x l IH]; intros [|n] v [|m] Hn; cbn [length] in Hn;
    try lia; cbn [list_set nth Nat.eqb]; try reflexivity.
  apply IH. lia.
Qed.

Lemma list_set_bytes l n v :
  bytes l -> 0 <= v < 256 -> bytes (list_set l n v).
Proof.
  unfold bytes. revert n. induction l as [|x l IH]; intros [|n] Hl Hv;
    cbn [list_set]; try constructor;
    apply Forall_cons_iff in Hl; destruct Hl as [Hx Hl]; auto.
Qed.

Lemma s6_addr_set_s6_addr a j v k :
  0 <= j < Z.of_nat (length a) -> 0 <= k ->
  s6_addr (set_s6_addr a j v) k = if k =? j then v else s6_addr a k.
Proof.
  intros Hj Hk. unfold s6_addr, set_s6_addr.
  destruct (Z.ltb_spec j 0); [lia|]. destruct (Z.ltb_spec k 0); [lia|].
  rewrite nth_list_set by lia.
  destruct (Z.eqb_spec k j) as [->|Hne].
  - rewrite Nat.eqb_refl. reflexivity.
  - destruct (Nat.eqb_spec (Z.to_nat k) (Z.to_nat j)); [lia | reflexivity].
Qed.

(** The byte the store of [in6_addr_set_bit] writes: bit [s] is taken from
    [v], the other bits from [b]. *)
Lemma set_bit_byte b v s :
  0 <= b < 256 -> 0 <= s < 8 ->
  let b' := to_uint8 (Z.lxor b (Z.land (Z.lxor v b) (Z.shiftl 1 s))) in
  0 <= b' < 256
  /\ forall n, 0 <= n ->
       Z.testbit b' n = if n =? s then Z.testbit v s else Z.testbit b n.
Proof.
  intros Hb Hs b'.
  assert (R : 0 <= b' < 256) by (apply Z.mod_pos_bound; lia).
  split; [exact R|]. intros n Hn.
  destruct (Z.lt_ge_cases n 8) as [Hlow|Hhigh].
  - subst b'. unfold to_uint8. rewrite Z.mod_pow2_bits_low by lia.
    rewrite Z.lxor_spec, Z.land_spec, Z.lxor_spec, Z.shiftl_1_l.
    rewrite Z.pow2_bits_eqb by lia. rewrite (Z.eqb_sym s n).
    destruct (Z.eqb_spec n s) as [->|Hne].
    + destruct (Z.testbit v s), (Z.testbit b s); reflexivity.
    + destruct (Z.testbit v n), (Z.testbit b n); reflexivity.
  - rewrite testbit_byte_high by lia.
    destruct (Z.eqb_spec n s); [lia|].
    symmetry. apply testbit_byte_high; lia.
Qed.

(** X2: [in6_addr_set_bit a i val] changes bit [i] of the address and no
    other bit.  Read back with [in6_addr_get_bit], bit [i] is 0 after
    setting it to 0 and 1 after setting it to 1; for any other [val] it is
    bit [7 - i mod 8] of the 32-bit negation [-val], not whether [val] is
    non-zero. *)
Theorem in6_addr_set_bit_get (a : in6_addr) (i val : Z)
    (Ha : in6_addr_wf a = true) (Hi : 0 <= i < 128) :
  in6_addr_wf (in6_addr_set_bit a i val) = true
  /\ in6_addr_get_bit (in6_addr_set_bit a i val) i
     = Z.b2z (Z.testbit (to_uint32 (- val)) (7 - i mod 8))
  /\ in6_addr_get_bit (in6_addr_set_bit a i 0) i = 0
  /\ in6_addr_get_bit (in6_addr_set_bit a i 1) i = 1
  /\ (forall j, 0 <= j < 128 -> j <> i ->
        in6_addr_get_bit (in6_addr_set_bit a i val) j = in6_addr_get_bit a j).
Proof.
  pose proof (in6_addr_wf_length a Ha) as La.
  pose proof (in6_addr_wf_bytes a Ha) as Ba.
  assert (Hq : 0 <= i / 8 < 16) by (Z.to_euclidean_division_equations; lia).
  assert (Hs : 0 <= 7 - i mod 8 < 8)
    by (pose proof (Z.mod_pos_bound i 8); lia).
  assert (Hbit : forall v,
            in6_addr_get_bit (in6_addr_set_bit a i v) i
            = Z.b2z (Z.testbit (to_uint32 (- v)) (7 - i mod 8))).
  { intros v. rewrite in6_addr_get_bit_testbit by lia.
    unfold in6_addr_set_bit.
    rewrite s6_addr_set_s6_addr by lia. rewrite Z.eqb_refl.
    destruct (set_bit_byte (s6_addr a (i / 8)) (to_uint32 (- v))
                (7 - i mod 8) (s6_addr_range a (i / 8) Ba) Hs) as [_ H].
    rewrite H by lia. rewrite Z.eqb_refl. reflexivity. }
  split; [|split; [apply Hbit|split; [|split]]].
  - apply in6_addr_wf_intro.
    + unfold in6_addr_set_bit, set_s6_addr.
      destruct (i / 8 <? 0); [exact La|]. rewrite list_set_length. exact La.
    + unfold in6_addr_set_bit, set_s6_addr.
      destruct (i / 8 <? 0); [exact Ba|]. apply list_set_bytes; [exact Ba|].
      apply (set_bit_byte (s6_addr a (i / 8)) (to_uint32 (- val))
               (7 - i mod 8) (s6_addr_range a (i / 8) Ba) Hs).
  - rewrite Hbit. replace (to_uint32 (Z.opp 0)) with 0 by reflexivity.
    rewrite Z.bits_0. reflexivity.
  - rewrite Hbit. replace (to_uint32 (Z.opp 1)) with (Z.ones 32) by reflexivity.
    rewrite Z.ones_spec_low by lia. reflexivity.
  - intros j Hj Hne. rewrite !in6_addr_get_bit_testbit by lia.
    assert (Hjq : 0 <= j / 8 < 16) by (Z.to_euclidean_division_equations; lia).
    assert (Hjs : 0 <= 7 - j mod 8 < 8)
      by (pose proof (Z.mod_pos_bound j 8); lia).
    unfold in6_addr_set_bit. rewrite s6_addr_set_s6_addr by lia.
    destruct (Z.eqb_spec (j / 8) (i / 8)) as [Heq|Hdiff]; [|reflexivity].
    destruct (set_bit_byte (s6_addr a (i / 8)) (to_uint32 (- val))
                (7 - i mod 8) (s6_addr_range a (i / 8) Ba) Hs) as [_ H].
    rewrite H by lia. rewrite Heq.
    destruct (Z.eqb_spec (7 - j mod 8) (7 - i mod 8)) as [Hsame|_];
      [|reflexivity].
    exfalso. apply Hne.
    rewrite (Z.div_mod j 8), (Z.div_mod i 8) by lia. lia.
Qed.

Lemma in6_addr_set_bit_get_witness :
  in6_addr_get_bit (in6_addr_set_bit addr_doc 127 0) 127 = 0
  /\ in6_addr_get_bit (in6_addr_set_bit addr_doc 127 0) 2 = 1.
Proof.
  destruct (in6_addr_set_bit_get addr_doc 127 0 eq_refl ltac:(lia))
    as (_ & _ & H0 & _ & Hframe).
  split; [exact H0|]. rewrite Hframe by lia. reflexivity.
Defined.

Lemma in6_addr_get_bit_value_witness :
  in6_addr_get_bit addr_doc 2 = (in6_addr_value addr_doc / 2 ^ 125) mod 2.
Proof.
  apply (in6_addr_get_bit_value addr_doc 2 eq_refl ltac:(lia)).
Defined.

(** ** The order of [in6_addr_cmp] *)

Lemma in6_addr_cmp_le a b :
  in6_addr_wf a = true -> in6_addr_wf b = true ->
  (in6_addr_cmp a b <= 0 <-> in6_addr_value a <= in6_addr_value b).
Proof.
  intros Ha Hb.
  rewrite in6_addr_cmp_bytes_cmp by (apply in6_addr_wf_length; assumption).
  rewrite bytes_cmp_compare
    by (try (apply in6_addr_wf_bytes; assumption);
        rewrite !in6_addr_wf_length by assumption; reflexivity).
  unfold in6_addr_value.
  destruct (Z.compare_spec (be_decode a) (be_decode b)); cbn [cmp_sign]; lia.
Qed.

(** X3: [in6_addr_cmp a b <= 0] is a total order on addresses: it is
    reflexive, any two addresses compare one way or the other, it is
    transitive, and two addresses that compare both ways are the same
    sixteen bytes. *)
Theorem in6_addr_cmp_order (a b c : in6_addr)
    (Ha : in6_addr_wf a = true) (Hb : in6_addr_wf b = true)
    (Hc : in6_addr_wf c = true) :
  in6_addr_cmp a a = 0
  /\ (in6_addr_cmp a b <= 0 \/ in6_addr_cmp b a <= 0)
  /\ (in6_addr_cmp a b <= 0 -> in6_addr_cmp b c <= 0 ->
      in6_addr_cmp a c <= 0)
  /\ (in6_addr_cmp a b <= 0 -> in6_addr_cmp b a <= 0 -> a = b).
Proof.
  rewrite !in6_addr_cmp_le by assumption.
  split; [|split; [lia|split; [lia|]]].
  - pose proof (proj2 (in6_addr_cmp_le a a Ha Ha) (Z.le_refl _)) as H1.
    rewrite in6_addr_cmp_bytes_cmp in *
      by (apply in6_addr_wf_length; assumption).
    rewrite bytes_cmp_compare in *
      by (try (apply in6_addr_wf_bytes; assumption); reflexivity).
    rewrite Z.compare_refl. reflexivity.
  - intros H1 H2. apply be_decode_inj.
    + rewrite !in6_addr_wf_length by assumption. reflexivity.
    + apply in6_addr_wf_bytes, Ha.
    + apply in6_addr_wf_bytes, Hb.
    + unfold in6_addr_value in *. lia.
Qed.

Lemma in6_addr_cmp_order_witness :
  in6_addr_cmp addr_lo addr_hi <= 0 \/ in6_addr_cmp addr_hi addr_lo <= 0.
Proof.
  apply (in6_addr_cmp_order addr_lo addr_hi addr_doc eq_refl eq_refl eq_refl).
Defined.

(** ** The value of a mask *)

Lemma bitmask_values_checked :
  forallb (fun p => in6_addr_value (loc_prefix_to_bitmask p)
                    =? 2 ^ 128 - 2 ^ (128 - p)) (z_range 129) = true.
Proof. vm_compute. reflexivity. Qed.

Lemma loc_prefix_to_bitmask_value p :
  0 <= p <= 128 ->
  in6_addr_value (loc_prefix_to_bitmask p) = 2 ^ 128 - 2 ^ (128 - p).
Proof.
  intros Hp.
  pose proof (z_range_forallb 129 _ bitmask_values_checked p ltac:(lia)) as H.
  cbv beta in H. apply Z.eqb_eq in H. exact H.
Qed.

(** X4: whatever the sixteen bytes of the uninitialised local are when
    [loc_prefix_to_bitmask] is entered, the mask it returns for prefix
    length [p], read as a 128-bit integer, is [2 ^ 128 - 2 ^ (128 - p)]; so
    a longer prefix never gives a smaller mask under [in6_addr_cmp], and a
    strictly longer prefix gives a strictly greater one. *)
Theorem loc_prefix_to_bitmask_monotone (stack stack' : in6_addr) (p q : Z)
    (Hstack : length stack = 16%nat) (Hstack' : length stack' = 16%nat)
    (Hp : 0 <= p <= q) (Hq : q <= 128) :
  let mask_p := loc_prefix_to_bitmask_from stack p in
  let mask_q := loc_prefix_to_bitmask_from stack' q in
  in6_addr_value mask_p = 2 ^ 128 - 2 ^ (128 - p)
  /\ in6_addr_cmp mask_p mask_q <= 0
  /\ (p < q -> in6_addr_cmp mask_p mask_q = -1).
Proof.
  cbv zeta.
  rewrite (loc_prefix_to_bitmask_any_stack stack p Hstack).
  rewrite (loc_prefix_to_bitmask_any_stack stack' q Hstack').
  pose proof (loc_prefix_to_bitmask_value p ltac:(lia)) as Vp.
  pose proof (loc_prefix_to_bitmask_value q ltac:(lia)) as Vq.
  pose proof (loc_prefix_to_bitmask_wf p ltac:(lia)) as Wp.
  pose proof (loc_prefix_to_bitmask_wf q ltac:(lia)) as Wq.
  assert (Hpow : p < q -> 2 ^ (128 - q) < 2 ^ (128 - p))
    by (intros; apply Z.pow_lt_mono_r; lia).
  assert (Hpow' : 2 ^ (128 - q) <= 2 ^ (128 - p))
    by (apply Z.pow_le_mono_r; lia).
  split; [exact Vp|]. split.
  - apply in6_addr_cmp_le; [assumption..|]. lia.
  - intros Hlt. specialize (Hpow Hlt).
    rewrite in6_addr_cmp_bytes_cmp by (apply in6_addr_wf_length; assumption).
    rewrite bytes_cmp_compare
      by (try (apply in6_addr_wf_bytes; assumption);
          rewrite !in6_addr_wf_length by assumption; reflexivity).
    unfold in6_addr_value in *. rewrite Vp, Vq.
    rewrite (proj2 (Z.compare_lt_iff _ _)) by lia. reflexivity.
Qed.

Lemma loc_prefix_to_bitmask_monotone_witness :
  in6_addr_cmp (loc_prefix_to_bitmask_from addr_doc 8)
               (loc_prefix_to_bitmask_from (repeat 0xff 16) 24) = -1.
Proof.
  apply (loc_prefix_to_bitmask_monotone addr_doc (repeat 0xff 16) 8 24
           eq_refl eq_refl ltac:(lia) ltac:(lia)).
  lia.
Defined.

(** ** Network and broadcast address as numbers *)

Lemma value_range a :
  in6_addr_wf a = true -> 0 <= in6_addr_value a < 2 ^ 128.
Proof.
  intros Ha. unfold in6_addr_value.
  pose proof (be_decode_range a (in6_addr_wf_bytes a Ha)) as R.
  rewrite (in6_addr_wf_length a Ha) in R.
  change (256 ^ Z.of_nat 16) with (2 ^ 128) in R. exact R.
Qed.

Lemma value_bits_high a k :
  in6_addr_wf a = true -> 128 <= k -> Z.testbit (in6_addr_value a) k = false.
Proof.
  intros Ha Hk. apply be_decode_bits_high; [apply in6_addr_wf_bytes, Ha|].
  rewrite (in6_addr_wf_length a Ha). lia.
Qed.

Lemma bytewise_wf f A M :
  (forall a m, 0 <= a < 256 -> 0 <= m < 256 -> 0 <= f a m < 256) ->
  in6_addr_wf A = true -> in6_addr_wf M = true ->
  in6_addr_wf (bytewise f A M) = true.
Proof.
  intros Hf HA HM. apply in6_addr_wf_intro.
  - rewrite bytewise_length; rewrite !in6_addr_wf_length by assumption;
      reflexivity.
  - apply bytewise_bytes; [exact Hf | |]; apply in6_addr_wf_bytes; assumption.
Qed.

Lemma land_byte a m : 0 <= a < 256 -> 0 <= m < 256 -> 0 <= Z.land a m < 256.
Proof.
  intros Ha Hm. pose proof (land_le_l a m ltac:(lia)).
  assert (0 <= Z.land a m) by (apply Z.land_nonneg; lia). lia.
Qed.

Lemma lor_not_byte a m :
  0 <= a < 256 -> 0 <= m < 256 -> 0 <= Z.lor a (Z.lxor m 0xff) < 256.
Proof. intros Ha Hm. apply lor_byte; [exact Ha | apply lxor_byte, Hm]. Qed.

(** Bit [k] of a byte-wise combination of two addresses. *)
Lemma value_bytewise_testbit f A M k :
  (forall a m, 0 <= a < 256 -> 0 <= m < 256 -> 0 <= f a m < 256) ->
  in6_addr_wf A = true -> in6_addr_wf M = true -> 0 <= k < 128 ->
  Z.testbit (in6_addr_value (bytewise f A M)) k
  = Z.testbit (f (s6_addr A (15 - k / 8)) (s6_addr M (15 - k / 8))) (k mod 8).
Proof.
  intros Hf HA HM Hk.
  rewrite in6_addr_value_testbit by (try apply bytewise_wf; assumption).
  assert (0 <= k / 8 < 16) by (Z.to_euclidean_division_equations; lia).
  rewrite s6_addr_bytewise
    by (try (apply in6_addr_wf_length; assumption); lia).
  reflexivity.
Qed.

Lemma value_bytewise_land A M :
  in6_addr_wf A = true -> in6_addr_wf M = true ->
  in6_addr_value (bytewise Z.land A M)
  = Z.land (in6_addr_value A) (in6_addr_value M).
Proof.
  intros HA HM. apply Z.bits_inj'. intros k Hk. rewrite Z.land_spec.
  destruct (Z.lt_ge_cases k 128) as [Hlow|Hhigh].
  - rewrite value_bytewise_testbit by (try apply land_byte; assumption || lia).
    rewrite Z.land_spec, !in6_addr_value_testbit by (assumption || lia).
    reflexivity.
  - rewrite !value_bits_high
      by (try apply bytewise_wf; try apply land_byte; assumption).
    reflexivity.
Qed.

Lemma value_bytewise_lor_not A M :
  in6_addr_wf A = true -> in6_addr_wf M = true ->
  in6_addr_value (bytewise (fun a m => Z.lor a (Z.lxor m 0xff)) A M)
  = Z.lor (in6_addr_value A) (Z.lxor (in6_addr_value M) (Z.ones 128)).
Proof.
  intros HA HM. apply Z.bits_inj'. intros k Hk.
  rewrite Z.lor_spec, Z.lxor_spec.
  destruct (Z.lt_ge_cases k 128) as [Hlow|Hhigh].
  - rewrite value_bytewise_testbit
      by (try (intros; apply lor_not_byte); assumption || lia).
    rewrite Z.lor_spec, Z.lxor_spec,
      !in6_addr_value_testbit by (assumption || lia).
    rewrite testbit_low_byte by (pose proof (Z.mod_pos_bound k 8); lia).
    rewrite Z.ones_spec_low by lia. reflexivity.
  - rewrite !value_bits_high
      by (try apply bytewise_wf; try (intros; apply lor_not_byte); assumption).
    rewrite Z.ones_spec_high by lia. reflexivity.
Qed.

Lemma prefix_mask_shape k :
  0 <= k <= 128 -> 2 ^ 128 - 2 ^ k = Z.shiftl (Z.ones (128 - k)) k.
Proof.
  intros Hk. rewrite Z.shiftl_mul_pow2, Z.ones_equiv by lia.
  rewrite <- Z.sub_1_r, Z.mul_sub_distr_r, <- Z.pow_add_r by lia.
  replace (128 - k + k) with 128 by ring. ring.
Qed.

Lemma prefix_mask_testbit k j :
  0 <= k <= 128 -> 0 <= j ->
  Z.testbit (2 ^ 128 - 2 ^ k) j = (k <=? j) && (j <? 128).
Proof.
  intros Hk Hj. rewrite prefix_mask_shape by lia.
  destruct (Z.lt_ge_cases j k) as [Hlt|Hge].
  - rewrite Z.shiftl_spec_low by lia.
    destruct (Z.leb_spec k j); [lia | reflexivity].
  - rewrite Z.shiftl_spec by lia. rewrite Z.testbit_ones_nonneg by lia.
    destruct (Z.leb_spec k j); [|lia].
    destruct (Z.ltb_spec (j - k) (128 - k)), (Z.ltb_spec j 128);
      try lia; reflexivity.
Qed.

Lemma land_prefix_mask x k :
  0 <= x < 2 ^ 128 -> 0 <= k <= 128 ->
  Z.land x (2 ^ 128 - 2 ^ k) = x - x mod 2 ^ k.
Proof.
  intros Hx Hk.
  assert (E : x - x mod 2 ^ k = Z.ldiff x (Z.ones k)).
  { rewrite Z.ldiff_ones_r, Z.shiftl_mul_pow2, Z.shiftr_div_pow2 by lia.
    pose proof (Z.div_mod x (2 ^ k) ltac:(lia)). lia. }
  rewrite E. apply Z.bits_inj'. intros j Hj.
  rewrite Z.land_spec, Z.ldiff_spec, prefix_mask_testbit by lia.
  rewrite Z.testbit_ones_nonneg by lia.
  assert (Hhigh : 128 <= j -> Z.testbit x j = false).
  { intros H. destruct (Z.eq_dec x 0) as [->|Hz]; [apply Z.bits_0|].
    apply Z.bits_above_log2; [lia|].
    assert (Z.log2 x < 128) by (apply Z.log2_lt_pow2; lia). lia. }
  destruct (Z.leb_spec k j), (Z.ltb_spec j k), (Z.ltb_spec j 128);
    try lia; cbn [andb negb]; rewrite ?andb_false_r, ?andb_true_r;
    try reflexivity.
  symmetry. apply Hhigh. lia.
Qed.

Lemma lor_prefix_mask_not x k :
  0 <= x < 2 ^ 128 -> 0 <= k <= 128 ->
  Z.lor x (Z.lxor (2 ^ 128 - 2 ^ k) (Z.ones 128))
  = x - x mod 2 ^ k + 2 ^ k - 1.
Proof.
  intros Hx Hk.
  assert (E : x - x mod 2 ^ k = Z.ldiff x (Z.ones k)).
  { rewrite Z.ldiff_ones_r, Z.shiftl_mul_pow2, Z.shiftr_div_pow2 by lia.
    pose proof (Z.div_mod x (2 ^ k) ltac:(lia)). lia. }
  assert (L : Z.lor x (Z.lxor (2 ^ 128 - 2 ^ k) (Z.ones 128))
              = Z.lor (Z.ldiff x (Z.ones k)) (Z.ones k)).
  { apply Z.bits_inj'. intros j Hj.
    rewrite !Z.lor_spec, Z.lxor_spec, Z.ldiff_spec, prefix_mask_testbit by lia.
    rewrite !Z.testbit_ones_nonneg by lia.
    destruct (Z.leb_spec k j), (Z.ltb_spec j k), (Z.ltb_spec j 128);
      try lia; destruct (Z.testbit x j); reflexivity. }
  rewrite L, E.
  pose proof (Z.add_lor_land (Z.ldiff x (Z.ones k)) (Z.ones k)) as H.
  rewrite Z.land_ldiff in H. rewrite Z.ones_equiv in *. lia.
Qed.

Lemma first_last_values e A p :
  in6_addr_wf A = true -> 0 <= p <= 128 ->
  in6_addr_value (loc_address_and e A (loc_prefix_to_bitmask p))
  = in6_addr_value A - in6_addr_value A mod 2 ^ (128 - p)
  /\ in6_addr_value (loc_address_or e A (loc_prefix_to_bitmask p))
     = in6_addr_value A - in6_addr_value A mod 2 ^ (128 - p)
       + 2 ^ (128 - p) - 1.
Proof.
  intros HA Hp.
  pose proof (loc_prefix_to_bitmask_wf p Hp) as HM.
  pose proof (loc_prefix_to_bitmask_value p Hp) as VM.
  pose proof (value_range A HA) as RA.
  rewrite loc_address_and_bytewise, loc_address_or_bytewise by assumption.
  rewrite value_bytewise_land, value_bytewise_lor_not by assumption.
  rewrite VM, land_prefix_mask, lor_prefix_mask_not by lia.
  split; reflexivity.
Qed.

(** X5: with the mask [M] of prefix length [p], [loc_address_and A M] is the
    address [A] rounded down to a multiple of [2 ^ (128 - p)], and
    [loc_address_or A M] lies exactly [2 ^ (128 - p) - 1] above it: first
    and last address delimit a block of [2 ^ (128 - p)] addresses, on
    either host byte order. *)
Theorem network_range (e : byte_order) (A : in6_addr) (p : Z)
    (HA : in6_addr_wf A = true) (Hp : 0 <= p <= 128) :
  let M := loc_prefix_to_bitmask p in
  let size := 2 ^ (128 - p) in
  in6_addr_value (loc_address_and e A M)
  = in6_addr_value A - in6_addr_value A mod size
  /\ in6_addr_value (loc_address_or e A M)
     = in6_addr_value (loc_address_and e A M) + size - 1.
Proof.
  cbv zeta.
  destruct (first_last_values e A p HA Hp) as [Hfirst Hlast].
  split; [exact Hfirst|].
  rewrite Hlast, Hfirst. reflexivity.
Qed.

Lemma network_range_witness :
  in6_addr_value (loc_address_or BigEndian addr_doc (loc_prefix_to_bitmask 32))
  = in6_addr_value
      (loc_address_and BigEndian addr_doc (loc_prefix_to_bitmask 32))
    + 2 ^ 96 - 1.
Proof.
  apply (network_range BigEndian addr_doc 32 eq_refl ltac:(lia)).
Defined.

(** ** Membership in a network *)

Lemma in6_addr_value_inj a b :
  in6_addr_wf a = true -> in6_addr_wf b = true ->
  in6_addr_value a = in6_addr_value b -> a = b.
Proof.
  intros Ha Hb E. apply be_decode_inj.
  - rewrite !in6_addr_wf_length by assumption. reflexivity.
  - apply in6_addr_wf_bytes, Ha.
  - apply in6_addr_wf_bytes, Hb.
  - exact E.
Qed.

Lemma in6_addr_get_bit_value_bit a i :
  in6_addr_wf a = true -> 0 <= i < 128 ->
  in6_addr_get_bit a i = Z.b2z (Z.testbit (in6_addr_value a) (127 - i)).
Proof.
  intros Ha Hi. rewrite in6_addr_get_bit_testbit by lia.
  rewrite in6_addr_value_testbit by (assumption || lia).
  assert ((127 - i) / 8 = 15 - i / 8 /\ (127 - i) mod 8 = 7 - i mod 8)
    as [-> ->] by (Z.to_euclidean_division_equations; lia).
  do 3 f_equal. lia.
Qed.

(** Two addresses with the same 128 bits are the same address. *)
Lemma in6_addr_bits_ext a b :
  in6_addr_wf a = true -> in6_addr_wf b = true ->
  (forall i, 0 <= i < 128 -> in6_addr_get_bit a i = in6_addr_get_bit b i) ->
  a = b.
Proof.
  intros Ha Hb H. apply be_decode_inj.
  - rewrite !in6_addr_wf_length by assumption. reflexivity.
  - apply in6_addr_wf_bytes, Ha.
  - apply in6_addr_wf_bytes, Hb.
  - apply Z.bits_inj'. intros k Hk.
    destruct (Z.lt_ge_cases k 128) as [Hlow|Hhigh].
    + specialize (H (127 - k) ltac:(lia)).
      rewrite !in6_addr_get_bit_value_bit in H by (assumption || lia).
      replace (127 - (127 - k)) with k in H by ring.
      unfold in6_addr_value in H.
      destruct (Z.testbit (be_decode a) k), (Z.testbit (be_decode b) k);
        cbn [Z.b2z] in H; congruence.
    + pose proof (value_bits_high a k Ha Hhigh).
      pose proof (value_bits_high b k Hb Hhigh).
      unfold in6_addr_value in *. congruence.
Qed.

Lemma loc_address_and_wf e A M :
  in6_addr_wf A = true -> in6_addr_wf M = true ->
  in6_addr_wf (loc_address_and e A M) = true.
Proof.
  intros HA HM. rewrite loc_address_and_bytewise by assumption.
  apply bytewise_wf; [apply land_byte | assumption..].
Qed.

Lemma loc_address_or_wf e A M :
  in6_addr_wf A = true -> in6_addr_wf M = true ->
  in6_addr_wf (loc_address_or e A M) = true.
Proof.
  intros HA HM. rewrite loc_address_or_bytewise by assumption.
  apply bytewise_wf; [intros; apply lor_not_byte | ..]; assumption.
Qed.

(** Bit [i] of the first address of a network. *)
Lemma loc_address_and_mask_bit e A p i :
  in6_addr_wf A = true -> 0 <= p <= 128 -> 0 <= i < 128 ->
  in6_addr_get_bit (loc_address_and e A (loc_prefix_to_bitmask p)) i
  = if i <? p then in6_addr_get_bit A i else 0.
Proof.
  intros HA Hp Hi.
  pose proof (loc_prefix_to_bitmask_wf p Hp) as HM.
  pose proof (loc_prefix_to_bitmask_bit p i Hp Hi) as Hbit.
  rewrite loc_address_and_bytewise by assumption.
  rewrite !in6_addr_get_bit_testbit in * by lia.
  assert (0 <= i / 8 < 16) by (Z.to_euclidean_division_equations; lia).
  rewrite s6_addr_bytewise
    by (try (apply in6_addr_wf_length; assumption); lia).
  rewrite Z.land_spec.
  destruct (Z.testbit (s6_addr (loc_prefix_to_bitmask p) (i / 8))
              (7 - i mod 8)), (i <? p); cbn [Z.b2z] in Hbit; try discriminate;
    rewrite ?andb_true_r, ?andb_false_r; reflexivity.
Qed.

Lemma same_block x y s :
  0 < s ->
  (x - x mod s <= y <= x - x mod s + s - 1 <-> y - y mod s = x - x mod s).
Proof.
  intros Hs.
  pose proof (Z.div_mod x s ltac:(lia)) as Ex.
  pose proof (Z.div_mod y s ltac:(lia)) as Ey.
  pose proof (Z.mod_pos_bound x s Hs) as Bx.
  pose proof (Z.mod_pos_bound y s Hs) as By.
  replace (x - x mod s) with (s * (x / s)) by lia.
  replace (y - y mod s) with (s * (y / s)) by lia.
  split.
  - intros [H1 H2]. f_equal.
    assert (x / s <= y / s) by (apply Z.div_le_lower_bound; lia).
    assert (y / s < x / s + 1) by (apply Z.div_lt_upper_bound; lia).
    lia.
  - intros E. rewrite <- E. lia.
Qed.

(** X6: for the network of [A] with prefix length [p], an address [B] lies
    between the first and the last address in the order of [in6_addr_cmp]
    exactly when masking [B] with [loc_address_and] gives the first address,
    and exactly when [B] agrees with [A] on the first [p] bits. *)
Theorem network_membership (e : byte_order) (A B : in6_addr) (p : Z)
    (HA : in6_addr_wf A = true) (HB : in6_addr_wf B = true)
    (Hp : 0 <= p <= 128) :
  let M := loc_prefix_to_bitmask p in
  let first := loc_address_and e A M in
  let last := loc_address_or e A M in
  ((in6_addr_cmp first B <= 0 /\ in6_addr_cmp B last <= 0)
   <-> loc_address_and e B M = first)
  /\ (loc_address_and e B M = first
      <-> forall i, 0 <= i < p ->
            in6_addr_get_bit B i = in6_addr_get_bit A i).
Proof.
  cbv zeta.
  pose proof (loc_prefix_to_bitmask_wf p Hp) as HM.
  pose proof (loc_address_and_wf e A _ HA HM) as Wf.
  pose proof (loc_address_or_wf e A _ HA HM) as Wl.
  pose proof (loc_address_and_wf e B _ HB HM) as WB.
  destruct (first_last_values e A p HA Hp) as [VfA VlA].
  destruct (first_last_values e B p HB Hp) as [VfB _].
  cbv zeta in VfA, VlA, VfB.
  assert (Hpow : 0 < 2 ^ (128 - p)) by (apply Z.pow_pos_nonneg; lia).
  remember (loc_prefix_to_bitmask p) as M eqn:EM.
  remember (loc_address_and e A M) as first eqn:Efirst.
  remember (loc_address_or e A M) as last eqn:Elast.
  remember (loc_address_and e B M) as firstB eqn:EfirstB.
  split.
  - rewrite !in6_addr_cmp_le by assumption. rewrite VlA, VfA.
    rewrite (same_block (in6_addr_value A) (in6_addr_value B)
               (2 ^ (128 - p)) Hpow).
    rewrite <- VfB, <- VfA.
    split.
    + intros E. apply in6_addr_value_inj; assumption.
    + intros E. rewrite E. reflexivity.
  - split.
    + intros E i Hi.
      pose proof (loc_address_and_mask_bit e B p i HB Hp ltac:(lia)) as H1.
      pose proof (loc_address_and_mask_bit e A p i HA Hp ltac:(lia)) as H2.
      rewrite <- EM in H1, H2. rewrite <- EfirstB in H1.
      rewrite <- Efirst in H2. rewrite E in H1.
      destruct (Z.ltb_spec i p); [congruence | lia].
    + intros H. apply in6_addr_bits_ext; [assumption..|]. intros i Hi.
      rewrite EfirstB, Efirst, EM.
      rewrite !loc_address_and_mask_bit by assumption.
      destruct (Z.ltb_spec i p); [apply H; lia | reflexivity].
Qed.

Lemma network_membership_witness :
  loc_address_and LittleEndian addr_lo (loc_prefix_to_bitmask 32)
  = loc_address_and LittleEndian addr_doc (loc_prefix_to_bitmask 32).
Proof.
  destruct (network_membership LittleEndian addr_doc addr_lo 32
              eq_refl eq_refl ltac:(lia)) as [H _].
  apply H. split; vm_compute; discriminate.
Defined.

(** ** Applying a mask twice *)

Lemma bytewise_compose (f g h : Z -> Z -> Z) A : forall M,
  (forall a m, 0 <= a < 256 -> 0 <= m < 256 -> f (g a m) m = h a m) ->
  bytes A -> bytes M ->
  bytewise f (bytewise g A M) M = bytewise h A M.
Proof.
  unfold bytes. induction A as [|a A IH]; intros [|m M] H HA HM;
    cbn [bytewise]; try reflexivity.
  apply Forall_cons_iff in HA. apply Forall_cons_iff in HM.
  destruct HA as [Ha HA], HM as [Hm HM].
  rewrite H by assumption. f_equal. apply IH; assumption.
Qed.

Lemma land_lor_not_byte a m :
  0 <= m < 256 -> Z.land (Z.lor a (Z.lxor m 0xff)) m = Z.land a m.
Proof.
  intros Hm. apply Z.bits_inj'. intros n Hn.
  rewrite !Z.land_spec, Z.lor_spec, Z.lxor_spec.
  destruct (Z.lt_ge_cases n 8) as [Hlow|Hhigh].
  - rewrite testbit_low_byte by lia.
    destruct (Z.testbit a n), (Z.testbit m n); reflexivity.
  - rewrite (testbit_byte_high m n) by lia.
    rewrite !andb_false_r. reflexivity.
Qed.

Lemma lor_not_land_byte a m :
  0 <= a < 256 -> 0 <= m < 256 ->
  Z.lor (Z.land a m) (Z.lxor m 0xff) = Z.lor a (Z.lxor m 0xff).
Proof.
  intros Ha Hm. apply Z.bits_inj'. intros n Hn.
  rewrite !Z.lor_spec, Z.land_spec, Z.lxor_spec.
  destruct (Z.lt_ge_cases n 8) as [Hlow|Hhigh].
  - rewrite testbit_low_byte by lia.
    destruct (Z.testbit a n), (Z.testbit m n); reflexivity.
  - rewrite (testbit_byte_high m n), (testbit_byte_high a n) by lia.
    reflexivity.
Qed.

(** X7: for any mask [M], prefix-shaped or not, applying [loc_address_and]
    or [loc_address_or] a second time changes nothing, and each of the two
    results is recovered from the other: the first address of the last
    address is the first address, and the last of the first is the last. *)
Theorem loc_address_and_or_compose (e : byte_order) (A M : in6_addr)
    (HA : in6_addr_wf A = true) (HM : in6_addr_wf M = true) :
  let first := loc_address_and e A M in
  let last := loc_address_or e A M in
  loc_address_and e first M = first
  /\ loc_address_or e last M = last
  /\ loc_address_and e last M = first
  /\ loc_address_or e first M = last.
Proof.
  cbv zeta.
  pose proof (loc_address_and_wf e A M HA HM) as Wf.
  pose proof (loc_address_or_wf e A M HA HM) as Wl.
  pose proof (in6_addr_wf_bytes A HA) as BA.
  pose proof (in6_addr_wf_bytes M HM) as BM.
  rewrite (loc_address_and_bytewise e (loc_address_and e A M) M),
    (loc_address_and_bytewise e (loc_address_or e A M) M),
    (loc_address_or_bytewise e (loc_address_and e A M) M),
    (loc_address_or_bytewise e (loc_address_or e A M) M) by assumption.
  rewrite !(loc_address_and_bytewise e A M), !(loc_address_or_bytewise e A M)
    by assumption.
  repeat split; apply bytewise_compose; try assumption; intros a m Ha Hm.
  - rewrite <- Z.land_assoc, Z.land_diag. reflexivity.
  - rewrite <- Z.lor_assoc, Z.lor_diag. reflexivity.
  - apply land_lor_not_byte, Hm.
  - apply lor_not_land_byte; assumption.
Qed.

Lemma loc_address_and_or_compose_witness :
  loc_address_and LittleEndian
    (loc_address_or LittleEndian addr_doc (loc_prefix_to_bitmask 32))
    (loc_prefix_to_bitmask 32)
  = loc_address_and LittleEndian addr_doc (loc_prefix_to_bitmask 32).
Proof.
  apply (loc_address_and_or_compose LittleEndian addr_doc
           (loc_prefix_to_bitmask 32) eq_refl eq_refl).
Defined.

(** ** Nested prefixes *)

Lemma loc_prefix_to_bitmask_testbit p i :
  0 <= p <= 128 -> 0 <= i < 128 ->
  Z.testbit (s6_addr (loc_prefix_to_bitmask p) (i / 8)) (7 - i mod 8)
  = (i <? p).
Proof.
  intros Hp Hi. pose proof (loc_prefix_to_bitmask_bit p i Hp Hi) as H.
  rewrite in6_addr_get_bit_testbit in H by lia.
  destruct (Z.testbit _ _), (i <? p); cbn [Z.b2z] in H; congruence.
Qed.

Lemma bitmask_nesting p q :
  0 <= p <= 128 -> 0 <= q <= 128 ->
  bytewise Z.land (loc_prefix_to_bitmask p) (loc_prefix_to_bitmask q)
  = loc_prefix_to_bitmask (Z.min p q).
Proof.
  intros Hp Hq.
  pose proof (loc_prefix_to_bitmask_wf p Hp) as Wp.
  pose proof (loc_prefix_to_bitmask_wf q Hq) as Wq.
  pose proof (loc_prefix_to_bitmask_wf (Z.min p q) ltac:(lia)) as Wm.
  apply in6_addr_bits_ext;
    [apply bytewise_wf; [apply land_byte | assumption..] | exact Wm |].
  intros i Hi. rewrite !in6_addr_get_bit_testbit by lia.
  assert (0 <= i / 8 < 16) by (Z.to_euclidean_division_equations; lia).
  rewrite s6_addr_bytewise
    by (try (apply in6_addr_wf_length; assumption); lia).
  rewrite Z.land_spec, !loc_prefix_to_bitmask_testbit by lia.
  destruct (Z.ltb_spec i p), (Z.ltb_spec i q), (Z.ltb_spec i (Z.min p q));
    try lia; reflexivity.
Qed.

Lemma bytewise_land_assoc A : forall M N,
  bytewise Z.land (bytewise Z.land A M) N
  = bytewise Z.land A (bytewise Z.land M N).
Proof.
  induction A as [|a A IH]; intros [|m M] [|n N]; cbn [bytewise];
    try reflexivity.
  rewrite Z.land_assoc. f_equal. apply IH.
Qed.

(** X8: masking an address with the mask of prefix length [p] and then
    with that of prefix length [q] is masking it once with the mask of the
    shorter of the two prefix lengths. *)
Theorem loc_address_and_nested (e : byte_order) (A : in6_addr) (p q : Z)
    (HA : in6_addr_wf A = true) (Hp : 0 <= p <= 128) (Hq : 0 <= q <= 128) :
  loc_address_and e (loc_address_and e A (loc_prefix_to_bitmask p))
    (loc_prefix_to_bitmask q)
  = loc_address_and e A (loc_prefix_to_bitmask (Z.min p q)).
Proof.
  pose proof (loc_prefix_to_bitmask_wf p Hp) as Wp.
  pose proof (loc_prefix_to_bitmask_wf q Hq) as Wq.
  pose proof (loc_prefix_to_bitmask_wf (Z.min p q) ltac:(lia)) as Wm.
  pose proof (loc_address_and_wf e A _ HA Wp) as W1.
  rewrite (loc_address_and_bytewise e _ (loc_prefix_to_bitmask q))
    by assumption.
  rewrite !(loc_address_and_bytewise e A) by assumption.
  rewrite bytewise_land_assoc, bitmask_nesting by assumption. reflexivity.
Qed.

Lemma loc_address_and_nested_witness :
  loc_address_and BigEndian
    (loc_address_and BigEndian addr_doc (loc_prefix_to_bitmask 48))
    (loc_prefix_to_bitmask 32)
  = loc_address_and BigEndian addr_doc (loc_prefix_to_bitmask 32).
Proof.
  apply (loc_address_and_nested BigEndian addr_doc 48 32 eq_refl
           ltac:(lia) ltac:(lia)).
Defined.

(* ================================================================= *)
(** * Further properties of the database reader and its callers *)

(** ** Every outcome of opening a file *)

(** X9: [loc_database_new] on any file either returns 0 and hands out a
    database with reference count 1, version 0, its stream positioned
    behind the header and fewer than [2 ^ 29] AS records, or returns a
    non-zero value and leaves [*database] as it was.  It returns 1 exactly
    when nine bytes could be read and the magic does not match or the
    version is not 0; a file shorter than the magic, or a version-0 file
    shorter than magic and header, gives [-ENOMSG]; no return value is
    greater than 1. *)
Theorem loc_database_new_outcome (mmap_errno : mmap_oracle)
    (database : option Database.loc_database) (data : list Z) :
  let opened := Database.loc_database_new mmap_errno database (fopen data) in
  (fst opened <> 0 -> snd opened = database)
  /\ (fst opened = 0 ->
      snd opened = Some (opened_db data)
      /\ Database.refcount (opened_db data) = 1
      /\ Database.version (opened_db data) = 0
      /\ Database.file (opened_db data) = mkFILE data header_end
      /\ 0 <= Database.as_count (opened_db data) < 2 ^ 29)
  /\ (fst opened = 1
      <-> (magic_size <= length data)%nat
          /\ (~ has_magic data \/ version_of data <> 0))
  /\ ((length data < magic_size)%nat
      \/ (has_magic data /\ version_of data = 0
          /\ (length data < header_end)%nat) ->
      fst opened = - ENOMSG)
  /\ fst opened <= 1.
Proof.
  intros opened. subst opened. format_sizes. unfold ENOMSG.
  pose proof (opened_db_as_count data) as HN.
  destruct (Nat.lt_ge_cases (length data) 9) as [Hs|Hs].
  { rewrite loc_database_new_bad_magic by (left; exact Hs).
    destruct (Nat.ltb_spec (length data) 9); [|lia]. cbn [fst snd].
    unfold ENOMSG. intuition (try lia; try congruence). }
  destruct (list_eq_dec Z.eq_dec (firstn 7 data) Format.LOC_DATABASE_MAGIC)
    as [E|E].
  2:{ rewrite loc_database_new_bad_magic by (right; exact E).
      destruct (Nat.ltb_spec (length data) 9); [lia|]. cbn [fst snd].
      intuition (try lia; try congruence). }
  destruct (Z.eq_dec (version_of data) 0) as [Hv|Hv].
  2:{ rewrite loc_database_new_other_version by assumption. cbn [fst snd].
      intuition (try lia; try congruence). }
  destruct (Nat.lt_ge_cases (length data) 41) as [Hh|Hh].
  { rewrite loc_database_new_v0_short_header by (assumption || lia).
    cbn [fst snd]. unfold ENOMSG. intuition (try lia; try congruence). }
  rewrite loc_database_new_v0 by assumption.
  destruct (section_errno mmap_errno (after_header data)
              (as_offset_of data) (as_length_of data)) as [e|];
    cbn [fst snd]; intuition (try lia; try congruence).
Qed.

(** ** The search and its round budget *)

Lemma get_as_loop_S fuel db number lo hi as_ :
  Database.get_as_loop (S fuel) db number lo hi as_
  = if lo <=? hi
    then match Database.get_as_round db number lo hi as_ with
         | Fault => Some Fault
         | Val (Database.Return r a) => Some (Val (r, a))
         | Val (Database.Continue lo' hi' a) =>
             Database.get_as_loop fuel db number lo' hi' a
         end
    else Some (Val (0, As.Null)).
Proof. reflexivity. Qed.

Lemma get_as_loop_fuel_S db number : forall fuel lo hi as_ r,
  Database.get_as_loop fuel db number lo hi as_ = Some r ->
  Database.get_as_loop (S fuel) db number lo hi as_ = Some r.
Proof.
  induction fuel as [|fuel IH]; intros lo hi as_ r H.
  - cbn [Database.get_as_loop] in *.
    destruct (lo <=? hi); [discriminate H | exact H].
  - rewrite get_as_loop_S in H. rewrite get_as_loop_S.
    destruct (lo <=? hi); [|exact H].
    destruct (Database.get_as_round db number lo hi as_)
      as [[r' a|lo' hi' a]|]; try exact H.
    apply IH, H.
Qed.

Lemma get_as_loop_fuel_le db number fuel fuel' lo hi as_ r :
  (fuel <= fuel')%nat ->
  Database.get_as_loop fuel db number lo hi as_ = Some r ->
  Database.get_as_loop fuel' db number lo hi as_ = Some r.
Proof.
  induction 1 as [|n Hle IH]; intros H; [exact H|].
  apply get_as_loop_fuel_S, IH, H.
Qed.

Lemma get_as_enough_fuel db number as_ fuel :
  0 <= Database.as_count db < 2 ^ 64 ->
  Database.as_count db < 2 ^ Z.of_nat fuel ->
  exists r, Database.loc_database_get_as fuel db as_ number = Some r.
Proof.
  intros Hcount Hf. unfold Database.loc_database_get_as.
  destruct (get_as_initial_hi (Database.as_count db) Hcount) as [Hsmall Hbig].
  destruct (Z.le_gt_cases (Database.as_count db) (2 ^ 63)) as [HN|HN].
  - rewrite (Hsmall HN). apply get_as_loop_terminates; lia.
  - specialize (Hbig HN).
    destruct fuel; cbn [Database.get_as_loop];
      (destruct (Z.leb_spec 0 (to_off_t (to_size_t (Database.as_count db - 1))));
       [lia | eexists; reflexivity]).
Qed.

(** X10: a database handed out by [loc_database_new] has fewer than
    [2 ^ 29] AS records, so the loop of [loc_database_get_as] ends within
    29 rounds on it for every number, and a larger round budget gives the
    same result. *)
Theorem opened_database_search_budget (mmap_errno : mmap_oracle)
    (database : option Database.loc_database) (data : list Z)
    (db : Database.loc_database) (number : Z) (as_ : As.loc_as_ptr)
    (Hopen : Database.loc_database_new mmap_errno database (fopen data)
             = (0, Some db)) :
  0 <= Database.as_count db < 2 ^ 29
  /\ exists r,
       Database.loc_database_get_as 29 db as_ number = Some r
       /\ forall fuel, (29 <= fuel)%nat ->
            Database.loc_database_get_as fuel db as_ number = Some r.
Proof.
  apply loc_database_new_success in Hopen.
  destruct Hopen as (_ & _ & _ & _ & ->).
  pose proof (opened_db_as_count data) as HN.
  split; [exact HN|].
  destruct (get_as_enough_fuel (opened_db data) number as_ 29 ltac:(lia))
    as [r Hr]; [change (Z.of_nat 29) with 29; lia|].
  exists r. split; [exact Hr|].
  intros fuel Hf. unfold Database.loc_database_get_as in *.
  eapply get_as_loop_fuel_le; [exact Hf | exact Hr].
Qed.

Lemma opened_database_search_budget_witness :
  exists r,
    Database.loc_database_get_as 29 (opened_db (sample_db 0)) As.Null 65001
    = Some r.
Proof.
  assert (Hopen : Database.loc_database_new linux_mmap_errno None
                    (fopen (sample_db 0))
                  = (0, Some (opened_db (sample_db 0))))
    by (vm_compute; reflexivity).
  destruct (opened_database_search_budget linux_mmap_errno None (sample_db 0)
              (opened_db (sample_db 0)) 65001 As.Null Hopen)
    as (_ & r & Hr & _).
  exists r. exact Hr.
Defined.

(** ** The search on a table in any order *)

Section AnyOrder.

Variable db : Database.loc_database.
Variable recs : list (Z * Z).
Variable number : Z.

Hypothesis Hversion : Database.version db = 0.
Hypothesis Hcount : Database.as_count db <= 2 ^ 62.
Hypothesis Htable : as_table db = map Val recs.

(** Whatever the order of the table, the search ends with [NULL] or with a
    record of the number asked for. *)
Lemma get_as_loop_sound : forall fuel lo hi as_ res,
  0 <= lo -> hi < Database.as_count db ->
  Database.get_as_loop fuel db number lo hi as_ = Some res ->
  res = Val (0, As.Null)
  \/ exists j, 0 <= j < Database.as_count db
       /\ fst (as_record recs j) = number
       /\ res = Val (0, As.Live (As.mk (Database.pool db) number
                                   (snd (as_record recs j)))).
Proof.
  induction fuel as [|fuel IH]; intros lo hi as_ res Hlo Hhi H;
    cbn [Database.get_as_loop] in H.
  - destruct (lo <=? hi); [discriminate H|]. left. congruence.
  - destruct (Z.leb_spec lo hi) as [Hlh|Hlh]; [|left; congruence].
    destruct (get_as_midpoint lo hi ltac:(lia) ltac:(lia)) as [Emid Hmid].
    unfold Database.get_as_round in H. rewrite Emid in H.
    set (i := (lo + hi) / 2) in *.
    rewrite (fetch_as_record db recs as_ i Hversion ltac:(lia) Htable
               ltac:(lia)) in H.
    fold (as_record recs i) in H.
    cbn [mem_bind negb Z.eqb As.loc_as_get_number As.number] in H.
    assert (Hi : i = (lo + hi) / 2) by reflexivity. clearbody i.
    destruct (Z.eqb_spec (fst (as_record recs i)) number) as [Heq|Hne].
    + right. exists i. split; [lia|]. split; [exact Heq|].
      injection H as <-. rewrite <- Heq.
      destruct (as_record recs i); reflexivity.
    + cbn [As.loc_as_unref] in H.
      destruct (fst (as_record recs i) <? number).
      * rewrite to_off_t_small in H
          by (Z.to_euclidean_division_equations; lia).
        apply IH in H; [exact H | lia | exact Hhi].
      * rewrite to_off_t_small in H
          by (Z.to_euclidean_division_equations; lia).
        apply IH in H; [exact H | exact Hlo | lia].
Qed.

Hypothesis Hsorted : StronglySorted Z.le (map fst recs).

Lemma record_number_le i j :
  0 <= i <= j -> j < Database.as_count db ->
  fst (as_record recs i) <= fst (as_record recs j).
Proof.
  intros Hi Hj. pose proof (as_table_length db recs Htable) as Hlen.
  destruct (Z.eq_dec i j) as [->|Hne]; [lia|].
  assert (H : forall l, StronglySorted Z.le l ->
              forall a b, (a < b < length l)%nat -> nth a l 0 <= nth b l 0).
  { induction 1 as [|x l Hs IH Hx]; intros a b Hab.
    - cbn [length] in Hab. lia.
    - destruct b as [|b]; [lia|]. cbn [length] in Hab.
      destruct a as [|a]; cbn [nth].
      + rewrite Forall_forall in Hx. apply Hx, nth_In. lia.
      + apply IH. lia. }
  specialize (H (map fst recs) Hsorted (Z.to_nat i) (Z.to_nat j)).
  rewrite length_map in H. specialize (H ltac:(lia)).
  change 0 with (fst (0, 0)) in H. rewrite !map_nth in H. exact H.
Qed.

(** On a table in ascending order, with repeats or not, a number that
    occurs between [lo] and [hi] is found. *)
Lemma get_as_loop_finds : forall fuel lo hi as_,
  0 <= lo -> hi < Database.as_count db ->
  hi - lo + 1 < 2 ^ Z.of_nat fuel ->
  (exists j, lo <= j <= hi /\ fst (as_record recs j) = number) ->
  exists j, lo <= j <= hi /\ fst (as_record recs j) = number
    /\ Database.get_as_loop fuel db number lo hi as_
       = Some (Val (0, As.Live (As.mk (Database.pool db) number
                                  (snd (as_record recs j))))).
Proof.
  induction fuel as [|fuel IH]; intros lo hi as_ Hlo Hhi Hw (j & Hj & Hk).
  - change (2 ^ Z.of_nat 0) with 1 in Hw. lia.
  - cbn [Database.get_as_loop].
    destruct (Z.leb_spec lo hi) as [Hlh|Hlh]; [|lia].
    destruct (get_as_midpoint lo hi ltac:(lia) ltac:(lia)) as [Emid Hmid].
    unfold Database.get_as_round. rewrite Emid.
    set (i := (lo + hi) / 2) in *.
    rewrite (fetch_as_record db recs as_ i Hversion ltac:(lia) Htable
               ltac:(lia)).
    fold (as_record recs i).
    cbn [mem_bind negb Z.eqb As.loc_as_get_number As.number].
    rewrite Nat2Z.inj_succ, Z.pow_succ_r in Hw by lia.
    assert (Hi : i = (lo + hi) / 2) by reflexivity. clearbody i.
    assert (Hup : hi - (i + 1) + 1 < 2 ^ Z.of_nat fuel)
      by (clear - Hw Hi Hlh; Z.to_euclidean_division_equations; lia).
    assert (Hdown : i - 1 - lo + 1 < 2 ^ Z.of_nat fuel)
      by (clear - Hw Hi Hlh; Z.to_euclidean_division_equations; lia).
    assert (Hi63 : - 2 ^ 63 <= i - 1 /\ i + 1 < 2 ^ 63) by lia.
    destruct (Z.eqb_spec (fst (as_record recs i)) number) as [Heq|Hne].
    + exists i. split; [lia|]. split; [exact Heq|].
      rewrite <- Heq. destruct (as_record recs i); reflexivity.
    + cbn [As.loc_as_unref].
      destruct (Z.ltb_spec (fst (as_record recs i)) number) as [Hlt|Hge].
      * rewrite to_off_t_small
          by (Z.to_euclidean_division_equations; lia).
        assert (i < j).
        { destruct (Z.lt_ge_cases i j) as [H|H]; [exact H|].
          pose proof (record_number_le j i ltac:(lia) ltac:(lia)). lia. }
        destruct (IH (i + 1) hi
                    (As.Released
                       (As.mk (Database.pool db) (fst (as_record recs i))
                          (snd (as_record recs i))))
                    ltac:(lia) Hhi Hup)
          as (j' & Hj' & Hk' & Hres);
          [exists j; split; [lia | exact Hk]|].
        exists j'. split; [lia|]. split; [exact Hk' | exact Hres].
      * rewrite to_off_t_small
          by (Z.to_euclidean_division_equations; lia).
        assert (j < i).
        { destruct (Z.lt_ge_cases j i) as [H|H]; [exact H|].
          pose proof (record_number_le i j ltac:(lia) ltac:(lia)). lia. }
        destruct (IH lo (i - 1)
                    (As.Released
                       (As.mk (Database.pool db) (fst (as_record recs i))
                          (snd (as_record recs i))))
                    Hlo ltac:(lia) Hdown)
          as (j' & Hj' & Hk' & Hres);
          [exists j; split; [lia | exact Hk]|].
        exists j'. split; [lia|]. split; [exact Hk' | exact Hres].
Qed.

End AnyOrder.

(** X11: on a version-0 database whose AS records are all readable, in
    whatever order they are, [loc_database_get_as] ends and returns 0 with
    [*as] either [NULL] or a live AS object whose number is the number
    asked for and whose name offset is that of a record of the table with
    this number.  It never returns an error, never faults, and never leaves
    in [*as] an object it has released. *)
Theorem get_as_any_order (db : Database.loc_database) (recs : list (Z * Z))
    (number : Z) (as_ : As.loc_as_ptr) (fuel : nat)
    (Hversion : Database.version db = 0)
    (Hcount : 0 <= Database.as_count db <= 2 ^ 62)
    (Htable : as_table db = map Val recs)
    (Hfuel : Database.as_count db < 2 ^ Z.of_nat fuel) :
  exists res,
    Database.loc_database_get_as fuel db as_ number = Some res
    /\ (res = Val (0, As.Null)
        \/ exists j, 0 <= j < Database.as_count db
             /\ fst (as_record recs j) = number
             /\ res = Val (0, As.Live (As.mk (Database.pool db) number
                                         (snd (as_record recs j))))).
Proof.
  destruct (get_as_enough_fuel db number as_ fuel ltac:(lia) Hfuel)
    as [res Hres].
  exists res. split; [exact Hres|].
  unfold Database.loc_database_get_as in Hres.
  destruct (get_as_initial_hi (Database.as_count db) ltac:(lia)) as [Hhi _].
  rewrite Hhi in Hres by lia.
  apply (get_as_loop_sound db recs number Hversion ltac:(lia) Htable
           fuel 0 (Database.as_count db - 1) as_ res); [lia | lia | exact Hres].
Qed.

Lemma get_as_any_order_witness :
  exists res,
    Database.loc_database_get_as 2 (opened_db (sample_db_with unsorted_as))
      As.Null 65002 = Some res
    /\ (res = Val (0, As.Null)
        \/ exists j, 0 <= j < 3
             /\ fst (as_record unsorted_records j) = 65002
             /\ res = Val (0, As.Live
                             (As.mk (Database.pool
                                       (opened_db (sample_db_with unsorted_as)))
                                    65002
                                    (snd (as_record unsorted_records j))))).
Proof.
  apply (get_as_any_order (opened_db (sample_db_with unsorted_as))
           unsorted_records 65002 As.Null 2);
    vm_compute; try reflexivity; split; discriminate.
Defined.

(** X12: on a table in ascending order in which numbers may repeat,
    [loc_database_get_as] finds every number the table holds, handing out
    one of the records with that number, and sets [*as] to [NULL] for every
    number the table does not hold. *)
Theorem get_as_repeated_numbers (db : Database.loc_database)
    (recs : list (Z * Z)) (number : Z) (as_ : As.loc_as_ptr) (fuel : nat)
    (Hversion : Database.version db = 0)
    (Hcount : 0 <= Database.as_count db <= 2 ^ 62)
    (Htable : as_table db = map Val recs)
    (Hsorted : StronglySorted Z.le (map fst recs))
    (Hfuel : Database.as_count db < 2 ^ Z.of_nat fuel) :
  ((exists j, 0 <= j < Database.as_count db
      /\ fst (as_record recs j) = number) ->
   exists j, 0 <= j < Database.as_count db
     /\ fst (as_record recs j) = number
     /\ Database.loc_database_get_as fuel db as_ number
        = Some (Val (0, As.Live (As.mk (Database.pool db) number
                                   (snd (as_record recs j))))))
  /\ ((forall j, 0 <= j < Database.as_count db ->
         fst (as_record recs j) <> number) ->
      Database.loc_database_get_as fuel db as_ number
      = Some (Val (0, As.Null))).
Proof.
  destruct (get_as_initial_hi (Database.as_count db) ltac:(lia)) as [Hhi _].
  split.
  - intros (j & Hj & Hk). unfold Database.loc_database_get_as.
    rewrite Hhi by lia.
    destruct (get_as_loop_finds db recs number Hversion ltac:(lia) Htable
                Hsorted fuel 0 (Database.as_count db - 1) as_
                ltac:(lia) ltac:(lia) ltac:(lia))
      as (j' & Hj' & Hk' & Hres); [exists j; split; [lia | exact Hk]|].
    exists j'. split; [lia|]. split; [exact Hk' | exact Hres].
  - intros Hnone.
    destruct (get_as_enough_fuel db number as_ fuel ltac:(lia) Hfuel)
      as [res Hres].
    rewrite Hres. f_equal.
    unfold Database.loc_database_get_as in Hres. rewrite Hhi in Hres by lia.
    destruct (get_as_loop_sound db recs number Hversion ltac:(lia) Htable
                fuel 0 (Database.as_count db - 1) as_ res
                ltac:(lia) ltac:(lia) Hres)
      as [H | (j & Hj & Hk & _)]; [exact H|].
    exfalso. exact (Hnone j Hj Hk).
Qed.

Lemma get_as_repeated_numbers_witness :
  exists j, 0 <= j < 3
    /\ fst (as_record repeated_records j) = 65001
    /\ Database.loc_database_get_as 2
         (opened_db (sample_db_with repeated_as)) As.Null 65001
       = Some (Val (0, As.Live
                      (As.mk (Database.pool
                                (opened_db (sample_db_with repeated_as)))
                             65001 (snd (as_record repeated_records j))))).
Proof.
  assert (Hsorted : StronglySorted Z.le (map fst repeated_records)).
  { repeat constructor; discriminate. }
  destruct (get_as_repeated_numbers (opened_db (sample_db_with repeated_as))
              repeated_records 65001 As.Null 2
              ltac:(vm_compute; reflexivity)
              ltac:(vm_compute; split; discriminate)
              ltac:(vm_compute; reflexivity)
              Hsorted
              ltac:(vm_compute; reflexivity)) as [Hfound _].
  apply Hfound. exists 0. vm_compute. repeat split; discriminate.
Defined.

(** ** Reference counting and release *)

Lemma to_int_small x : - 2 ^ 31 <= x < 2 ^ 31 -> to_int x = x.
Proof. intros H. unfold to_int. rewrite Z.mod_small; lia. Qed.

Lemma set_refcount_same db :
  set_refcount db (Database.refcount db) = db.
Proof. destruct db; reflexivity. Qed.

(** X13: for a database with a reference count from 1 to [INT_MAX - 1],
    [loc_database_unref] after [loc_database_ref] gives back the database
    unchanged and releases nothing; with a count of 2 or more
    [loc_database_unref] lowers the count by one, releases nothing and is
    undone by [loc_database_ref]; with a count of 1 it frees the
    database. *)
Theorem loc_database_ref_unref (db : Database.loc_database)
    (Href : 1 <= Database.refcount db < 2 ^ 31 - 1) :
  loc_database_unref (loc_database_ref db) = (Some db, [])
  /\ (2 <= Database.refcount db ->
      exists db', loc_database_unref db = (Some db', [])
        /\ Database.refcount db' = Database.refcount db - 1
        /\ loc_database_ref db' = db)
  /\ (Database.refcount db = 1 ->
      loc_database_unref db = (None, loc_database_free db)).
Proof.
  unfold loc_database_unref, loc_database_ref.
  split; [|split].
  - destruct db as [n f v c ve d a k p]. cbn in *.
    rewrite (to_int_small (n + 1)) by lia.
    replace (n + 1 - 1) with n by lia. rewrite to_int_small by lia.
    destruct (Z.gtb_spec n 0); [reflexivity | lia].
  - intros H2. destruct db as [n f v c ve d a k p]. cbn in *.
    rewrite (to_int_small (n - 1)) by lia.
    destruct (Z.gtb_spec (n - 1) 0); [|lia].
    eexists. split; [reflexivity|]. cbn. split; [reflexivity|].
    replace (n - 1 + 1) with n by lia. rewrite to_int_small by lia.
    reflexivity.
  - intros H1. destruct db as [n f v c ve d a k p]. cbn in *. subst n.
    reflexivity.
Qed.

Lemma loc_database_ref_unref_witness :
  loc_database_unref (loc_database_ref (opened_db (sample_db 0)))
  = (Some (opened_db (sample_db 0)), []).
Proof.
  apply (loc_database_ref_unref (opened_db (sample_db 0))).
  vm_compute. split; [discriminate | reflexivity].
Defined.

(** X14: dropping the only reference to a database handed out by
    [loc_database_new] frees it: the AS section is unmapped if its declared
    length is not 0, then the pool is released, the stream closed, the
    context released and the object freed, in this order.  The length given
    to [munmap] is the declared length rounded down to a multiple of 8, and
    so 0 for a section of 1 to 7 bytes, which was mapped nonetheless. *)
Theorem opened_database_release (mmap_errno : mmap_oracle)
    (database : option Database.loc_database) (data : list Z)
    (db : Database.loc_database)
    (Hopen : Database.loc_database_new mmap_errno database (fopen data)
             = (0, Some db)) :
  let as_length := as_length_of data in
  loc_database_unref db
  = (None,
     (if as_length >? 0
      then [Munmap (Mapped (mkMapping data (as_offset_of data) as_length))
                   (as_length - as_length mod 8)]
      else [])
     ++ [Stringpool_unref (Database.pool db); Fclose (mkFILE data header_end);
         Unref_ctx; Free])
  /\ (0 < as_length < 8 ->
      In (Munmap (Mapped (mkMapping data (as_offset_of data) as_length)) 0)
         (snd (loc_database_unref db))).
Proof.
  apply loc_database_new_success in Hopen.
  destruct Hopen as (_ & _ & _ & _ & ->).
  cbv zeta. pose proof (as_length_of_range data) as Hr.
  assert (E : loc_database_unref (opened_db data)
              = (None,
                 (if as_length_of data >? 0
                  then [Munmap (Mapped (mkMapping data (as_offset_of data)
                                          (as_length_of data)))
                               (as_length_of data - as_length_of data mod 8)]
                  else [])
                 ++ [Stringpool_unref (Database.pool (opened_db data));
                     Fclose (mkFILE data header_end); Unref_ctx; Free])).
  { unfold loc_database_unref, loc_database_free, opened_db, section_ptr.
    cbn [Database.refcount Database.as_v0 Database.as_count Database.pool
         Database.file set_refcount].
    change (to_int (1 - 1) >? 0) with false. cbv iota.
    destruct (Z.gtb_spec (as_length_of data) 0) as [Hgt|Hle].
    - rewrite to_size_t_small
        by (unfold Format.sizeof_as_v0;
            Z.to_euclidean_division_equations; lia).
      replace (as_length_of data / Format.sizeof_as_v0 * Format.sizeof_as_v0)
        with (as_length_of data - as_length_of data mod 8)
        by (unfold Format.sizeof_as_v0;
            Z.to_euclidean_division_equations; lia).
      reflexivity.
    - reflexivity. }
  split; [exact E|].
  intros Hs. rewrite E. cbn [snd].
  destruct (Z.gtb_spec (as_length_of data) 0) as [Hgt|Hle]; [|lia].
  rewrite Z.mod_small by lia. rewrite Z.sub_diag. left. reflexivity.
Qed.

Lemma opened_database_release_witness :
  loc_database_unref (opened_db (sample_db 0))
  = (None,
     [Munmap (Mapped (mkMapping (sample_db 0) 8192 20)) 16;
      Stringpool_unref (Database.pool (opened_db (sample_db 0)));
      Fclose (mkFILE (sample_db 0) 41); Unref_ctx; Free]).
Proof.
  assert (Hopen : Database.loc_database_new linux_mmap_errno None
                    (fopen (sample_db 0))
                  = (0, Some (opened_db (sample_db 0))))
    by (vm_compute; reflexivity).
  destruct (opened_database_release linux_mmap_errno None (sample_db 0)
              (opened_db (sample_db 0)) Hopen) as [E _].
  rewrite E. vm_compute. reflexivity.
Defined.

(** ** Callers of the database reader *)

Lemma loc_database_new_result oracle database data :
  Database.loc_database_new oracle database (fopen data)
  = (0, Some (opened_db data))
  \/ exists r, r <> 0 /\ r <= 1
       /\ Database.loc_database_new oracle database (fopen data)
          = (r, database).
Proof.
  destruct (Nat.lt_ge_cases (length data) 9) as [Hs|Hs].
  { right. rewrite loc_database_new_bad_magic by (left; exact Hs).
    destruct (Nat.ltb_spec (length data) 9); [|lia].
    exists (- ENOMSG). unfold ENOMSG. repeat split; lia. }
  destruct (list_eq_dec Z.eq_dec (firstn 7 data) Format.LOC_DATABASE_MAGIC)
    as [E|E].
  2:{ right. rewrite loc_database_new_bad_magic by (right; exact E).
      destruct (Nat.ltb_spec (length data) 9); [lia|].
      exists 1. repeat split; lia. }
  destruct (Z.eq_dec (version_of data) 0) as [Hv|Hv].
  2:{ right. rewrite loc_database_new_other_version by assumption.
      exists 1. repeat split; lia. }
  destruct (Nat.lt_ge_cases (length data) 41) as [Hh|Hh].
  { right. rewrite loc_database_new_v0_short_header by (assumption || lia).
    exists (- ENOMSG). unfold ENOMSG. repeat split; lia. }
  rewrite loc_database_new_v0 by assumption.
  destruct (section_errno oracle (after_header data)
              (as_offset_of data) (as_length_of data)) as [e|];
    [right; exists (- Z.pos e); repeat split; lia
    |left; reflexivity].
Qed.

Lemma opened_db_unref_frees data :
  exists calls,
    loc_database_unref (opened_db data) = (None, calls ++ [Free]).
Proof.
  unfold loc_database_unref, loc_database_free.
  cbn [opened_db Database.refcount set_refcount].
  change (to_int (1 - 1) >? 0) with false. cbv iota.
  match goal with
  | |- exists _, (None, ?m ++ [?a; ?b; ?c; Free]) = _ =>
      exists (m ++ [a; b; c]); rewrite <- app_assoc; reflexivity
  end.
Qed.

(** X15: [attempt_to_open] returns without a fault, never 0 and nothing
    greater than 1, whatever the file holds.  It returns -1 when the path cannot be opened,
    [-ENOMSG] for a file shorter than the magic, and 1 both for a file whose
    magic does not match and for a file that opens; in the last case the
    database is released again, ending with [free]. *)
Theorem attempt_to_open_never_zero (mmap_errno : mmap_oracle)
    (fs : filesystem) (db : option Database.loc_database)
    (path : String.string) :
  exists r calls,
    attempt_to_open mmap_errno fs db path = Val (r, calls)
    /\ r <> 0 /\ r <= 1
    /\ (fs path = None -> r = -1 /\ calls = [])
    /\ (forall data, fs path = Some data ->
          (length data < magic_size)%nat -> r = - ENOMSG /\ calls = [])
    /\ (forall data, fs path = Some data ->
          (magic_size <= length data)%nat -> ~ has_magic data ->
          r = 1 /\ calls = [])
    /\ (forall data, fs path = Some data ->
          fst (Database.loc_database_new mmap_errno db (fopen data)) = 0 ->
          r = 1 /\ calls = snd (loc_database_unref (opened_db data))
          /\ exists before, calls = before ++ [Free]).
Proof.
  unfold attempt_to_open, magic_size, has_magic.
  change (Z.to_nat Format.sizeof_magic) with 9%nat.
  change (length Format.LOC_DATABASE_MAGIC) with 7%nat.
  destruct (fs path) as [data|].
  2:{ exists (-1), []. split; [reflexivity|].
      repeat split; try lia; intros; discriminate. }
  destruct (loc_database_new_result mmap_errno db data)
    as [E | (r & Hr0 & Hr1 & E)].
  - rewrite E. cbn [fst Z.eqb].
    exists 1, (snd (loc_database_unref (opened_db data))).
    split; [reflexivity|].
    split; [lia|]. split; [lia|]. split; [discriminate|].
    split; [|split].
    + intros d [= <-] Hs.
      rewrite loc_database_new_bad_magic in E by (left; exact Hs).
      destruct (length data <? 9)%nat; discriminate E.
    + intros d [= <-] Hl Hm.
      rewrite loc_database_new_bad_magic in E by (right; exact Hm).
      destruct (length data <? 9)%nat; discriminate E.
    + intros d [= <-] _. split; [reflexivity|]. split; [reflexivity|].
      destruct (opened_db_unref_frees data) as [before Hc].
      exists before. rewrite Hc. reflexivity.
  - rewrite E. destruct (Z.eqb_spec r 0) as [|_]; [contradiction|].
    exists r, []. split; [reflexivity|].
    split; [exact Hr0|]. split; [exact Hr1|].
    split; [discriminate|]. split; [|split].
    + intros d [= <-] Hs.
      rewrite loc_database_new_bad_magic in E by (left; exact Hs).
      destruct (Nat.ltb_spec (length data) 9); [|lia].
      injection E as <-. split; reflexivity.
    + intros d [= <-] Hl Hm.
      rewrite loc_database_new_bad_magic in E by (right; exact Hm).
      destruct (Nat.ltb_spec (length data) 9); [lia|].
      injection E as <-. split; reflexivity.
    + intros d [= <-] H0. rewrite E in H0. cbn [fst] in H0. contradiction.
Qed.

(** X16: [Database_init] of the Python binding returns 0 or -1.  When it
    returns -1 the field [db] of the object is as it was; when it returns 0
    the arguments were a path, the file at this path opened with
    [loc_database_new], and [db] is the opened database, which
    [Database_dealloc] then frees.  [Database_dealloc] of an object that
    was only allocated releases nothing. *)
Theorem Python_Database_init_dealloc (mmap_errno : mmap_oracle)
    (fs : filesystem) (self : Python.DatabaseObject)
    (args : option String.string) :
  let res := Python.Database_init mmap_errno fs self args in
  (fst res = 0 \/ fst res = -1)
  /\ (fst res = -1 -> snd res = self)
  /\ (fst res = 0 ->
      exists path data,
        args = Some path /\ fs path = Some data
        /\ fst (Database.loc_database_new mmap_errno (Python.db self)
                  (fopen data)) = 0
        /\ snd res = Python.mk (Some (opened_db data))
        /\ Python.Database_dealloc (snd res)
           = snd (loc_database_unref (opened_db data))
        /\ exists calls, Python.Database_dealloc (snd res) = calls ++ [Free])
  /\ Python.Database_dealloc Python.Database_new = [].
Proof.
  cbv zeta. unfold Python.Database_init.
  destruct args as [path|]; [destruct (fs path) as [data|] eqn:Hfs|];
    try (cbn [fst snd]; repeat split;
         [right; reflexivity | intros; discriminate]).
  destruct (loc_database_new_result mmap_errno (Python.db self) data)
    as [E | (r & Hr0 & Hr1 & E)]; rewrite E.
  - cbn [fst snd Z.eqb negb]. split; [left; reflexivity|].
    split; [discriminate|]. split; [|reflexivity].
    intros _. exists path, data.
    split; [reflexivity|]. split; [exact Hfs|]. split; [rewrite E; reflexivity|].
    split; [reflexivity|]. split; [reflexivity|].
    unfold Python.Database_dealloc. cbn [Python.db].
    destruct (opened_db_unref_frees data) as [calls Hc].
    exists calls. rewrite Hc. reflexivity.
  - destruct (Z.eqb_spec r 0) as [|_]; [contradiction|].
    cbn [fst snd negb]. split; [right; reflexivity|].
    split; [intros _; destruct self; reflexivity|].
    split; [discriminate | reflexivity].
Qed.

(** X17: on an object whose database is version 0 with readable AS
    records, [Database_get_as] of the Python binding returns [NULL] for an
    integer outside the range of a C [int]; for an integer [n] in this
    range it returns [None] or the object made from a record of the table
    whose number is [n mod 2 ^ 32], and neither [NULL] nor a fault. *)
Theorem Python_Database_get_as_result (db : Database.loc_database)
    (recs : list (Z * Z)) (n : Z) (fuel : nat)
    (Hversion : Database.version db = 0)
    (Hcount : 0 <= Database.as_count db <= 2 ^ 62)
    (Htable : as_table db = map Val recs)
    (Hfuel : Database.as_count db < 2 ^ Z.of_nat fuel) :
  let self := Python.mk (Some db) in
  (n < - 2 ^ 31 \/ 2 ^ 31 <= n ->
   Python.Database_get_as fuel self (Some n) = Some (Val Python.PyNULL))
  /\ (- 2 ^ 31 <= n < 2 ^ 31 ->
      exists obj,
        Python.Database_get_as fuel self (Some n) = Some (Val obj)
        /\ (obj = Python.Py_None
            \/ exists j, 0 <= j < Database.as_count db
                 /\ fst (as_record recs j) = n mod 2 ^ 32
                 /\ obj = Python.new_as
                            (As.mk (Database.pool db) (n mod 2 ^ 32)
                               (snd (as_record recs j))))).
Proof.
  cbv zeta. unfold Python.Database_get_as. cbn [Python.db]. split.
  - intros Hn.
    destruct (Z.leb_spec (- 2 ^ 31) n); destruct (Z.ltb_spec n (2 ^ 31));
      try reflexivity; lia.
  - intros Hn.
    destruct (Z.leb_spec (- 2 ^ 31) n); [|lia].
    destruct (Z.ltb_spec n (2 ^ 31)); [|lia]. cbn [andb negb].
    change (to_uint32 n) with (n mod 2 ^ 32).
    destruct (get_as_enough_fuel db (n mod 2 ^ 32) As.Null fuel ltac:(lia)
                Hfuel) as [res Hres].
    rewrite Hres. unfold Database.loc_database_get_as in Hres.
    destruct (get_as_initial_hi (Database.as_count db) ltac:(lia))
      as [Hhi _].
    rewrite Hhi in Hres by lia.
    destruct (get_as_loop_sound db recs (n mod 2 ^ 32) Hversion ltac:(lia)
                Htable fuel 0 (Database.as_count db - 1) As.Null res
                ltac:(lia) ltac:(lia) Hres)
      as [-> | (j & Hj & Hk & ->)]; cbn [Z.eqb negb].
    + exists Python.Py_None. split; [reflexivity | left; reflexivity].
    + eexists. split; [reflexivity|]. right. exists j.
      split; [exact Hj|]. split; [exact Hk | reflexivity].
Qed.

Lemma Python_Database_get_as_result_witness :
  Python.Database_get_as 2
    (Python.mk (Some (opened_db (sample_db_with unsorted_as))))
    (Some (2 ^ 31))
  = Some (Val Python.PyNULL).
Proof.
  apply (Python_Database_get_as_result
           (opened_db (sample_db_with unsorted_as)) unsorted_records
           (2 ^ 31) 2);
    try (vm_compute; reflexivity).
  - vm_compute. split; discriminate.
  - right. lia.
Defined.

(** X18: an AS whose number is [2 ^ 31] or more, held by a table in
    ascending order, is not found under its number by [Database_get_as] of
    the Python binding, which returns [NULL]; it is found under its number
    minus [2 ^ 32]. *)
Theorem Python_Database_get_as_int_range (db : Database.loc_database)
    (recs : list (Z * Z)) (fuel : nat) (j : Z)
    (Hversion : Database.version db = 0)
    (Hcount : 0 <= Database.as_count db <= 2 ^ 62)
    (Htable : as_table db = map Val recs)
    (Hsorted : StronglySorted Z.le (map fst recs))
    (Hfuel : Database.as_count db < 2 ^ Z.of_nat fuel)
    (Hj : 0 <= j < Database.as_count db)
    (Hwide : 2 ^ 31 <= fst (as_record recs j) < 2 ^ 32) :
  let self := Python.mk (Some db) in
  let number := fst (as_record recs j) in
  Python.Database_get_as fuel self (Some number) = Some (Val Python.PyNULL)
  /\ exists j', 0 <= j' < Database.as_count db
       /\ fst (as_record recs j') = number
       /\ Python.Database_get_as fuel self (Some (number - 2 ^ 32))
          = Some (Val (Python.new_as
                         (As.mk (Database.pool db) number
                            (snd (as_record recs j'))))).
Proof.
  cbv zeta. unfold Python.Database_get_as. cbn [Python.db].
  remember (fst (as_record recs j)) as number eqn:En.
  split.
  - destruct (Z.leb_spec (- 2 ^ 31) number);
      destruct (Z.ltb_spec number (2 ^ 31)); try reflexivity; lia.
  - destruct (Z.leb_spec (- 2 ^ 31) (number - 2 ^ 32)); [|lia].
    destruct (Z.ltb_spec (number - 2 ^ 32) (2 ^ 31)); [|lia].
    cbn [andb negb].
    assert (Hu : to_uint32 (number - 2 ^ 32) = number).
    { unfold to_uint32.
      replace (number - 2 ^ 32) with (number + (-1) * 2 ^ 32) by lia.
      rewrite Z.mod_add by lia. apply Z.mod_small. lia. }
    rewrite Hu. unfold Database.loc_database_get_as.
    destruct (get_as_initial_hi (Database.as_count db) ltac:(lia))
      as [Hhi _].
    rewrite Hhi by lia.
    destruct (get_as_loop_finds db recs number Hversion ltac:(lia) Htable
                Hsorted fuel 0 (Database.as_count db - 1) As.Null
                ltac:(lia) ltac:(lia) ltac:(lia))
      as (j' & Hj' & Hk' & Hres);
      [exists j; split; [lia | symmetry; exact En]|].
    exists j'. split; [lia|]. split; [exact Hk'|].
    rewrite Hres. reflexivity.
Qed.

Lemma Python_Database_get_as_int_range_witness :
  Python.Database_get_as 2
    (Python.mk (Some (opened_db (sample_db_with wide_as))))
    (Some 4200000001)
  = Some (Val Python.PyNULL).
Proof.
  assert (Hsorted : StronglySorted Z.le (map fst wide_records)).
  { repeat constructor; discriminate. }
  destruct (Python_Database_get_as_int_range
              (opened_db (sample_db_with wide_as)) wide_records 2 1
              ltac:(vm_compute; reflexivity)
              ltac:(vm_compute; split; discriminate)
              ltac:(vm_compute; reflexivity)
              Hsorted
              ltac:(vm_compute; reflexivity)
              ltac:(vm_compute; split; [discriminate | reflexivity])
              ltac:(vm_compute; split; [discriminate | reflexivity]))
    as [H _].
  exact H.
Defined.

(** X19: [Database_open] of the Lua binding raises an error or returns one
    result.  When it raises, the userdata, if it was created, holds in [db]
    what the fresh block held, as nothing was stored there; when it
    returns, [db] is the database opened from the file at the path given,
    and [Database_gc] releases it and sets [db] to [NULL].  A second
    [Database_gc] on the same userdata releases nothing. *)
Theorem Lua_Database_open_gc (mmap_errno : mmap_oracle) (fs : filesystem)
    (uninit : Lua.Database) (arg : option String.string) :
  let res := Lua.Database_open mmap_errno fs uninit arg in
  (fst res = Lua.Raise \/ fst res = Lua.Return 1)
  /\ (fst res = Lua.Raise -> snd res = None \/ snd res = Some uninit)
  /\ (fst res = Lua.Return 1 ->
      exists path data,
        arg = Some path /\ fs path = Some data
        /\ snd res = Some (Lua.mk (Some (opened_db data)))
        /\ Lua.Database_gc (Lua.mk (Some (opened_db data)))
           = (Lua.mk None, snd (loc_database_unref (opened_db data))))
  /\ (forall self,
        Lua.Database_gc (fst (Lua.Database_gc self))
        = (fst (Lua.Database_gc self), [])).
Proof.
  cbv zeta. unfold Lua.Database_open.
  assert (Hgc : forall self,
            Lua.Database_gc (fst (Lua.Database_gc self))
            = (fst (Lua.Database_gc self), [])).
  { intros [[d|]]; reflexivity. }
  destruct arg as [path|]; [destruct (fs path) as [data|] eqn:Hfs|];
    try (cbn [fst snd];
         split; [left; reflexivity|];
         split; [intros _; auto|];
         split; [discriminate | exact Hgc]).
  destruct (loc_database_new_result mmap_errno (Lua.db uninit) data)
    as [E | (r & Hr0 & Hr1 & E)]; rewrite E.
  - cbn [fst snd Z.eqb negb]. split; [right; reflexivity|].
    split; [discriminate|]. split; [|exact Hgc].
    intros _. exists path, data.
    split; [reflexivity|]. split; [exact Hfs|]. split; reflexivity.
  - destruct (Z.eqb_spec r 0) as [|_]; [contradiction|].
    cbn [fst snd negb]. split; [left; reflexivity|].
    split; [intros _; right; destruct uninit; reflexivity|].
    split; [discriminate | exact Hgc].
Qed.

(** ** Reads of the mapped AS section *)

Lemma page_round_up_ge n : n <= page_round_up n.
Proof.
  unfold page_round_up, page_size. Z.to_euclidean_division_equations. lia.
Qed.

Lemma mapping_read_in_file m i :
  0 <= i < map_length m -> 0 <= map_offset m ->
  map_offset m + i < Z.of_nat (length (map_data m)) ->
  mapping_read m i = Val (nth (Z.to_nat (map_offset m + i)) (map_data m) 0).
Proof.
  intros Hi Ho Hp. unfold mapping_read.
  pose proof (page_round_up_ge (map_length m)).
  destruct (Z.ltb_spec i 0); [lia|].
  destruct (Z.leb_spec (page_round_up (map_length m)) i); [lia|].
  cbn [orb].
  destruct (Z.ltb_spec (map_offset m + i) 0); [lia|].
  destruct (Z.ltb_spec (map_offset m + i) (Z.of_nat (length (map_data m))));
    [reflexivity | lia].
Qed.

Lemma mapping_read_bytes_in_file m : forall n i,
  0 <= i -> i + Z.of_nat n <= map_length m -> 0 <= map_offset m ->
  map_offset m + i + Z.of_nat n <= Z.of_nat (length (map_data m)) ->
  exists bs, mapping_read_bytes m i n = Val bs.
Proof.
  induction n as [|n IH]; intros i Hi Hl Ho Hp; cbn [mapping_read_bytes].
  - eexists; reflexivity.
  - rewrite mapping_read_in_file by lia. cbn [mem_bind].
    destruct (IH (i + 1) ltac:(lia) ltac:(lia) Ho ltac:(lia)) as [bs ->].
    cbn [mem_bind]. eexists; reflexivity.
Qed.

Lemma mapping_read_past_file m i :
  0 <= i -> 0 <= map_offset m ->
  page_round_up (Z.of_nat (length (map_data m))) <= map_offset m ->
  mapping_read m i = Fault.
Proof.
  intros Hi Ho Hp. unfold mapping_read.
  pose proof (page_round_up_ge (Z.of_nat (length (map_data m)))).
  destruct ((i <? 0) || (page_round_up (map_length m) <=? i));
    [reflexivity|].
  destruct (Z.ltb_spec (map_offset m + i) 0); [reflexivity|].
  destruct (Z.ltb_spec (map_offset m + i) (Z.of_nat (length (map_data m))));
    [lia|].
  destruct (Z.ltb_spec (map_offset m + i)
              (page_round_up (Z.of_nat (length (map_data m)))));
    [lia | reflexivity].
Qed.

Lemma as_offset_of_range data : 0 <= as_offset_of data < 2 ^ 32.
Proof. apply ntohl_range. Qed.

Lemma read_as_v0_in_file data i :
  as_offset_of data + as_length_of data <= Z.of_nat (length data) ->
  0 <= i < as_length_of data / Format.sizeof_as_v0 ->
  exists rec,
    As.read_as_v0 (Database.as_v0 (opened_db data)) i = Val rec.
Proof.
  intros Hb Hi. unfold Format.sizeof_as_v0 in Hi.
  pose proof (as_offset_of_range data) as Ho.
  cbn [opened_db Database.as_v0]. unfold section_ptr.
  destruct (Z.gtb_spec (as_length_of data) 0) as [Hgt|Hle].
  2:{ exfalso. Z.to_euclidean_division_equations. lia. }
  unfold As.read_as_v0.
  change (Z.to_nat Format.sizeof_as_v0) with 8%nat.
  unfold Format.sizeof_as_v0.
  destruct (mapping_read_bytes_in_file
              (mkMapping data (as_offset_of data) (as_length_of data))
              8 (8 * i)) as [bs ->];
    cbn [map_length map_offset map_data];
    try (Z.to_euclidean_division_equations; lia).
  cbn [mem_bind]. eexists; reflexivity.
Qed.

Lemma map_Val_exists {A} (f : nat -> mem A) : forall l : list nat,
  (forall i, In i l -> exists a, f i = Val a) ->
  exists recs, map f l = map Val recs.
Proof.
  induction l as [|i l IH]; intros H.
  - exists []. reflexivity.
  - destruct (H i (or_introl eq_refl)) as [a Ha].
    destruct IH as [recs Hr]; [intros j Hj; apply H; right; exact Hj|].
    exists (a :: recs). cbn [map]. rewrite Ha, Hr. reflexivity.
Qed.

Lemma as_table_in_file data :
  as_offset_of data + as_length_of data <= Z.of_nat (length data) ->
  exists recs, as_table (opened_db data) = map Val recs.
Proof.
  intros Hb. unfold as_table. apply map_Val_exists.
  intros i Hi. apply in_seq in Hi.
  apply read_as_v0_in_file; [exact Hb|].
  cbn [opened_db Database.as_count] in Hi.
  pose proof (opened_db_as_count data) as HN.
  cbn [opened_db Database.as_count] in HN. lia.
Qed.

(** X20: when the AS section declared in the header lies within the file,
    every record of the opened database is readable, the table has
    [as_length / 8] records, and [loc_database_get_as] with a budget of 29
    rounds or more returns 0 with [*as] either [NULL] or a live AS object
    built from a record with the number asked for. *)
Theorem as_section_in_file_is_searchable (data : list Z) (number : Z)
    (as_ : As.loc_as_ptr)
    (Hbounds : as_offset_of data + as_length_of data
               <= Z.of_nat (length data)) :
  exists recs,
    as_table (opened_db data) = map Val recs
    /\ Z.of_nat (length recs) = as_length_of data / 8
    /\ forall fuel, (29 <= fuel)%nat ->
         Database.loc_database_get_as fuel (opened_db data) as_ number
         = Some (Val (0, As.Null))
         \/ exists j, 0 <= j < Z.of_nat (length recs)
              /\ fst (as_record recs j) = number
              /\ Database.loc_database_get_as fuel (opened_db data) as_ number
                 = Some (Val (0, As.Live
                                (As.mk (Database.pool (opened_db data)) number
                                   (snd (as_record recs j))))).
Proof.
  destruct (as_table_in_file data Hbounds) as [recs Htable].
  pose proof (opened_db_as_count data) as HN.
  pose proof (as_table_length _ _ Htable) as Hlen.
  exists recs. split; [exact Htable|].
  assert (Hl : Z.of_nat (length recs) = Database.as_count (opened_db data))
    by lia.
  split; [rewrite Hl; reflexivity|].
  intros fuel Hf.
  assert (Hfuel : Database.as_count (opened_db data) < 2 ^ Z.of_nat fuel).
  { apply Z.lt_le_trans with (2 ^ 29); [lia|].
    apply Z.pow_le_mono_r; lia. }
  destruct (get_as_enough_fuel (opened_db data) number as_ fuel ltac:(lia)
              Hfuel) as [res Hres].
  rewrite Hres. unfold Database.loc_database_get_as in Hres.
  destruct (get_as_initial_hi (Database.as_count (opened_db data))
              ltac:(lia)) as [Hhi _].
  rewrite Hhi in Hres by lia.
  destruct (get_as_loop_sound (opened_db data) recs number eq_refl ltac:(lia)
              Htable fuel 0 (Database.as_count (opened_db data) - 1) as_ res
              ltac:(lia) ltac:(lia) Hres)
    as [-> | (j & Hj & Hk & ->)].
  - left. reflexivity.
  - right. exists j. split; [lia|]. split; [exact Hk | reflexivity].
Qed.

Lemma as_section_in_file_is_searchable_witness :
  exists recs,
    as_table (opened_db (sample_db_with unsorted_as)) = map Val recs
    /\ Z.of_nat (length recs) = 3.
Proof.
  destruct (as_section_in_file_is_searchable (sample_db_with unsorted_as)
              65001 As.Null ltac:(vm_compute; discriminate))
    as (recs & Ht & Hl & _).
  exists recs. split; [exact Ht|]. rewrite Hl. vm_compute. reflexivity.
Defined.

(** X21: when the AS section declared in the header starts at or past
    the end of the last page of the file and holds at least one record,
    the opened database counts at least one AS, yet every
    [loc_database_fetch_as] within the count reads outside the file and
    faults, and so does every [loc_database_get_as]. *)
Theorem as_section_past_file_faults (data : list Z) (number : Z)
    (as_ : As.loc_as_ptr) (fuel : nat)
    (Hpast : page_round_up (Z.of_nat (length data)) <= as_offset_of data)
    (Hrecord : 8 <= as_length_of data)
    (Hfuel : (1 <= fuel)%nat) :
  1 <= Database.loc_database_count_as (opened_db data)
  /\ (forall pos, 0 <= pos < Database.loc_database_count_as (opened_db data) ->
        Database.loc_database_fetch_as (opened_db data) as_ pos = Fault)
  /\ Database.loc_database_get_as fuel (opened_db data) as_ number
     = Some Fault.
Proof.
  pose proof (opened_db_as_count data) as HN.
  pose proof (as_offset_of_range data) as Ho.
  unfold Database.loc_database_count_as.
  assert (H1 : 1 <= Database.as_count (opened_db data)).
  { cbn [opened_db Database.as_count]. unfold Format.sizeof_as_v0.
    Z.to_euclidean_division_equations. lia. }
  assert (Hfetch : forall a pos,
            0 <= pos < Database.as_count (opened_db data) ->
            Database.loc_database_fetch_as (opened_db data) a pos = Fault).
  { intros a pos Hpos. unfold Database.loc_database_fetch_as.
    rewrite to_size_t_small by lia.
    destruct (Z.geb_spec pos (Database.as_count (opened_db data))); [lia|].
    cbn [opened_db Database.version Database.as_v0 Database.pool].
    unfold As.loc_as_new_from_database_v0, As.read_as_v0, section_ptr.
    destruct (Z.gtb_spec (as_length_of data) 0); [|lia].
    change (Z.to_nat Format.sizeof_as_v0) with 8%nat.
    cbn [mapping_read_bytes].
    rewrite mapping_read_past_file;
      [reflexivity | unfold Format.sizeof_as_v0; lia
      | cbn [map_offset]; lia | cbn [map_offset map_data]; exact Hpast]. }
  split; [exact H1|]. split; [apply Hfetch|].
  unfold Database.loc_database_get_as.
  destruct (get_as_initial_hi (Database.as_count (opened_db data))
              ltac:(lia)) as [Hhi _].
  rewrite Hhi by lia.
  destruct fuel as [|fuel]; [lia|]. rewrite get_as_loop_S.
  destruct (Z.leb_spec 0 (Database.as_count (opened_db data) - 1)); [|lia].
  unfold Database.get_as_round.
  destruct (get_as_midpoint 0 (Database.as_count (opened_db data) - 1)
              ltac:(lia) ltac:(lia)) as [-> Hmid].
  rewrite Hfetch by lia. reflexivity.
Qed.

Lemma as_section_past_file_faults_witness :
  Database.loc_database_get_as 1 (opened_db out_of_bounds_db) As.Null 65001
  = Some Fault.
Proof.
  apply (as_section_past_file_faults out_of_bounds_db 65001 As.Null 1);
    vm_compute; try reflexivity; discriminate.
Defined.

(** ** Positions handed to [loc_database_fetch_as] *)

(** X22: [loc_database_fetch_as] returns [-EINVAL] for every position
    that is negative or not below [as_count], the negative ones through the
    conversion to [size_t], and -1 for a position within the count on a
    database of a version other than 0; whenever it returns a non-zero
    value [*as] is as it was, and when it returns 0 the position is within
    the count, the version is 0 and [*as] is a live object holding the
    number and name offset of the record at this position and the pool of
    the database. *)
Theorem loc_database_fetch_as_bounds (db : Database.loc_database)
    (as_ : As.loc_as_ptr) (pos : Z)
    (Hpos : - 2 ^ 63 <= pos < 2 ^ 63)
    (Hcount : 0 <= Database.as_count db <= 2 ^ 63) :
  let fetched := Database.loc_database_fetch_as db as_ pos in
  (pos < 0 \/ Database.as_count db <= pos ->
   fetched = Val (- EINVAL, as_))
  /\ (0 <= pos < Database.as_count db -> Database.version db <> 0 ->
      fetched = Val (-1, as_))
  /\ (forall r a, fetched = Val (r, a) -> r <> 0 -> a = as_)
  /\ (forall a, fetched = Val (0, a) ->
      0 <= pos < Database.as_count db /\ Database.version db = 0
      /\ exists o, a = As.Live o /\ As.pool o = Database.pool db
           /\ As.read_as_v0 (Database.as_v0 db) pos
              = Val (As.number o, As.name o)).
Proof.
  cbv zeta. unfold Database.loc_database_fetch_as, EINVAL.
  destruct (Z.lt_ge_cases pos 0) as [Hneg|Hnn].
  - pose proof (to_size_t_negative pos ltac:(lia)) as Hbig.
    destruct (Z.geb_spec (to_size_t pos) (Database.as_count db)); [|lia].
    split; [reflexivity|]. split; [lia|].
    split; [intros r a [= <- <-] _; reflexivity | intros a [=]].
  - rewrite to_size_t_small by lia.
    destruct (Z.geb_spec pos (Database.as_count db)) as [Hge|Hlt].
    + split; [reflexivity|]. split; [lia|].
      split; [intros r a [= <- <-] _; reflexivity | intros a [=]].
    + split; [lia|].
      destruct (Database.version db) as [|v|v] eqn:Hv.
      * split; [congruence|].
        unfold As.loc_as_new_from_database_v0.
        destruct (As.read_as_v0 (Database.as_v0 db) pos) as [[k n]|];
          cbn [mem_bind fst snd].
        -- split; [intros r a [= <- <-] Hr; congruence|].
           intros a [= <-]. split; [lia|]. split; [reflexivity|].
           eexists. split; [reflexivity|]. split; reflexivity.
        -- split; [intros r a [=] | intros a [=]].
      * split; [reflexivity|].
        split; [intros r a [= <- <-] _; reflexivity | intros a [=]].
      * split; [reflexivity|].
        split; [intros r a [= <- <-] _; reflexivity | intros a [=]].
Qed.

Lemma loc_database_fetch_as_bounds_witness :
  Database.loc_database_fetch_as (opened_db (sample_db 0)) As.Null (-1)
  = Val (- EINVAL, As.Null).
Proof.
  apply (loc_database_fetch_as_bounds (opened_db (sample_db 0)) As.Null (-1));
    [lia | vm_compute; split; discriminate | left; lia].
Defined.
